(** * Incremental indexer and query facade for Gemini File Search

    A shallow embedding of [index_create_local.py], [index_create_gcp_cloud.py],
    [app.py] and [app_remote.py].

    - Python [str] values are lists of Unicode code points ([list N]).
    - The ledger [Dict[str, str]] is a [gmap] from identifiers to fingerprints.
    - [json.dump(..., indent=2, sort_keys=True)] and [json.load] are modelled on
      the text they write and read.
    - Files, blobs, the in-memory ledger and the calls made to the external
      services are threaded through a small state-and-exception monad; the
      answers of the external services are inputs of a run. *)

From stdpp Require Import gmap list sorting strings.

Set Warnings "-register-all".

Open Scope N_scope.

(** ** Python strings *)

Module Py.

(** A [str] is its sequence of code points. *)
Abbreviation str := (list N).

Fixpoint of_string (s : string) : str :=
  match s with
  | EmptyString => []
  | String a s' => Ascii.N_of_ascii a :: of_string s'
  end.

(** [s.startswith(p)] *)
Fixpoint startswith (s p : str) : bool :=
  match p, s with
  | [], _ => true
  | _ :: _, [] => false
  | a :: p', b :: s' => (a =? b) && startswith s' p'
  end.

(** [s.endswith(p)] *)
Definition endswith (s p : str) : bool := startswith (reverse s) (reverse p).

(** [str.isspace] on one code point: the characters of bidirectional type
    WS, B or S, and those of category Zs. *)
Definition isspace (c : N) : bool :=
  ((9 <=? c) && (c <=? 13)) || ((28 <=? c) && (c <=? 32)) ||
  (c =? 133) || (c =? 160) || (c =? 5760) ||
  ((8192 <=? c) && (c <=? 8202)) || (c =? 8232) || (c =? 8233) ||
  (c =? 8239) || (c =? 8287) || (c =? 12288).

(** [s.lstrip()], [s.rstrip()] and [s.strip()] *)
Fixpoint lstrip (s : str) : str :=
  match s with
  | c :: s' => if isspace c then lstrip s' else s
  | [] => []
  end.
Definition rstrip (s : str) : str := reverse (lstrip (reverse s)).
Definition strip (s : str) : str := rstrip (lstrip s).

(** What reading a text file returns for the characters written to it, on
    a POSIX system: [open(path, "w")] writes them as they are, and
    [open(path, "r")] reads a carriage return, alone or before a line feed,
    as one line feed. *)
Fixpoint universal_newlines (s : str) : str :=
  match s with
  | [] => []
  | c :: s' =>
      if c =? 13 then
        10 :: match s' with
              | d :: s'' => if d =? 10 then universal_newlines s''
                            else universal_newlines s'
              | [] => []
              end
      else c :: universal_newlines s'
  end.

(** [s.lower()] for a text whose cased characters are ASCII letters. *)
Definition ascii_lower (s : str) : str :=
  (λ c, if (65 <=? c) && (c <=? 90) then c + 32 else c) <$> s.

(** Truth value of an optional string: [None] and the empty string are false. *)
Definition truthy (o : option str) : bool :=
  match o with
  | Some (_ :: _) => true
  | _ => false
  end.

(** [a or b] on optional strings *)
Definition or_else (a b : option str) : option str := if truthy a then a else b.

(** [posixpath.basename] *)
Fixpoint basename (p : str) : str :=
  match p with
  | [] => []
  | c :: p' => if existsb (N.eqb 47) p' then basename p'
               else if c =? 47 then p' else p
  end.

(** [posixpath.join a b] *)
Definition path_join (a b : str) : str :=
  if startswith b [47] then b
  else match a with
       | [] => b
       | _ => if endswith a [47] then a ++ b else a ++ 47 :: b
       end.

(** Comparison of strings: lexicographic on code points. *)
Fixpoint str_ltb (a b : str) : bool :=
  match a, b with
  | _, [] => false
  | [], _ :: _ => true
  | x :: a', y :: b' => (x <? y) || ((x =? y) && str_ltb a' b')
  end.

(** Comparison of [(key, value)] tuples, as [sorted(dct.items())] compares them. *)
Definition item_le (p q : str * str) : Prop :=
  str_ltb p.1 q.1 = true ∨ (p.1 = q.1 ∧ (str_ltb p.2 q.2 = true ∨ p.2 = q.2)).

#[export] Instance item_le_dec p q : Decision (item_le p q).
Proof. unfold item_le. apply _. Defined.

(** [sorted(items)] *)
Definition sorted (items : list (str * str)) : list (str * str) :=
  merge_sort item_le items.

End Py.

Notation "'py:' s" := (Py.of_string s) (at level 1, s at level 0, format "'py:' s").

(** ** The [json] module, as the indexers use it *)

Module Json.
Import Py.

(** Values that [json.load] returns.  A number keeps its lexeme: no part of
    the indexers looks at the value of a number. *)
Inductive value :=
| JNull
| JBool (b : bool)
| JNum (lexeme : str)
| JStr (s : str)
| JArr (items : list value)
| JObj (pairs : list (str * value)).

(** *** Encoding: [json.dumps(state, indent=2, sort_keys=True)] *)

(** One lower-case hexadecimal digit. *)
Definition hex_digit (n : N) : N := if n <? 10 then 48 + n else 87 + n.

(** ['\\u{0:04x}'.format(n)] *)
Definition u_escape (n : N) : str :=
  [92; 117; hex_digit (n / 4096 mod 16); hex_digit (n / 256 mod 16);
   hex_digit (n / 16 mod 16); hex_digit (n mod 16)].

(** The replacement of one character in [encode_basestring_ascii]: the
    short escapes of [ESCAPE_DCT], printable ASCII unchanged, [\uXXXX] for
    the rest, as a surrogate pair above the basic plane. *)
Definition escape_char (c : N) : str :=
  if c =? 34 then [92; 34]
  else if c =? 92 then [92; 92]
  else if c =? 10 then [92; 110]
  else if c =? 13 then [92; 114]
  else if c =? 9 then [92; 116]
  else if c =? 8 then [92; 98]
  else if c =? 12 then [92; 102]
  else if (32 <=? c) && (c <=? 126) then [c]
  else if c <? 65536 then u_escape c
  else let n := c - 65536 in
       u_escape (N.lor 55296 (N.land (N.shiftr n 10) 1023)) ++
       u_escape (N.lor 56320 (N.land n 1023)).

(** The surrogates that [escape_char] writes for a code point above the
    basic plane. *)
Definition high_of (c : N) : N := N.lor 55296 (N.land (N.shiftr (c - 65536) 10) 1023).
Definition low_of (c : N) : N := N.lor 56320 (N.land (c - 65536) 1023).

Definition encode_basestring_ascii (s : str) : str :=
  34 :: flat_map escape_char s ++ [34].

(** One [key: value] member. *)
Definition encode_item (kv : str * str) : str :=
  encode_basestring_ascii kv.1 ++ [58; 32] ++ encode_basestring_ascii kv.2.

(** The members of a non-empty object at indent level 1, each after its
    separator: a newline and two spaces, with a comma before all but the first. *)
Fixpoint encode_items (first : bool) (items : list (str * str)) : str :=
  match items with
  | [] => []
  | kv :: rest =>
      (if first then [10; 32; 32] else [44; 10; 32; 32]) ++
      encode_item kv ++ encode_items false rest
  end.

(** The text of the members after the opening quote of the first key. *)
Definition after_quote (kv : str * str) (rest : list (str * str)) : str :=
  flat_map escape_char kv.1 ++ 34 :: 58 :: 32 :: 34 ::
  flat_map escape_char kv.2 ++ 34 :: (encode_items false rest ++ [10; 125]).

(** [_iterencode_dict] for a dictionary of strings, given its items in
    iteration order. *)
Definition dumps_items (items : list (str * str)) : str :=
  match items with
  | [] => [123; 125]
  | _ => 123 :: encode_items true (sorted items) ++ [10; 125]
  end.

Definition dumps (state : gmap str str) : str := dumps_items (map_to_list state).

(** *** Decoding: [json.loads] *)

Definition is_ws (c : N) : bool := (c =? 32) || (c =? 9) || (c =? 10) || (c =? 13).

Fixpoint skip_ws (s : str) : str :=
  match s with
  | c :: s' => if is_ws c then skip_ws s' else s
  | [] => []
  end.

Definition is_digit (c : N) : bool := (48 <=? c) && (c <=? 57).

(** The value of a hexadecimal digit, of either case. *)
Definition hex_value (c : N) : option N :=
  if (48 <=? c) && (c <=? 57) then Some (c - 48)
  else if (97 <=? c) && (c <=? 102) then Some (c - 87)
  else if (65 <=? c) && (c <=? 70) then Some (c - 55)
  else None.

(** [_decode_uXXXX] on the four characters after [\u]. *)
Definition decode_hex4 (a b c d : N) : option N :=
  match hex_value a, hex_value b, hex_value c, hex_value d with
  | Some x, Some y, Some z, Some w => Some (((x * 16 + y) * 16 + z) * 16 + w)
  | _, _, _, _ => None
  end.

(** The [BACKSLASH] table. *)
Definition backslash (c : N) : option N :=
  if c =? 34 then Some 34
  else if c =? 92 then Some 92
  else if c =? 47 then Some 47
  else if c =? 98 then Some 8
  else if c =? 102 then Some 12
  else if c =? 110 then Some 10
  else if c =? 114 then Some 13
  else if c =? 116 then Some 9
  else None.

Definition is_high_surrogate (u : N) : bool := (55296 <=? u) && (u <=? 56319).
Definition is_low_surrogate (u : N) : bool := (56320 <=? u) && (u <=? 57343).
Definition join_surrogates (hi lo : N) : N :=
  65536 + N.lor (N.shiftl (hi - 55296) 10) (lo - 56320).

(** [scanstring] (strict), started after the opening quote: the decoded
    string and the text after the closing quote.  [None] stands for a
    [JSONDecodeError]: an unterminated string, a control character, or an
    invalid escape. *)
Fixpoint scanstring (s : str) : option (str * str) :=
  match s with
  | [] => None
  | c :: rest =>
      if c =? 34 then Some ([], rest)
      else if c =? 92 then
        match rest with
        | [] => None
        | esc :: rest1 =>
            if esc =? 117 then
              match rest1 with
              | h1 :: h2 :: h3 :: h4 :: rest2 =>
                  match decode_hex4 h1 h2 h3 h4 with
                  | None => None
                  | Some uni =>
                      let plain :=
                        match scanstring rest2 with
                        | Some (t, r) => Some (uni :: t, r)
                        | None => None
                        end in
                      if is_high_surrogate uni then
                        match rest2 with
                        | b :: u :: rest3 =>
                            if (b =? 92) && (u =? 117) then
                              match rest3 with
                              | g1 :: g2 :: g3 :: g4 :: rest4 =>
                                  match decode_hex4 g1 g2 g3 g4 with
                                  | None => None
                                  | Some uni2 =>
                                      if is_low_surrogate uni2 then
                                        match scanstring rest4 with
                                        | Some (t, r) =>
                                            Some (join_surrogates uni uni2 :: t, r)
                                        | None => None
                                        end
                                      else plain
                                  end
                              | _ => None
                              end
                            else plain
                        | _ => plain
                        end
                      else plain
                  end
              | _ => None
              end
            else
              match backslash esc with
              | None => None
              | Some ch =>
                  match scanstring rest1 with
                  | Some (t, r) => Some (ch :: t, r)
                  | None => None
                  end
              end
        end
      else if c <? 32 then None
      else
        match scanstring rest with
        | Some (t, r) => Some (c :: t, r)
        | None => None
        end
  end.

(** The leading digits of a text, and what follows them. *)
Fixpoint span_digits (s : str) : str * str :=
  match s with
  | c :: s' => if is_digit c then let '(d, r) := span_digits s' in (c :: d, r)
               else ([], s)
  | [] => ([], [])
  end.

(** [NUMBER_RE.match]: an optional minus sign; a zero, or a digit from 1 to 9
    and any digits; then, each only when it is complete, a fraction (a dot
    and one digit or more) and an exponent ([e] or [E], an optional sign and
    one digit or more).  The lexeme matched and the text after it. *)
Definition match_number (s : str) : option (str * str) :=
  let '(sign, s1) := match s with
                     | 45 :: s' => ([45], s')
                     | _ => ([], s)
                     end in
  match s1 with
  | [] => None
  | c :: s2 =>
      if is_digit c then
        let '(int_rest, s3) := if c =? 48 then ([], s2) else span_digits s2 in
        let int_part := sign ++ c :: int_rest in
        let '(frac, s4) :=
          match s3 with
          | 46 :: s3' =>
              match span_digits s3' with
              | ((_ :: _) as d, r) => (46 :: d, r)
              | _ => ([], s3)
              end
          | _ => ([], s3)
          end in
        let '(exp, s5) :=
          match s4 with
          | e :: s4' =>
              if (e =? 101) || (e =? 69) then
                let '(sg, s4'') := match s4' with
                                   | x :: r => if (x =? 43) || (x =? 45)
                                               then ([x], r) else ([], s4')
                                   | [] => ([], s4')
                                   end in
                match span_digits s4'' with
                | ((_ :: _) as d, r) => (e :: sg ++ d, r)
                | _ => ([], s4)
                end
              else ([], s4)
          | [] => ([], s4)
          end in
        Some (int_part ++ frac ++ exp, s5)
      else None
  end.

(** A literal [w] at the start of [s]. *)
Definition literal (w s : str) : option str :=
  if startswith s w then Some (drop (length w) s) else None.

(** The members of an object, started after a member's opening quote and
    read up to the closing brace; [scan] reads a value.  [n] bounds the number
    of members. *)
Fixpoint members (scan : str → option (value * str)) (n : nat) (s : str)
    : option (list (str * value) * str) :=
  match n with
  | O => None
  | S n' =>
      match scanstring s with
      | None => None
      | Some (key, s1) =>
          match skip_ws s1 with
          | 58 :: s2 =>
              match scan (skip_ws s2) with
              | None => None
              | Some (v, s3) =>
                  match skip_ws s3 with
                  | 125 :: s4 => Some ([(key, v)], s4)
                  | 44 :: s4 =>
                      match skip_ws s4 with
                      | 34 :: s5 =>
                          match members scan n' s5 with
                          | Some (ps, r) => Some ((key, v) :: ps, r)
                          | None => None
                          end
                      | _ => None
                      end
                  | _ => None
                  end
              end
          | _ => None
          end
      end
  end.

(** The elements of an array, started at an element and read up to the
    closing bracket.  [n] bounds the number of elements. *)
Fixpoint elements (scan : str → option (value * str)) (n : nat) (s : str)
    : option (list value * str) :=
  match n with
  | O => None
  | S n' =>
      match scan s with
      | None => None
      | Some (v, s1) =>
          match skip_ws s1 with
          | 93 :: s2 => Some ([v], s2)
          | 44 :: s2 =>
              match elements scan n' (skip_ws s2) with
              | Some (vs, r) => Some (v :: vs, r)
              | None => None
              end
          | _ => None
          end
      end
  end.

(** [scan_once], with [JSONObject] and [JSONArray].  [fuel] bounds the
    nesting; a text never needs more than its length. *)
Fixpoint scan_once (fuel : nat) (s : str) : option (value * str) :=
  match fuel with
  | O => None
  | S fuel' =>
      match s with
      | [] => None
      | c :: rest =>
          if c =? 34 then
            match scanstring rest with
            | Some (t, r) => Some (JStr t, r)
            | None => None
            end
          else if c =? 123 then
            match skip_ws rest with
            | 125 :: r => Some (JObj [], r)
            | 34 :: r =>
                match members (scan_once fuel') (length r) r with
                | Some (ps, r') => Some (JObj ps, r')
                | None => None
                end
            | _ => None
            end
          else if c =? 91 then
            match skip_ws rest with
            | 93 :: r => Some (JArr [], r)
            | r =>
                match elements (scan_once fuel') (length r) r with
                | Some (vs, r') => Some (JArr vs, r')
                | None => None
                end
            end
          else
            match literal py:"null" s, literal py:"true" s, literal py:"false" s with
            | Some r, _, _ => Some (JNull, r)
            | _, Some r, _ => Some (JBool true, r)
            | _, _, Some r => Some (JBool false, r)
            | _, _, _ =>
                match match_number s with
                | Some (lex, r) => Some (JNum lex, r)
                | None =>
                    match literal py:"NaN" s, literal py:"Infinity" s,
                          literal py:"-Infinity" s with
                    | Some r, _, _ => Some (JNum py:"NaN", r)
                    | _, Some r, _ => Some (JNum py:"Infinity", r)
                    | _, _, Some r => Some (JNum py:"-Infinity", r)
                    | _, _, _ => None
                    end
                end
            end
      end
  end.

(** [json.loads]: a leading byte-order mark is refused, white space around
    the value is skipped, and nothing may follow it.  [None] stands for a
    [JSONDecodeError]. *)
Definition loads (s : str) : option value :=
  if startswith s [65279] then None
  else match scan_once (S (length s)) (skip_ws s) with
       | Some (v, r) => match skip_ws r with
                        | [] => Some v
                        | _ :: _ => None
                        end
       | None => None
       end.

(** A loaded value read at the type [Dict[str, str]]: [dict(pairs)] keeps
    the last value of a repeated key. *)
Fixpoint as_str_pairs (pairs : list (str * value)) : option (list (str * str)) :=
  match pairs with
  | [] => Some []
  | (k, JStr v) :: rest =>
      match as_str_pairs rest with
      | Some l => Some ((k, v) :: l)
      | None => None
      end
  | _ => None
  end.

(** A string that [encode_basestring_ascii] and [scanstring] carry over
    unchanged: its code points are below 0x110000, as in every [str], and no
    high surrogate stands directly before a low one (the decoder would read the
    two escapes as one character). *)
Fixpoint well_formed (s : str) : bool :=
  match s with
  | [] => true
  | c :: s' =>
      (c <? 1114112) &&
      negb (is_high_surrogate c &&
            match s' with
            | d :: _ => is_low_surrogate d
            | [] => false
            end) &&
      well_formed s'
  end.

(** A ledger of well-formed identifiers and fingerprints. *)
Definition wf_ledger (state : gmap str str) : Prop :=
  map_Forall (λ k v, well_formed k = true ∧ well_formed v = true) state.

Definition as_ledger (v : value) : option (gmap str str) :=
  match v with
  | JObj pairs =>
      match as_str_pairs pairs with
      | Some l => Some (list_to_map (reverse l))
      | None => None
      end
  | _ => None
  end.

End Json.

(** ** Runs: state, exceptions and the trace of a run *)

Module Run.
Import Py.

(** The calls to external services that may raise. *)
Inductive service_call := CreateStore | Upload | OperationsGet | Download.

(** The exceptions that the runs and the services of the model end with.
    The other calls of the scripts (the storage client and its listing, the
    reads and writes of files and blobs, the directory listing, the hashing of
    a file) are taken to return: their exceptions are outside the model. *)
Inductive exn :=
| MissingApiKey              (* RuntimeError: no API key in the environment *)
| DataDirNotFound            (* RuntimeError: ./data is not a directory *)
| BucketNotFound             (* RuntimeError: the bucket does not exist *)
| JSONDecodeError            (* json.load on a text that is not JSON *)
| ServiceError (c : service_call)   (* an exception out of an external call *)
| HTTPException (status : N) (detail : str).

(** How a call ends: it returns, it raises, or it never returns. *)
Inductive outcome (A : Type) :=
| Ret (a : A)
| Raise (e : exn)
| Hang
| OutOfModel.   (* the persisted ledger is JSON but no [Dict[str, str]] *)
Arguments Ret {A} a.
Arguments Raise {A} e.
Arguments Hang {A}.
Arguments OutOfModel {A}.

(** The classification the detection loop prints for a document. *)
Inductive label := NEW | CHANGED | UNCHANGED.

#[export] Instance label_eq_dec : EqDecision label.
Proof. solve_decision. Defined.

(** What a run does, in order. *)
Inductive event :=
| ECreateStore (display_name : str)
| EWriteStoreName (name : str)
| EClassify (doc : str) (l : label)
| EDownload (doc tmp_path : str)
| EUpload (doc file store display_name : str)
| EStatus (doc : str) (done : bool)   (* one test of [operation.done] *)
| ESleep (seconds : N)
| EPoll (doc : str)                   (* [client.operations.get] *)
| ECommit (doc fp : str)              (* [state[doc] = fp] *)
| ERemove (tmp_path : str)
| ESave (text : str).                 (* the ledger written to its file or blob *)

#[export] Instance event_eq_dec : EqDecision event.
Proof. solve_decision. Defined.

(** An upload operation as the polling loop sees it: done; or not done,
    with what the next [operations.get] does (it returns the operation in
    its next state, or it raises); or not done at any poll. *)
Inductive operation :=
| OpDone
| OpPending (next : operation)
| OpPollRaises
| OpStuck.

Inductive upload_response :=
| UploadRaises
| UploadReturns (op : operation).

(** A computation over a state [S]: the state is kept when it raises. *)
Definition M (S A : Type) : Type := S → S * outcome A.

Definition ret {S A} (a : A) : M S A := λ s, (s, Ret a).
Definition raise {S A} (e : exn) : M S A := λ s, (s, Raise e).
Definition bind {S A B} (m : M S A) (k : A → M S B) : M S B :=
  λ s, match m s with
       | (s', Ret a) => k a s'
       | (s', Raise e) => (s', Raise e)
       | (s', Hang) => (s', Hang)
       | (s', OutOfModel) => (s', OutOfModel)
       end.

End Run.

Notation "x <- m ;; k" := (Run.bind m (λ x, k))
  (at level 100, m at next level, right associativity,
   format "'[v' x  <-  m  ;;  '/' k ']'").
Notation "m ;;; k" := (Run.bind m (λ _, k))
  (at level 100, right associativity, format "'[v' m  ;;;  '/' k ']'").

(** ** Notions read off a trace and off the answers of the services *)

Module Trace.
Import Py Run.

Definition upload_doc (e : event) : option str :=
  match e with
  | EUpload doc _ _ _ => Some doc
  | _ => None
  end.

Definition commit_of (e : event) : option (str * str) :=
  match e with
  | ECommit doc fp => Some (doc, fp)
  | _ => None
  end.

Definition save_of (e : event) : option str :=
  match e with
  | ESave text => Some text
  | _ => None
  end.

Definition create_of (e : event) : option str :=
  match e with
  | ECreateStore display_name => Some display_name
  | _ => None
  end.

(** The documents uploaded, the ledger entries committed, the ledger texts
    written and the stores created, in the order of the trace. *)
Definition uploaded (es : list event) : list str := omap upload_doc es.
Definition committed (es : list event) : list (str * str) := omap commit_of es.
Definition saved (es : list event) : list str := omap save_of es.
Definition created (es : list event) : list str := omap create_of es.

(** Every commit directly follows the test that saw the operation of its
    document done. *)
Definition commits_follow_done (es : list event) : Prop :=
  ∀ i doc fp, es !! i = Some (ECommit doc fp) →
    ∃ j, i = S j ∧ es !! j = Some (EStatus doc true).

(** The commits of a list of entries, applied in order to a ledger. *)
Definition apply_commits (state : gmap str str) (cs : list (str * str))
    : gmap str str :=
  foldl (λ m c, <[c.1 := c.2]> m) state cs.

(** How the polling of an operation ends, and after how many polls. *)
Fixpoint settles (op : operation) : outcome unit :=
  match op with
  | OpDone => Ret tt
  | OpPending next => settles next
  | OpPollRaises => Raise (ServiceError OperationsGet)
  | OpStuck => Hang
  end.

Fixpoint polls (op : operation) : nat :=
  match op with
  | OpPending next => S (polls next)
  | OpPollRaises => 1
  | _ => 0
  end.

(** The events of the polling loop on the operation [op] of [doc]. *)
Fixpoint wait_events (doc : str) (op : operation) : list event :=
  match op with
  | OpDone => [EStatus doc true]
  | OpPending next => [EStatus doc false; ESleep 2; EPoll doc] ++ wait_events doc next
  | OpPollRaises => [EStatus doc false; ESleep 2; EPoll doc]
  | OpStuck => []
  end.

(** An upload that returns an operation which is done after finitely many
    polls. *)
Definition upload_succeeds (r : upload_response) : Prop :=
  ∃ op, r = UploadReturns op ∧ settles op = Ret tt.

(** An upload that raises, or whose operation raises at a poll. *)
Definition upload_fails (r : upload_response) : Prop :=
  r = UploadRaises ∨
  ∃ op, r = UploadReturns op ∧ settles op = Raise (ServiceError OperationsGet).

(** The ledger that [load_index_state] and the cast to [Dict[str, str]]
    yield for the content of the ledger file. *)
Definition ledger_of (file : option str) : option (gmap str str) :=
  match file with
  | None => Some ∅
  | Some text => Json.loads text ≫= Json.as_ledger
  end.

End Trace.

(** ** [index_create_local.py] *)

Module Local.
Import Py Run.

Definition STORE_NAME_FILE : str := py:".store_name".
Definition INDEX_STATE_FILE : str := py:".indexed_files.json".
Definition DATA_DIR : str := py:"data".
Definition ALLOWED_EXT : list str := [py:".txt"; py:".pdf"; py:".docx"; py:".doc"].

(** An entry of [os.listdir(data_dir)], with what [os.path.isfile] and
    [file_hash] say of it. *)
Record dirent := {
  d_name : str;
  d_isfile : bool;
  d_sha256 : str
}.

(** What a run reads and is answered. *)
Record Env := {
  GOOGLE_API_KEY : option str;
  GEMINI_API_KEY : option str;
  cwd : str;
  data : option (list dirent);          (* [None]: ./data is no directory *)
  create_store : option str;            (* the created store's name; [None]: the call raises *)
  upload : nat → upload_response        (* the answer to the k-th upload of the run *)
}.

(** The two files of the working directory, each as the text that
    [open(path, "r")] and [f.read()] return for it ([None]: there is no such
    file), and the trace. *)
Record St := {
  store_name_file : option str;
  index_state_file : option str;
  trace : list event
}.

(** The state with the events [es] added to its trace. *)
Definition log (st : St) (es : list event) : St :=
  {| store_name_file := store_name_file st;
     index_state_file := index_state_file st;
     trace := trace st ++ es |}.

Definition tell (es : list event) : M St unit := λ st, (log st es, Ret tt).

Definition make_client (env : Env) : M St unit :=
  if truthy (or_else (GOOGLE_API_KEY env) (GEMINI_API_KEY env))
  then ret tt else raise MissingApiKey.

Definition load_index_state : M St Json.value :=
  λ st, match index_state_file st with
        | None => (st, Ret (Json.JObj []))
        | Some text =>
            match Json.loads text with
            | Some v => (st, Ret v)
            | None => (st, Raise JSONDecodeError)
            end
        end.

(** [json.dump] writes no carriage return, so the text is read back as it
    was written. *)
Definition save_index_state (state : gmap str str) : M St unit :=
  λ st, ({| store_name_file := store_name_file st;
            index_state_file := Some (Json.dumps state);
            trace := trace st ++ [ESave (Json.dumps state)] |}, Ret tt).

(** [f.write(store_name)] on [open(STORE_NAME_FILE, "w")]: a later read of
    the file returns the name with its carriage returns read as line feeds. *)
Definition write_store_name (store_name : str) : M St unit :=
  λ st, ({| store_name_file := Some (universal_newlines store_name);
            index_state_file := index_state_file st;
            trace := trace st ++ [EWriteStoreName store_name] |}, Ret tt).

Definition file_search_stores_create (env : Env) (display_name : str) : M St str :=
  tell [ECreateStore display_name];;;
  match create_store env with
  | Some name => ret name
  | None => raise (ServiceError CreateStore)
  end.

Definition load_or_create_store (env : Env) (display_name : str) : M St str :=
  λ st,
    let create :=
      (store_name <- file_search_stores_create env display_name;;
       write_store_name store_name;;;
       ret store_name) in
    match store_name_file st with
    | Some content =>
        match strip content with
        | [] => create st
        | name => (st, Ret name)
        end
    | None => create st
    end.

(** The loaded value at the declared type of [load_index_state], where the
    run first reads it: in the detection loop. *)
Definition typed (v : Json.value) : M St (gmap str str) :=
  λ st, match Json.as_ledger v with
        | Some state => (st, Ret state)
        | None => (st, OutOfModel)
        end.

Definition classify (state : gmap str str) (fname h : str) : label :=
  match state !! fname with
  | None => NEW
  | Some old_hash => if decide (old_hash ≠ h) then CHANGED else UNCHANGED
  end.

(** The polling loop on the operation of document [doc]. *)
Fixpoint wait (doc : str) (op : operation) : M St unit :=
  match op with
  | OpDone => tell [EStatus doc true]
  | OpPending next =>
      tell [EStatus doc false; ESleep 2; EPoll doc];;;
      wait doc next
  | OpPollRaises =>
      tell [EStatus doc false; ESleep 2; EPoll doc];;;
      raise (ServiceError OperationsGet)
  | OpStuck => λ st, (st, Hang)
  end.

(** One round of the upload loop: the [k]-th upload of the run. *)
Definition index_one (env : Env) (store_name : str) (k : nat)
    (doc : str * str * str) (state : gmap str str) : M St (gmap str str) :=
  let '(fname, path, h) := doc in
  tell [EUpload fname path store_name fname];;;
  match upload env k with
  | UploadRaises => raise (ServiceError Upload)
  | UploadReturns op =>
      wait fname op;;;
      tell [ECommit fname h];;;
      ret (<[fname := h]> state)
  end.

Fixpoint upload_all (env : Env) (store_name : str) (k : nat)
    (docs : list (str * str * str)) (state : gmap str str) : M St (gmap str str) :=
  match docs with
  | [] => ret state
  | doc :: rest =>
      state' <- index_one env store_name k doc state;;
      upload_all env store_name (S k) rest state'
  end.

(** The documents of [new_or_changed], and the entries their commits write. *)
Definition doc_names (docs : list (str * str * str)) : list str := docs.*1.*1.
Definition doc_entries (docs : list (str * str * str)) : list (str * str) :=
  (λ d, (d.1.1, d.2)) <$> docs.

Section WithLower.

(** [str.lower], Python's Unicode lower-casing. *)
Variable lower : str → str.

Definition allowed (fname : str) : bool :=
  existsb (endswith (lower fname)) ALLOWED_EXT.

(** The detection loop: the lines it prints and [new_or_changed]. *)
Fixpoint detect (state : gmap str str) (data_dir : str) (entries : list dirent)
    : list event * list (str * str * str) :=
  match entries with
  | [] => ([], [])
  | e :: rest =>
      let '(log, found) := detect state data_dir rest in
      let fname := d_name e in
      if negb (allowed fname) then (log, found)
      else
        let path := path_join data_dir fname in
        if negb (d_isfile e) then (log, found)
        else
          let h := d_sha256 e in
          match classify state fname h with
          | UNCHANGED => (EClassify fname UNCHANGED :: log, found)
          | l => (EClassify fname l :: log, (fname, path, h) :: found)
          end
  end.

(** The documents the detection loop classifies: the entries with an allowed
    extension that are files. *)
Definition enumerated (data_dir : str) (entries : list dirent)
    : list (str * str * str) :=
  (λ e, (d_name e, path_join data_dir (d_name e), d_sha256 e)) <$>
  filter (λ e, allowed (d_name e) && d_isfile e) entries.

(** [new_or_changed] after the detection loop. *)
Definition new_or_changed (state : gmap str str) (data_dir : str)
    (entries : list dirent) : list (str * str * str) :=
  (detect state data_dir entries).2.

Definition incremental_index (env : Env) (display_name : str) : M St unit :=
  make_client env;;;
  store_name <- load_or_create_store env display_name;;
  v <- load_index_state;;
  let data_dir := path_join (cwd env) DATA_DIR in
  match data env with
  | None => raise DataDirNotFound
  | Some entries =>
      state <- typed v;;
      let '(log, new_or_changed) := detect state data_dir entries in
      tell log;;;
      match new_or_changed with
      | [] => ret tt
      | _ :: _ =>
          state' <- upload_all env store_name 0 new_or_changed state;;
          save_index_state state'
      end
  end.

End WithLower.

Import Trace.

(** A run that ends before it reads the ledger: no API key, or no store
    name on file and a store creation that raises. *)
Definition stopped_early (env : Env) (r : outcome unit) : Prop :=
  (r = Raise MissingApiKey ∧
   truthy (or_else (GOOGLE_API_KEY env) (GEMINI_API_KEY env)) = false) ∨
  (r = Raise (ServiceError CreateStore) ∧ create_store env = None).

(** What the part of a run after the ledger is loaded guarantees, for the
    loaded ledger [state], the ledger file before and after, the outcome and
    the events. *)
Definition loop_post (lower : str → str) (env : Env) (state : gmap str str) (entries : list dirent)
    (file file' : option str) (r : outcome unit) (es : list event) : Prop :=
  let docs := new_or_changed lower state (path_join (cwd env) DATA_DIR) entries in
  uploaded es `prefix_of` doc_names docs ∧
  committed es `prefix_of` doc_entries docs ∧
  (∀ i, (i < length docs)%nat →
     (∀ j, (j < i)%nat → upload_succeeds (upload env j)) →
     upload_fails (upload env i) → ∃ e, r = Raise e) ∧
  (docs = [] → r = Ret tt ∨ stopped_early env r) ∧
  (r = Ret tt →
     uploaded es = doc_names docs ∧ committed es = doc_entries docs ∧
     (∀ i, (i < length docs)%nat → upload_succeeds (upload env i)) ∧
     match docs with
     | [] => file' = file ∧ saved es = []
     | _ :: _ =>
         let text := Json.dumps (apply_commits state (doc_entries docs)) in
         file' = Some text ∧ saved es = [text] ∧ last es = Some (ESave text)
     end).

Definition run_post (lower : str → str) (env : Env) (file file' : option str)
    (r : outcome unit) (es : list event) : Prop :=
  commits_follow_done es ∧
  (r ≠ Ret tt → file' = file ∧ saved es = []) ∧
  (r = Ret tt → ∃ state entries,
      ledger_of file = Some state ∧ data env = Some entries) ∧
  (ledger_of file = None ∨ data env = None →
     uploaded es = [] ∧ committed es = []) ∧
  (∀ text, file = Some text → Json.loads text = None →
     r = Raise JSONDecodeError ∨ stopped_early env r) ∧
  (∀ state entries, ledger_of file = Some state → data env = Some entries →
     loop_post lower env state entries file file' r es).

End Local.

(** ** [index_create_gcp_cloud.py] *)

Module Gcs.
Import Py Run.

Definition ALLOWED_EXT : list str := [py:".txt"; py:".pdf"; py:".docx"; py:".doc"].

(** A blob listed under [DOCS_PREFIX]. *)
Record blob := {
  b_name : str;
  b_md5_hash : option str
}.

(** What [blob.download_to_filename] does: it writes the file, or it raises,
    leaving a partial file behind or not. *)
Inductive download_response :=
| DownloadOk
| DownloadRaises (partial_file : bool).

(** What a run reads and is answered. *)
Record Env := {
  GOOGLE_API_KEY : option str;
  GEMINI_API_KEY : option str;
  bucket_exists : bool;
  blobs : list blob;                     (* [bucket.list_blobs(prefix=DOCS_PREFIX)] *)
  create_store : option str;             (* the created store's name; [None]: the call raises *)
  download : nat → download_response;    (* the answer to the k-th download of the run *)
  upload : nat → upload_response;        (* the answer to the k-th upload of the run *)
  remove : nat → bool                    (* the k-th [os.remove] of the run removes the file;
                                            [false]: it raises [OSError] and the file stays *)
}.

(** The two configuration blobs of the bucket, the files under /tmp, and
    the trace. *)
Record St := {
  store_name_blob : option str;
  index_state_blob : option str;
  tmp : gset str;
  trace : list event
}.

(** The state with the events [es] added to its trace. *)
Definition log (st : St) (es : list event) : St :=
  {| store_name_blob := store_name_blob st;
     index_state_blob := index_state_blob st;
     tmp := tmp st;
     trace := trace st ++ es |}.

Definition tell (es : list event) : M St unit := λ st, (log st es, Ret tt).

Definition make_genai_client (env : Env) : M St unit :=
  if truthy (or_else (GOOGLE_API_KEY env) (GEMINI_API_KEY env))
  then ret tt else raise MissingApiKey.

Definition get_bucket (env : Env) : M St unit :=
  if bucket_exists env then ret tt else raise BucketNotFound.

Definition load_store_name_from_gcs : M St str :=
  λ st, match store_name_blob st with
        | None => (st, Ret [])
        | Some content => (st, Ret (strip content))
        end.

Definition save_store_name_to_gcs (store_name : str) : M St unit :=
  λ st, ({| store_name_blob := Some store_name;
            index_state_blob := index_state_blob st;
            tmp := tmp st;
            trace := trace st ++ [EWriteStoreName store_name] |}, Ret tt).

Definition load_index_state_from_gcs : M St Json.value :=
  λ st, match index_state_blob st with
        | None => (st, Ret (Json.JObj []))
        | Some data =>
            match Json.loads data with
            | Some v => (st, Ret v)
            | None => (st, Raise JSONDecodeError)
            end
        end.

Definition save_index_state_to_gcs (state : gmap str str) : M St unit :=
  λ st, ({| store_name_blob := store_name_blob st;
            index_state_blob := Some (Json.dumps state);
            tmp := tmp st;
            trace := trace st ++ [ESave (Json.dumps state)] |}, Ret tt).

Definition file_search_stores_create (env : Env) (display_name : str) : M St str :=
  tell [ECreateStore display_name];;;
  match create_store env with
  | Some name => ret name
  | None => raise (ServiceError CreateStore)
  end.

Definition load_or_create_store (env : Env) : M St str :=
  existing_name <- load_store_name_from_gcs;;
  match existing_name with
  | _ :: _ => ret existing_name
  | [] =>
      store_name <- file_search_stores_create env py:"my_docs_store";;
      save_store_name_to_gcs store_name;;;
      ret store_name
  end.

(** The loaded value at the declared type of [load_index_state_from_gcs]. *)
Definition typed (v : Json.value) : M St (gmap str str) :=
  λ st, match Json.as_ledger v with
        | Some state => (st, Ret state)
        | None => (st, OutOfModel)
        end.

Definition classify (state : gmap str str) (blob_name : str) (md5 : option str)
    : label :=
  match state !! blob_name with
  | None => NEW
  | Some old_hash =>
      match md5 with
      | None => CHANGED
      | Some h => if decide (old_hash ≠ h) then CHANGED else UNCHANGED
      end
  end.

(** The detection loop: the lines it prints and [new_or_changed]. *)
Fixpoint detect (state : gmap str str) (candidates : list (str * option str))
    : list event * list (str * option str) :=
  match candidates with
  | [] => ([], [])
  | (blob_name, md5) :: rest =>
      let '(log, found) := detect state rest in
      match classify state blob_name md5 with
      | UNCHANGED => (EClassify blob_name UNCHANGED :: log, found)
      | l => (EClassify blob_name l :: log, (blob_name, md5) :: found)
      end
  end.

Definition tmp_path_of (blob_name : str) : str :=
  path_join py:"/tmp" (basename blob_name).

Definition download_to_filename (env : Env) (k : nat) (blob_name tmp_path : str)
    : M St unit :=
  λ st,
    let logged := trace st ++ [EDownload blob_name tmp_path] in
    match download env k with
    | DownloadOk =>
        ({| store_name_blob := store_name_blob st;
            index_state_blob := index_state_blob st;
            tmp := {[tmp_path]} ∪ tmp st;
            trace := logged |}, Ret tt)
    | DownloadRaises partial_file =>
        ({| store_name_blob := store_name_blob st;
            index_state_blob := index_state_blob st;
            tmp := if partial_file then {[tmp_path]} ∪ tmp st else tmp st;
            trace := logged |}, Raise (ServiceError Download))
    end.

(** [os.remove(tmp_path)] inside [try ... except OSError: pass]: the
    [OSError] of a removal that fails is passed over, and the file stays. *)
Definition remove_tmp (env : Env) (k : nat) (tmp_path : str) : M St unit :=
  λ st, ({| store_name_blob := store_name_blob st;
            index_state_blob := index_state_blob st;
            tmp := if remove env k then tmp st ∖ {[tmp_path]} else tmp st;
            trace := trace st ++ [ERemove tmp_path] |}, Ret tt).

(** The polling loop on the operation of document [doc]. *)
Fixpoint wait (doc : str) (op : operation) : M St unit :=
  match op with
  | OpDone => tell [EStatus doc true]
  | OpPending next =>
      tell [EStatus doc false; ESleep 2; EPoll doc];;;
      wait doc next
  | OpPollRaises =>
      tell [EStatus doc false; ESleep 2; EPoll doc];;;
      raise (ServiceError OperationsGet)
  | OpStuck => λ st, (st, Hang)
  end.

(** One round of the upload loop: the [k]-th document of the run. *)
Definition index_one (env : Env) (store_name : str) (k : nat)
    (doc : str * option str) (state : gmap str str) : M St (gmap str str) :=
  let '(blob_name, md5) := doc in
  let local_filename := basename blob_name in
  let tmp_path := tmp_path_of blob_name in
  download_to_filename env k blob_name tmp_path;;;
  tell [EUpload blob_name tmp_path store_name local_filename];;;
  match upload env k with
  | UploadRaises => raise (ServiceError Upload)
  | UploadReturns op =>
      wait blob_name op;;;
      state' <- match md5 with
                | Some h => tell [ECommit blob_name h];;; ret (<[blob_name := h]> state)
                | None => ret state
                end;;
      remove_tmp env k tmp_path;;;
      ret state'
  end.

Fixpoint upload_all (env : Env) (store_name : str) (k : nat)
    (docs : list (str * option str)) (state : gmap str str) : M St (gmap str str) :=
  match docs with
  | [] => ret state
  | doc :: rest =>
      state' <- index_one env store_name k doc state;;
      upload_all env store_name (S k) rest state'
  end.

(** [new_or_changed] after the detection loop. *)
Definition new_or_changed (state : gmap str str)
    (candidates : list (str * option str)) : list (str * option str) :=
  (detect state candidates).2.

(** The documents of [new_or_changed], and the entries their commits write:
    one for each document with a fingerprint. *)
Definition doc_names (docs : list (str * option str)) : list str := docs.*1.
Definition doc_entries (docs : list (str * option str)) : list (str * str) :=
  omap (λ d, match d.2 with Some h => Some (d.1, h) | None => None end) docs.

Section WithLower.

(** [str.lower], Python's Unicode lower-casing. *)
Variable lower : str → str.

Fixpoint list_candidate_blobs (listing : list blob) : list (str * option str) :=
  match listing with
  | [] => []
  | b :: rest =>
      let name := b_name b in
      if negb (existsb (endswith (lower name)) ALLOWED_EXT)
      then list_candidate_blobs rest
      else if negb (truthy (b_md5_hash b))
           then (name, None) :: list_candidate_blobs rest
           else (name, b_md5_hash b) :: list_candidate_blobs rest
  end.

Definition incremental_index (env : Env) : M St unit :=
  make_genai_client env;;;
  get_bucket env;;;
  store_name <- load_or_create_store env;;
  v <- load_index_state_from_gcs;;
  state <- typed v;;
  let candidates := list_candidate_blobs (blobs env) in
  let '(log, new_or_changed) := detect state candidates in
  tell log;;;
  match new_or_changed with
  | [] => ret tt
  | _ :: _ =>
      state' <- upload_all env store_name 0 new_or_changed state;;
      save_index_state_to_gcs state'
  end.

End WithLower.

Import Trace.

(** A run that ends before it reads the ledger: no API key, no bucket, or
    no store name in the bucket and a store creation that raises. *)
Definition stopped_early (env : Env) (r : outcome unit) : Prop :=
  (r = Raise MissingApiKey ∧
   truthy (or_else (GOOGLE_API_KEY env) (GEMINI_API_KEY env)) = false) ∨
  (r = Raise BucketNotFound ∧ bucket_exists env = false) ∨
  (r = Raise (ServiceError CreateStore) ∧ create_store env = None).

(** What the part of a run after the ledger is loaded guarantees, for the
    loaded ledger [state], the ledger blob and the temporary files before
    and after, the outcome and the events. *)
Definition loop_post (lower : str → str) (env : Env) (state : gmap str str)
    (file file' : option str) (tmp0 tmp' : gset str) (r : outcome unit)
    (es : list event) : Prop :=
  let docs := new_or_changed state (list_candidate_blobs lower (blobs env)) in
  uploaded es `prefix_of` doc_names docs ∧
  committed es `prefix_of` doc_entries docs ∧
  (∀ i, (i < length docs)%nat →
     (∀ j, (j < i)%nat →
        download env j = DownloadOk ∧ upload_succeeds (upload env j)) →
     (download env i = DownloadOk → upload_fails (upload env i)) →
     ∃ e, r = Raise e) ∧
  (docs = [] → r = Ret tt ∨ stopped_early env r) ∧
  (r = Ret tt →
     uploaded es = doc_names docs ∧ committed es = doc_entries docs ∧
     (∀ i, (i < length docs)%nat →
        download env i = DownloadOk ∧ upload_succeeds (upload env i)) ∧
     ((∀ i, (i < length docs)%nat → remove env i = true) →
      tmp' = tmp0 ∖ list_to_set (tmp_path_of <$> doc_names docs)) ∧
     match docs with
     | [] => file' = file ∧ saved es = []
     | _ :: _ =>
         let text := Json.dumps (apply_commits state (doc_entries docs)) in
         file' = Some text ∧ saved es = [text] ∧ last es = Some (ESave text)
     end).

Definition run_post (lower : str → str) (env : Env) (file file' : option str)
    (tmp0 tmp' : gset str) (r : outcome unit) (es : list event) : Prop :=
  commits_follow_done es ∧
  (r ≠ Ret tt → file' = file ∧ saved es = []) ∧
  (r = Ret tt → is_Some (ledger_of file)) ∧
  (ledger_of file = None → uploaded es = [] ∧ committed es = []) ∧
  (∀ text, file = Some text → Json.loads text = None →
     r = Raise JSONDecodeError ∨ stopped_early env r) ∧
  (∀ state, ledger_of file = Some state →
     loop_post lower env state file file' tmp0 tmp' r es).

End Gcs.

(** ** [app.py] and [app_remote.py]: the answer of [POST /ask] *)

Module App.
Import Py Run.

(** The parts of a [generate_content] response that [ask_question] reads;
    [None] is an attribute that is missing or [None]. *)
Record RetrievedContext := {
  title : option str;
  text : option str
}.
Record GroundingChunk := { retrieved_context : option RetrievedContext }.
Record GroundingMetadata := { grounding_chunks : option (list GroundingChunk) }.
Record Candidate := { grounding_metadata : option GroundingMetadata }.
Record Response := {
  response_text : option str;
  candidates : option (list Candidate)
}.

Record QueryResponse := {
  answer : str;
  citations : list str
}.

Definition UNKNOWN_SOURCE : str := py:"Unknown source".

(** [x or d] for an optional string [x] and a string [d]. *)
Definition str_or (x : option str) (d : str) : str :=
  if truthy x then default d x else d.

(** One citation of the inner loop, for a chunk with a retrieved context. *)
Definition citation (rc : RetrievedContext) : str :=
  let source_title := str_or (title rc) UNKNOWN_SOURCE in
  let snippet := str_or (text rc) [] in
  source_title ++ [58; 32; 34] ++ snippet ++ [34].

Fixpoint chunk_citations (chunks : list GroundingChunk) : list str :=
  match chunks with
  | [] => []
  | chunk :: rest =>
      match retrieved_context chunk with
      | None => chunk_citations rest
      | Some rc => citation rc :: chunk_citations rest
      end
  end.

Fixpoint collect_citations (cands : list Candidate) : list str :=
  match cands with
  | [] => []
  | candidate :: rest =>
      match grounding_metadata candidate with
      | None => collect_citations rest
      | Some gm =>
          chunk_citations (default [] (grounding_chunks gm)) ++ collect_citations rest
      end
  end.

(** [ask_question], given the store name loaded at start-up and how the
    call to [generate_content] ends.  [detail] is the message of the
    variant. *)
Definition ask_question (detail : str) (STORE_NAME : str)
    (generate_content : outcome Response) : outcome QueryResponse :=
  match STORE_NAME with
  | [] => Raise (HTTPException 500 detail)
  | _ :: _ =>
      match generate_content with
      | Ret response =>
          Ret {| answer := str_or (response_text response) [];
                 citations := collect_citations (default [] (candidates response)) |}
      | Raise e => Raise e
      | Hang => Hang
      | OutOfModel => OutOfModel
      end
  end.

Definition app_detail : str :=
  py:"File Search store not loaded. Ensure .store_name is created by the indexer.".
Definition app_remote_detail : str :=
  py:"File Search store not loaded. Ensure store_name.txt is created in GCS by the indexer.".

End App.


(** ** Sample corpora and services *)

Module Examples.
Import Py Run.

(** Services that answer every call, each upload being done at the second
    test of its operation. *)
Definition polled_once : nat → upload_response :=
  λ _, UploadReturns (OpPending OpDone).

(** Services whose first upload raises. *)
Definition first_upload_raises : nat → upload_response :=
  λ k, match k with
       | O => UploadRaises
       | S _ => UploadReturns OpDone
       end.

(** A bucket with [blobs] under the documents prefix. *)
Definition gcs_env (blobs : list Gcs.blob) (upload : nat → upload_response) : Gcs.Env :=
  {| Gcs.GOOGLE_API_KEY := Some py:"key";
     Gcs.GEMINI_API_KEY := None;
     Gcs.bucket_exists := true;
     Gcs.blobs := blobs;
     Gcs.create_store := Some py:"fileSearchStores/s1";
     Gcs.download := λ _, Gcs.DownloadOk;
     Gcs.upload := upload;
     Gcs.remove := λ _, true |}.

(** A bucket with the store name on record and [ledger] as its ledger blob. *)
Definition gcs_st (ledger : option str) : Gcs.St :=
  {| Gcs.store_name_blob := Some py:"fileSearchStores/s1";
     Gcs.index_state_blob := ledger;
     Gcs.tmp := ∅;
     Gcs.trace := [] |}.

(** A working directory whose ./data holds [entries]. *)
Definition local_env (entries : list Local.dirent) (upload : nat → upload_response)
    : Local.Env :=
  {| Local.GOOGLE_API_KEY := None;
     Local.GEMINI_API_KEY := Some py:"key";
     Local.cwd := py:"/srv/rag";
     Local.data := Some entries;
     Local.create_store := Some py:"fileSearchStores/s1";
     Local.upload := upload |}.

Definition local_st (ledger : option str) : Local.St :=
  {| Local.store_name_file := Some py:"fileSearchStores/s1";
     Local.index_state_file := ledger;
     Local.trace := [] |}.

Definition file (name h : string) : Local.dirent :=
  {| Local.d_name := py:name; Local.d_isfile := true; Local.d_sha256 := py:h |}.

Definition blob (name : string) (md5 : option string) : Gcs.blob :=
  {| Gcs.b_name := py:name; Gcs.b_md5_hash := of_string <$> md5 |}.

(** The ledger [{"a.txt": "h1"}] and the corpus of [a.txt] (unchanged) and
    [b.txt] (new). *)
Definition ledger_a : gmap str str := {[ py:"a.txt" := py:"h1" ]}.
Definition files_ab : list Local.dirent := [file "a.txt" "h1"; file "b.txt" "h2"].
Definition blobs_ab : list Gcs.blob := [blob "a.txt" (Some "h1"); blob "b.txt" (Some "h2")].

(** A bucket whose only document has no MD5 hash. *)
Definition blobs_c : list Gcs.blob := [blob "c.pdf" None].
Definition ledger_c : gmap str str := {[ py:"c.pdf" := py:"h1" ]}.

(** The run of [index_create_local.py] over [files_ab], from the ledger file
    [ledger]. *)
Definition local_run (upload : nat → upload_response) (ledger : option str)
    : Local.St * outcome unit :=
  Local.incremental_index ascii_lower (local_env files_ab upload)
    py:"my_docs_store" (local_st ledger).

(** The run of [index_create_gcp_cloud.py] over [blobs], from the ledger
    blob [ledger]. *)
Definition gcs_run (blobs : list Gcs.blob) (upload : nat → upload_response)
    (ledger : option str) : Gcs.St * outcome unit :=
  Gcs.incremental_index ascii_lower (gcs_env blobs upload) (gcs_st ledger).

(** A ledger file that is no JSON text. *)
Definition torn_ledger : str := py:"{'a.txt': ".

(** A response with one candidate without grounding metadata and one with
    three chunks: a titled context, no context, and a context with neither
    title nor text. *)
Definition guide_context : App.RetrievedContext :=
  {| App.title := Some py:"guide.pdf"; App.text := Some py:"see page 2" |}.
Definition bare_context : App.RetrievedContext :=
  {| App.title := None; App.text := None |}.
Definition grounded_response : App.Response :=
  {| App.response_text := Some py:"42";
     App.candidates := Some
       [ {| App.grounding_metadata := None |};
         {| App.grounding_metadata := Some {| App.grounding_chunks := Some
              [ {| App.retrieved_context := Some guide_context |};
                {| App.retrieved_context := None |};
                {| App.retrieved_context := Some bare_context |} ] |} |} ] |}.

End Examples.

(** ** The environment variables and the names derived from them *)

Module Environ.
Import Py.

(** [os.getenv(key, default)] over [os.environ]. *)
Definition getenv (environ : gmap str str) (key dflt : str) : str :=
  match environ !! key with
  | Some v => v
  | None => dflt
  end.

End Environ.

(** The configuration of [index_create_gcp_cloud.py]. *)
Module GcsConfig.
Import Py Environ.

Definition GCS_BUCKET (environ : gmap str str) : str :=
  getenv environ py:"DOCS_BUCKET" py:"adk-test-kd".
Definition DOCS_PREFIX (environ : gmap str str) : str :=
  getenv environ py:"DOCS_PREFIX" py:"PdfDocuments/".
Definition CONFIG_PREFIX (environ : gmap str str) : str :=
  getenv environ py:"CONFIG_PREFIX" py:"config/".

Definition STORE_NAME_BLOB (environ : gmap str str) : str :=
  CONFIG_PREFIX environ ++ py:"store_name.txt".
Definition INDEX_STATE_BLOB (environ : gmap str str) : str :=
  CONFIG_PREFIX environ ++ py:"indexed_files.json".

End GcsConfig.

(** ** The script of [index_create_local.py] *)

Module LocalMain.
Import Py Run Environ.

(** The [__main__] block: the display name comes from the environment. *)
Definition main (lower : str → str) (env : Local.Env) (environ : gmap str str)
    : M Local.St unit :=
  let display_name := getenv environ py:"FILE_SEARCH_DISPLAY_NAME" py:"my_docs_store" in
  Local.incremental_index lower env display_name.

End LocalMain.

(** ** [file_hash] of [index_create_local.py] *)

Module FileHash.
Import Py.

Section Hashlib.

(** A [hashlib] hash object: its initial state, [update] and [hexdigest]. *)
Variable H : Type.
Variable sha256 : H.
Variable update : H → list Byte.byte → H.
Variable hexdigest : H → str.

Definition CHUNK : nat := N.to_nat 8192.

(** [f.read(8192)] on the rest of the file: the chunk and what is left. *)
Definition read (rest : list Byte.byte) : list Byte.byte * list Byte.byte :=
  (take CHUNK rest, drop CHUNK rest).

(** The loop of [file_hash]: [h.update(chunk)] for each chunk that
    [f.read(8192)] returns, until it returns the empty bytes object; [fuel]
    bounds the number of reads. *)
Fixpoint read_loop (fuel : nat) (h : H) (rest : list Byte.byte) : option H :=
  match fuel with
  | O => None
  | S fuel' =>
      match read rest with
      | ([], _) => Some h
      | (chunk, rest') => read_loop fuel' (update h chunk) rest'
      end
  end.

Definition file_hash (content : list Byte.byte) : option str :=
  hexdigest <$> read_loop (S (length content)) sha256 content.

End Hashlib.

End FileHash.

(** ** Start-up and [/status] of [app.py] *)

Module Server.
Import Py Run App.

(** How the module-level code ends: the module is loaded, or a
    [RuntimeError] stops the server from starting. *)
Inductive started (A : Type) :=
| Started (a : A)
| RuntimeError (message : str).
Arguments Started {A} a.
Arguments RuntimeError {A} message.

Definition STORE_NAME_FILE : str := py:".store_name".

Definition load_store_name (store_name_file : option str) : started str :=
  match store_name_file with
  | None =>
      RuntimeError (STORE_NAME_FILE ++ py:" not found. " ++
                    py:"Run the indexing script first to create a File Search store.")
  | Some content =>
      let name := strip content in
      if negb (truthy (Some name))
      then RuntimeError
             (STORE_NAME_FILE ++ py:" is empty. " ++
              py:"Ensure the indexing script wrote the store resource name correctly.")
      else Started name
  end.

(** The globals that the handlers read. *)
Record Globals := {
  API_KEY : option str;
  STORE_NAME : str
}.

(** The module-level code, from the top to [STORE_NAME = load_store_name()]. *)
Definition load_module (environ : gmap str str) (store_name_file : option str)
    : started Globals :=
  let api_key := or_else (environ !! py:"GOOGLE_API_KEY") (environ !! py:"GEMINI_API_KEY") in
  if negb (truthy api_key)
  then RuntimeError
         py:"Set GOOGLE_API_KEY or GEMINI_API_KEY in your environment or .env file."
  else match load_store_name store_name_file with
       | Started name => Started {| API_KEY := api_key; STORE_NAME := name |}
       | RuntimeError message => RuntimeError message
       end.

(** The body of the answer of [GET /status]. *)
Record Status := {
  store_name : str;
  ready : bool
}.

Definition status (g : Globals) : Status :=
  {| store_name := STORE_NAME g; ready := truthy (Some (STORE_NAME g)) |}.

(** [POST /ask] of the loaded module. *)
Definition ask (g : Globals) (generate_content : outcome Response)
    : outcome QueryResponse :=
  ask_question app_detail (STORE_NAME g) generate_content.

End Server.

(** ** Start-up and [/status] of [app_remote.py] *)

Module Remote.
Import Py Run App Environ.
Import Server (started, Started, RuntimeError).

Definition GCS_BUCKET (environ : gmap str str) : str :=
  getenv environ py:"DOCS_BUCKET" py:"adk-test-kd".
Definition CONFIG_PREFIX (environ : gmap str str) : str :=
  getenv environ py:"CONFIG_PREFIX" py:"config/".
Definition STORE_NAME_BLOB (environ : gmap str str) : str :=
  getenv environ py:"STORE_NAME_BLOB" (CONFIG_PREFIX environ ++ py:"store_name.txt").

(** Cloud Storage: the buckets that exist, each with the text of its objects. *)
Abbreviation Storage := (gmap str (gmap str str)).

Definition load_store_name_from_gcs (environ : gmap str str) (storage : Storage)
    : started str :=
  match storage !! GCS_BUCKET environ with
  | None =>
      RuntimeError (py:"GCS bucket '" ++ GCS_BUCKET environ ++
                    py:"' does not exist or is not accessible.")
  | Some bucket =>
      match bucket !! STORE_NAME_BLOB environ with
      | None =>
          RuntimeError
            (py:"GCS object '" ++ STORE_NAME_BLOB environ ++
             py:"' not found in bucket '" ++ GCS_BUCKET environ ++ py:"'. " ++
             py:"Run your GCS indexer first so it writes the File Search store name.")
      | Some content =>
          let store_name := strip content in
          if negb (truthy (Some store_name))
          then RuntimeError
                 (py:"GCS object '" ++ STORE_NAME_BLOB environ ++ py:"' is empty. " ++
                  py:"Ensure the indexer wrote the store resource name correctly.")
          else Started store_name
      end
  end.

Record Globals := {
  API_KEY : option str;
  STORE_NAME : str
}.

Definition load_module (environ : gmap str str) (storage : Storage) : started Globals :=
  let api_key := or_else (environ !! py:"GOOGLE_API_KEY") (environ !! py:"GEMINI_API_KEY") in
  if negb (truthy api_key)
  then RuntimeError
         py:"Set GOOGLE_API_KEY or GEMINI_API_KEY in your environment or .env file."
  else match load_store_name_from_gcs environ storage with
       | Started name => Started {| API_KEY := api_key; STORE_NAME := name |}
       | RuntimeError message => RuntimeError message
       end.

Record Status := {
  store_name : str;
  ready : bool;
  bucket : str;
  store_name_blob : str
}.

Definition status (environ : gmap str str) (g : Globals) : Status :=
  {| store_name := STORE_NAME g;
     ready := truthy (Some (STORE_NAME g));
     bucket := GCS_BUCKET environ;
     store_name_blob := STORE_NAME_BLOB environ |}.

Definition ask (g : Globals) (generate_content : outcome Response)
    : outcome QueryResponse :=
  ask_question app_remote_detail (STORE_NAME g) generate_content.

End Remote.

(** ** Counts read off a trace *)

Module Tally.
Import Py Run.

(** The seconds slept, the polls made and the tests of [done]. *)
Definition sleep_of (e : event) : N :=
  match e with
  | ESleep seconds => seconds
  | _ => 0
  end.
Definition slept (es : list event) : N := foldr (λ e n, sleep_of e + n) 0 es.

Definition is_poll (e : event) : bool :=
  match e with
  | EPoll _ => true
  | _ => false
  end.
Definition polled (es : list event) : nat := length (filter (λ e, is_poll e = true) es).

(** Every sleep lasts two seconds and directly follows a test that saw an
    operation not done; every poll directly follows such a sleep, and is a
    poll of the operation tested; so the time slept is two seconds for each
    poll. *)
Definition disciplined (es : list event) : Prop :=
  (∀ i s, es !! i = Some (ESleep s) →
     s = 2 ∧ ∃ j doc, i = S j ∧ es !! j = Some (EStatus doc false)) ∧
  (∀ i doc, es !! i = Some (EPoll doc) →
     ∃ j, i = S (S j) ∧ es !! (S j) = Some (ESleep 2) ∧
          es !! j = Some (EStatus doc false)) ∧
  slept es = 2 * N.of_nat (polled es).

End Tally.

(** ** The state of the bucket indexer after some events *)

Module Stage.
Import Py Run.

(** The state [st] with [files] under [/tmp] and the events [es] added to
    its trace. *)
Definition staged (st : Gcs.St) (files : gset str) (es : list event) : Gcs.St :=
  {| Gcs.store_name_blob := Gcs.store_name_blob st;
     Gcs.index_state_blob := Gcs.index_state_blob st;
     Gcs.tmp := files;
     Gcs.trace := Gcs.trace st ++ es |}.

(** The commit of a round of the bucket indexer: none without fingerprint. *)
Definition commit_events (blob_name : str) (md5 : option str) : list event :=
  match md5 with
  | Some h => [ECommit blob_name h]
  | None => []
  end.

(** The event before position [i] of a trace. *)
Definition before (es : list event) (i : nat) : option event :=
  match i with
  | O => None
  | S j => es !! j
  end.

End Stage.

(** ** More sample environments *)

Module Samples.
Import Py Run.

(** No API key: [GOOGLE_API_KEY] is set but empty, [GEMINI_API_KEY] is not set. *)
Definition keyless_local : Local.Env :=
  {| Local.GOOGLE_API_KEY := Some [];
     Local.GEMINI_API_KEY := None;
     Local.cwd := py:"/srv/rag";
     Local.data := Some Examples.files_ab;
     Local.create_store := Some py:"fileSearchStores/s1";
     Local.upload := Examples.polled_once |}.

Definition keyless_gcs : Gcs.Env :=
  {| Gcs.GOOGLE_API_KEY := Some [];
     Gcs.GEMINI_API_KEY := None;
     Gcs.bucket_exists := true;
     Gcs.blobs := Examples.blobs_ab;
     Gcs.create_store := Some py:"fileSearchStores/s1";
     Gcs.download := λ _, Gcs.DownloadOk;
     Gcs.upload := Examples.polled_once;
     Gcs.remove := λ _, true |}.

(** An API key, but no bucket. *)
Definition no_bucket : Gcs.Env :=
  {| Gcs.GOOGLE_API_KEY := None;
     Gcs.GEMINI_API_KEY := Some py:"key";
     Gcs.bucket_exists := false;
     Gcs.blobs := [];
     Gcs.create_store := Some py:"fileSearchStores/s1";
     Gcs.download := λ _, Gcs.DownloadOk;
     Gcs.upload := Examples.polled_once;
     Gcs.remove := λ _, true |}.

(** The store creation raises. *)
Definition no_store_local : Local.Env :=
  {| Local.GOOGLE_API_KEY := Some py:"key";
     Local.GEMINI_API_KEY := None;
     Local.cwd := py:"/srv/rag";
     Local.data := Some Examples.files_ab;
     Local.create_store := None;
     Local.upload := Examples.polled_once |}.

Definition no_store_gcs : Gcs.Env :=
  {| Gcs.GOOGLE_API_KEY := Some py:"key";
     Gcs.GEMINI_API_KEY := None;
     Gcs.bucket_exists := true;
     Gcs.blobs := Examples.blobs_ab;
     Gcs.create_store := None;
     Gcs.download := λ _, Gcs.DownloadOk;
     Gcs.upload := Examples.polled_once;
     Gcs.remove := λ _, true |}.

(** A working directory without [./data]. *)
Definition no_data : Local.Env :=
  {| Local.GOOGLE_API_KEY := Some py:"key";
     Local.GEMINI_API_KEY := None;
     Local.cwd := py:"/srv/rag";
     Local.data := None;
     Local.create_store := Some py:"fileSearchStores/s1";
     Local.upload := Examples.polled_once |}.

(** Services whose second upload raises. *)
Definition second_upload_raises : nat → upload_response :=
  λ k, match k with
       | 1%nat => UploadRaises
       | _ => UploadReturns (OpPending OpDone)
       end.

(** Services whose second download raises, leaving a partial file. *)
Definition second_download_raises : nat → Gcs.download_response :=
  λ k, match k with
       | 1%nat => Gcs.DownloadRaises true
       | _ => Gcs.DownloadOk
       end.

(** A bucket of [a.txt] and [b.txt] whose second download raises. *)
Definition torn_download : Gcs.Env :=
  {| Gcs.GOOGLE_API_KEY := Some py:"key";
     Gcs.GEMINI_API_KEY := None;
     Gcs.bucket_exists := true;
     Gcs.blobs := Examples.blobs_ab;
     Gcs.create_store := Some py:"fileSearchStores/s1";
     Gcs.download := second_download_raises;
     Gcs.upload := Examples.polled_once;
     Gcs.remove := λ _, true |}.

(** A first run: neither the store name nor the ledger is there. *)
Definition fresh_local : Local.St :=
  {| Local.store_name_file := None;
     Local.index_state_file := None;
     Local.trace := [] |}.

Definition fresh_gcs : Gcs.St :=
  {| Gcs.store_name_blob := None;
     Gcs.index_state_blob := None;
     Gcs.tmp := ∅;
     Gcs.trace := [] |}.

(** An environment with an API key and the default names, and the storage
    after the bucket indexer has written the store name. *)
Definition environ : gmap str str := {[ py:"GEMINI_API_KEY" := py:"key" ]}.
Definition storage : gmap str (gmap str str) :=
  {[ py:"adk-test-kd" :=
       {[ py:"config/store_name.txt" := py:"fileSearchStores/s1" ]} ]}.

(** The listing of a bucket under the empty documents prefix: a document
    and the two blobs that the indexer keeps under [config/]. *)
Definition whole_bucket : list Gcs.blob :=
  [ Examples.blob "PdfDocuments/a.pdf" (Some "h1");
    Examples.blob "config/indexed_files.json" (Some "h2");
    Examples.blob "config/store_name.txt" (Some "h3") ].

(** A directory without [./data], and a service that names the store it
    creates with a carriage return: [s], carriage return, [1]. *)
Definition cr_store : Local.Env :=
  {| Local.GOOGLE_API_KEY := Some py:"key";
     Local.GEMINI_API_KEY := None;
     Local.cwd := py:"/srv/rag";
     Local.data := None;
     Local.create_store := Some [115; 13; 49];
     Local.upload := Examples.polled_once |}.

(** The bucket of [c.pdf], on a machine where no file under [/tmp] can be
    removed. *)
Definition removal_fails : Gcs.Env :=
  {| Gcs.GOOGLE_API_KEY := Some py:"key";
     Gcs.GEMINI_API_KEY := None;
     Gcs.bucket_exists := true;
     Gcs.blobs := Examples.blobs_c;
     Gcs.create_store := Some py:"fileSearchStores/s1";
     Gcs.download := λ _, Gcs.DownloadOk;
     Gcs.upload := Examples.polled_once;
     Gcs.remove := λ _, false |}.

(** The bucket of [a.txt] and [b.txt] with a blob that is no document
    and has no MD5 hash. *)
Definition blobs_ab_notes : list Gcs.blob :=
  Examples.blobs_ab ++ [Examples.blob "notes.md" None].

End Samples.

(** * Theorems *)


(** ** Facts about traces *)

Section TraceFacts.
Import Py Run Trace.

Lemma uploaded_app a b : uploaded (a ++ b) = uploaded a ++ uploaded b.
Proof. apply omap_app. Qed.

Lemma committed_app a b : committed (a ++ b) = committed a ++ committed b.
Proof. apply omap_app. Qed.

Lemma saved_app a b : saved (a ++ b) = saved a ++ saved b.
Proof. apply omap_app. Qed.

Lemma created_app a b : created (a ++ b) = created a ++ created b.
Proof. apply omap_app. Qed.

Lemma wait_events_quiet doc op :
  uploaded (wait_events doc op) = [] ∧ committed (wait_events doc op) = [] ∧
  saved (wait_events doc op) = [] ∧ created (wait_events doc op) = [].
Proof. induction op; simpl; auto. Qed.

Lemma wait_events_done doc op :
  settles op = Ret tt → last (wait_events doc op) = Some (EStatus doc true).
Proof.
  induction op as [|next IH| |]; simpl; intros Hs; try discriminate; auto.
  specialize (IH Hs). destruct (wait_events doc next); [discriminate|exact IH].
Qed.

Lemma settles_raise op e : settles op = Raise e → e = ServiceError OperationsGet.
Proof. induction op; simpl; intros H; try discriminate; auto. by injection H. Qed.

Lemma settles_in_model op : settles op ≠ OutOfModel.
Proof. induction op; simpl; auto; discriminate. Qed.

Lemma commits_follow_done_nil : commits_follow_done [].
Proof. intros i doc fp H. rewrite lookup_nil in H. discriminate. Qed.

Lemma commits_follow_done_quiet es :
  committed es = [] → commits_follow_done es.
Proof.
  intros Hq i doc fp Hi. exfalso.
  apply list_elem_of_lookup_2 in Hi.
  assert (Hin : (doc, fp) ∈ committed es).
  { unfold committed. apply list_elem_of_omap. exists (ECommit doc fp). auto. }
  rewrite Hq in Hin. by apply not_elem_of_nil in Hin.
Qed.

(** Two traces compose when the second does not start with a commit. *)
Lemma commits_follow_done_app a b :
  commits_follow_done a → commits_follow_done b →
  (∀ doc fp, head b ≠ Some (ECommit doc fp)) →
  commits_follow_done (a ++ b).
Proof.
  intros Ha Hb Hhd i doc fp Hi.
  destruct (decide (i < length a)%nat) as [Hlt|Hge].
  - rewrite lookup_app_l in Hi by done.
    destruct (Ha _ _ _ Hi) as (j & -> & Hj). exists j. split; [done|].
    rewrite lookup_app_l; [done|lia].
  - rewrite lookup_app_r in Hi by lia.
    destruct (Hb _ _ _ Hi) as (j & Hij & Hj).
    exists (length a + j)%nat. split; [lia|].
    rewrite lookup_app_r by lia. by replace (length a + j - length a)%nat with j by lia.
Qed.

(** A commit may close a trace that ends with the test that saw its
    operation done. *)
Lemma commits_follow_done_snoc es doc fp :
  commits_follow_done es → last es = Some (EStatus doc true) →
  commits_follow_done (es ++ [ECommit doc fp]).
Proof.
  intros Hes Hlast i doc' fp' Hi.
  destruct (decide (i < length es)%nat) as [Hlt|Hge].
  - rewrite lookup_app_l in Hi by done.
    destruct (Hes _ _ _ Hi) as (j & -> & Hj). exists j. split; [done|].
    rewrite lookup_app_l; [done|lia].
  - rewrite lookup_app_r in Hi by lia.
    destruct (i - length es)%nat as [|n] eqn:Hn; simpl in Hi; [|by rewrite lookup_nil in Hi].
    injection Hi as <- <-.
    rewrite last_lookup in Hlast.
    pose proof (lookup_lt_Some _ _ _ Hlast) as Hlen.
    exists (pred (length es)). split; [lia|].
    rewrite lookup_app_l by lia. exact Hlast.
Qed.

Lemma apply_commits_app state a b :
  apply_commits (apply_commits state a) b = apply_commits state (a ++ b).
Proof. unfold apply_commits. by rewrite foldl_app. Qed.

(** Committing never removes an entry, and leaves alone the entries of the
    documents it does not name. *)
Lemma apply_commits_other state cs id :
  id ∉ cs.*1 → apply_commits state cs !! id = state !! id.
Proof.
  revert state. induction cs as [|[d fp] cs IH]; intros state Hid; [done|].
  simpl in *. apply not_elem_of_cons in Hid as [Hne Hid].
  unfold apply_commits in *. simpl. rewrite IH by done.
  by rewrite lookup_insert_ne.
Qed.

Lemma apply_commits_dom state cs id :
  is_Some (state !! id) → is_Some (apply_commits state cs !! id).
Proof.
  revert state. induction cs as [|[d fp] cs IH]; intros state Hid; [done|].
  unfold apply_commits in *. simpl. apply IH.
  destruct (decide (d = id)) as [->|Hne].
  - rewrite lookup_insert_eq. eauto.
  - by rewrite lookup_insert_ne.
Qed.

(** With distinct documents, a committed document has the fingerprint committed. *)
Lemma apply_commits_lookup state cs id fp :
  NoDup cs.*1 → (id, fp) ∈ cs → apply_commits state cs !! id = Some fp.
Proof.
  revert state. induction cs as [|[d h] cs IH]; intros state Hnd Hin.
  - by apply not_elem_of_nil in Hin.
  - simpl in Hnd. apply NoDup_cons in Hnd as [Hd Hnd].
    unfold apply_commits in *. simpl.
    apply elem_of_cons in Hin as [Heq|Hin].
    + injection Heq as <- <-.
      change (apply_commits (<[id:=fp]> state) cs !! id = Some fp).
      rewrite apply_commits_other by done. apply lookup_insert_eq.
    + by apply IH.
Qed.

End TraceFacts.

(** ** Facts about the local indexer *)

Section LocalFacts.
Import Py Run Trace Local.

Lemma local_log_nil st : log st [] = st.
Proof. destruct st. unfold log. simpl. by rewrite app_nil_r. Qed.

Lemma local_log_log st a b : log (log st a) b = log st (a ++ b).
Proof. unfold log. simpl. by rewrite app_assoc. Qed.

Lemma local_wait_eq doc op st :
  wait doc op st = (log st (wait_events doc op), settles op).
Proof.
  revert st. induction op as [|next IH| |]; intros st; simpl.
  - done.
  - unfold bind, tell. rewrite IH, local_log_log. done.
  - unfold bind, tell, raise. done.
  - by rewrite local_log_nil.
Qed.

(** One round of the upload loop, by the answer to its upload. *)
Lemma local_index_one_eq env store k fname path h state st :
  index_one env store k (fname, path, h) state st =
  match upload env k with
  | UploadRaises =>
      (log st [EUpload fname path store fname], Raise (ServiceError Upload))
  | UploadReturns op =>
      match settles op with
      | Ret _ =>
          (log st (EUpload fname path store fname :: wait_events fname op ++
                   [ECommit fname h]), Ret (<[fname := h]> state))
      | Raise e => (log st (EUpload fname path store fname :: wait_events fname op), Raise e)
      | Hang => (log st (EUpload fname path store fname :: wait_events fname op), Hang)
      | OutOfModel =>
          (log st (EUpload fname path store fname :: wait_events fname op), OutOfModel)
      end
  end.
Proof.
  unfold index_one, bind, tell, raise, ret.
  destruct (upload env k) as [|op]; [done|].
  rewrite local_wait_eq. rewrite !local_log_log.
  destruct (settles op); simpl; rewrite ?local_log_log; done.
Qed.

Lemma local_upload_all_cons env store k doc rest state st :
  upload_all env store k (doc :: rest) state st =
  match index_one env store k doc state st with
  | (st1, Ret state') => upload_all env store (S k) rest state' st1
  | (st1, Raise e) => (st1, Raise e)
  | (st1, Hang) => (st1, Hang)
  | (st1, OutOfModel) => (st1, OutOfModel)
  end.
Proof. reflexivity. Qed.


Lemma local_upload_all_spec env store docs : ∀ k state st st' r,
  upload_all env store k docs state st = (st', r) →
  ∃ es, st' = log st es ∧
    commits_follow_done es ∧
    (∀ doc fp, head es ≠ Some (ECommit doc fp)) ∧
    saved es = [] ∧ created es = [] ∧
    uploaded es `prefix_of` doc_names docs ∧
    committed es `prefix_of` doc_entries docs ∧
    match r with
    | Ret state' =>
        uploaded es = doc_names docs ∧ committed es = doc_entries docs ∧
        state' = apply_commits state (doc_entries docs) ∧
        ∀ i, (i < length docs)%nat → upload_succeeds (upload env (k + i)%nat)
    | Raise e => e = ServiceError Upload ∨ e = ServiceError OperationsGet
    | Hang => True
    | OutOfModel => False
    end.
Proof.
  induction docs as [|[[fname path] h] docs IH]; intros k state st st' r Hrun.
  - injection Hrun as <- <-. exists []. rewrite local_log_nil.
    repeat split; auto using commits_follow_done_nil; try done.
    intros i Hi. simpl in Hi. lia.
  - rewrite local_upload_all_cons, local_index_one_eq in Hrun.
    pose proof (wait_events_quiet fname) as Hq.
    destruct (upload env k) as [|op] eqn:Hup.
    { injection Hrun as <- <-. eexists. split; [done|].
      repeat split; auto using commits_follow_done_quiet; try done.
      - apply prefix_cons, prefix_nil.
      - apply prefix_nil. }
    destruct (Hq op) as (Hq1 & Hq2 & Hq3 & Hq4).
    destruct (settles op) as [[]|e| |] eqn:Hs; try discriminate.
    + destruct (IH _ _ _ _ _ Hrun) as (es & -> & Hcfd & Hhd & Hsv & Hcr & Hup' & Hcm & Hr).
      rewrite local_log_log.
      eexists. split; [done|].
      assert (Hblock : commits_follow_done
                (EUpload fname path store fname :: wait_events fname op ++ [ECommit fname h])).
      { change (commits_follow_done
          ((EUpload fname path store fname :: wait_events fname op) ++ [ECommit fname h])).
        apply commits_follow_done_snoc.
        - apply commits_follow_done_quiet. simpl. done.
        - rewrite last_cons, (wait_events_done _ _ Hs). done. }
      split; [by apply commits_follow_done_app|].
      split; [done|].
      split; [simpl; rewrite saved_app, saved_app, Hq3, Hsv; done|].
      split; [simpl; rewrite created_app, created_app, Hq4, Hcr; done|].
      split; [simpl; rewrite uploaded_app, uploaded_app, Hq1; simpl;
              by apply prefix_cons|].
      split; [simpl; rewrite committed_app, committed_app, Hq2; simpl;
              by apply prefix_cons|].
      destruct r as [state'|e| |]; try done.
      destruct Hr as (Hr1 & Hr2 & Hr3 & Hr4).
      split; [simpl; rewrite uploaded_app, uploaded_app, Hq1; simpl;
              unfold doc_names in *; simpl; by f_equal|].
      split; [simpl; rewrite committed_app, committed_app, Hq2; simpl;
              unfold doc_entries in *; simpl; by f_equal|].
      split; [done|].
      intros [|i] Hi.
      * rewrite Nat.add_0_r, Hup. exists op. done.
      * replace (k + S i)%nat with (S k + i)%nat by lia. apply Hr4. simpl in Hi. lia.
    + injection Hrun as <- <-. eexists. split; [done|].
      split; [apply commits_follow_done_quiet; simpl; by rewrite Hq2|].
      repeat split; simpl; rewrite ?Hq1, ?Hq2, ?Hq3, ?Hq4; try done.
      * apply prefix_cons, prefix_nil.
      * apply prefix_nil.
      * right. by apply settles_raise in Hs.
    + injection Hrun as <- <-. eexists. split; [done|].
      split; [apply commits_follow_done_quiet; simpl; by rewrite Hq2|].
      repeat split; simpl; rewrite ?Hq1, ?Hq2, ?Hq3, ?Hq4; try done.
      * apply prefix_cons, prefix_nil.
      * apply prefix_nil.
    + by apply settles_in_model in Hs.
Qed.

(** The first answer that fails, after answers that all succeed, ends the
    loop with its exception. *)
Lemma local_upload_all_fails env store docs : ∀ k state st i,
  (i < length docs)%nat →
  (∀ j, (j < i)%nat → upload_succeeds (upload env (k + j)%nat)) →
  upload_fails (upload env (k + i)%nat) →
  ∃ e, (upload_all env store k docs state st).2 = Raise e.
Proof.
  induction docs as [|[[fname path] h] docs IH]; intros k state st i Hi Hbefore Hfail.
  - simpl in Hi. lia.
  - rewrite local_upload_all_cons, local_index_one_eq.
    destruct i as [|i].
    + rewrite Nat.add_0_r in Hfail.
      destruct Hfail as [->|(op & -> & ->)]; simpl; eauto.
    + destruct (Hbefore 0%nat ltac:(lia)) as (op & Hup & Hs).
      rewrite Nat.add_0_r in Hup. rewrite Hup, Hs.
      apply (IH (S k) _ _ i).
      * simpl in Hi. lia.
      * intros j Hj. replace (S k + j)%nat with (k + S j)%nat by lia.
        apply Hbefore. lia.
      * by replace (S k + i)%nat with (k + S i)%nat by lia.
Qed.

Lemma local_store_eq env dn st :
  load_or_create_store env dn st =
  match strip <$> store_name_file st with
  | Some (c :: name) => (st, Ret (c :: name))
  | _ =>
      match create_store env with
      | Some name =>
          ({| store_name_file := Some (universal_newlines name);
              index_state_file := index_state_file st;
              trace := trace st ++ [ECreateStore dn; EWriteStoreName name] |}, Ret name)
      | None => (log st [ECreateStore dn], Raise (ServiceError CreateStore))
      end
  end.
Proof.
  unfold load_or_create_store, file_search_stores_create, write_store_name,
    bind, tell, ret, raise.
  destruct (store_name_file st) as [content|]; simpl.
  - destruct (strip content); [|done]. destruct (create_store env); simpl; [|done].
    by rewrite <- app_assoc.
  - destruct (create_store env); simpl; [|done]. by rewrite <- app_assoc.
Qed.

Lemma local_detect_eq lower state dd entries :
  detect lower state dd entries =
  ((λ d, EClassify d.1.1 (classify state d.1.1 d.2)) <$> enumerated lower dd entries,
   filter (λ d, classify state d.1.1 d.2 ≠ UNCHANGED) (enumerated lower dd entries)).
Proof.
  unfold enumerated.
  induction entries as [|e entries IH]; [done|].
  simpl. rewrite IH. clear IH.
  rewrite filter_cons.
  destruct (allowed lower (d_name e)); simpl; [|done].
  destruct (d_isfile e); simpl; [|done].
  rewrite filter_cons. simpl.
  destruct (classify state (d_name e) (d_sha256 e)) eqn:Hc;
    case_decide; done.
Qed.

Lemma classify_log_quiet {A} (f : A → str) (g : A → label) (l : list A) :
  uploaded ((λ d, EClassify (f d) (g d)) <$> l) = [] ∧
  committed ((λ d, EClassify (f d) (g d)) <$> l) = [] ∧
  saved ((λ d, EClassify (f d) (g d)) <$> l) = [] ∧
  created ((λ d, EClassify (f d) (g d)) <$> l) = [].
Proof. induction l; simpl; auto. Qed.

Lemma local_new_or_changed_eq lower state dd entries :
  new_or_changed lower state dd entries =
  filter (λ d, classify state d.1.1 d.2 ≠ UNCHANGED) (enumerated lower dd entries).
Proof. unfold new_or_changed. by rewrite local_detect_eq. Qed.

(** What a run does once the ledger is loaded, from any state. *)
Lemma local_core_spec lower env store state st1 st' r :
  match data env with
  | None => raise DataDirNotFound
  | Some entries =>
      let '(log, new_or_changed) :=
        detect lower state (path_join (cwd env) DATA_DIR) entries in
      tell log;;;
      match new_or_changed with
      | [] => ret tt
      | _ :: _ =>
          state' <- upload_all env store 0 new_or_changed state;;
          save_index_state state'
      end
  end st1 = (st', r) →
  store_name_file st' = store_name_file st1 ∧
  ∃ es, trace st' = trace st1 ++ es ∧
    commits_follow_done es ∧ created es = [] ∧
    (r ≠ Ret tt → index_state_file st' = index_state_file st1 ∧ saved es = []) ∧
    (r = Ret tt → is_Some (data env)) ∧
    (data env = None → uploaded es = [] ∧ committed es = []) ∧
    (∀ entries, data env = Some entries →
       loop_post lower env state entries (index_state_file st1) (index_state_file st')
         r es).
Proof.
  intros Hrun.
  destruct (data env) as [entries|] eqn:Hdata.
  2:{ injection Hrun as <- <-. split; [done|]. exists []. rewrite app_nil_r.
      repeat split; auto using commits_follow_done_nil; try done. }
  rewrite local_detect_eq in Hrun.
  set (cands := enumerated lower (path_join (cwd env) DATA_DIR) entries) in *.
  remember (filter (λ d, classify state d.1.1 d.2 ≠ UNCHANGED) cands) as docs eqn:Edocs.
  set (lg := (λ d : str * str * str, EClassify d.1.1 (classify state d.1.1 d.2)) <$> cands) in *.
  destruct (classify_log_quiet (λ d : str * str * str, d.1.1)
              (λ d, classify state d.1.1 d.2) cands) as (Hl1 & Hl2 & Hl3 & Hl4).
  fold lg in Hl1, Hl2, Hl3, Hl4.
  unfold bind at 1 in Hrun. unfold tell in Hrun. simpl in Hrun.
  destruct (decide (docs = [])) as [->|Hne].
  - injection Hrun as <- <-. split; [done|]. exists lg. split; [done|].
    split; [by apply commits_follow_done_quiet|]. split; [done|].
    split; [done|]. split; [eauto|]. split; [done|].
    intros ? [= <-]. unfold loop_post. simpl. rewrite local_new_or_changed_eq, Hl1, Hl2.
    fold cands. rewrite <- Edocs.
    split; [apply prefix_nil|]. split; [apply prefix_nil|].
    split; [intros i Hi; simpl in Hi; lia|]. split; [by left|]. intros _.
    do 2 (split; [done|]). split; [intros i Hi; simpl in Hi; lia|]. done.
  - assert (Hrun' : (state' <- upload_all env store 0 docs state;;
                     save_index_state state') (log st1 lg) = (st', r)).
    { destruct docs; [done|exact Hrun]. }
    clear Hrun. rename Hrun' into Hrun.
    unfold bind in Hrun.
    destruct (upload_all env store 0 docs state (log st1 lg)) as [st2 r2] eqn:Hloop.
    destruct (local_upload_all_spec _ _ _ _ _ _ _ _ Hloop)
      as (es & -> & Hcfd & Hhd & Hsv & Hcr & Hup & Hcm & Hr).
    rewrite local_log_log in Hrun.
    assert (Hfails : ∀ i, (i < length docs)%nat →
              (∀ j, (j < i)%nat → upload_succeeds (upload env j)) →
              upload_fails (upload env i) → ∃ e, r2 = Raise e).
    { intros i Hi Hb Hf.
      destruct (local_upload_all_fails env store docs 0 state (log st1 lg) i Hi Hb Hf)
        as [e He]. rewrite Hloop in He. eauto. }
    assert (Hcfd' : commits_follow_done (lg ++ es)).
    { apply commits_follow_done_app; auto using commits_follow_done_quiet. }
    destruct r2 as [state'|e| |]; [| | |done].
    + destruct Hr as (Hr1 & Hr2 & -> & Hr4).
      unfold save_index_state in Hrun. injection Hrun as <- <-. simpl.
      split; [done|].
      exists ((lg ++ es) ++ [ESave (Json.dumps (apply_commits state (doc_entries docs)))]).
      split; [by rewrite !app_assoc|].
      split. { apply commits_follow_done_app; auto using commits_follow_done_quiet. }
      split; [by rewrite !created_app, Hl4, Hcr|].
      split; [done|]. split; [eauto|]. split; [done|].
      intros ? [= <-]. unfold loop_post. simpl. rewrite local_new_or_changed_eq. fold cands. rewrite <- Edocs.
      rewrite !uploaded_app, !committed_app, Hl1, Hl2, Hr1, Hr2. simpl.
      rewrite !app_nil_r.
      split; [done|]. split; [done|].
      split. { intros i Hi Hb Hf. destruct (Hfails i Hi Hb Hf) as [e He]. done. }
      split; [done|]. intros _.
      split; [done|]. split; [done|]. split; [exact Hr4|].
      destruct docs; [done|].
      split; [done|]. split; [by rewrite !saved_app, Hl3, Hsv|].
      by rewrite last_snoc.
    + injection Hrun as <- <-. simpl. split; [done|].
      exists (lg ++ es). split; [done|]. split; [done|].
      split; [by rewrite !created_app, Hl4, Hcr|].
      split; [by rewrite saved_app, Hl3, Hsv|]. split; [done|]. split; [done|].
      intros ? [= <-]. unfold loop_post. simpl. rewrite local_new_or_changed_eq. fold cands. rewrite <- Edocs.
      rewrite !uploaded_app, !committed_app, Hl1, Hl2.
      split; [done|]. split; [done|]. split; [|done].
      intros i Hi Hb Hf. destruct (Hfails i Hi Hb Hf) as [e' He]. by eauto.
    + injection Hrun as <- <-. simpl. split; [done|].
      exists (lg ++ es). split; [done|]. split; [done|].
      split; [by rewrite !created_app, Hl4, Hcr|].
      split; [by rewrite saved_app, Hl3, Hsv|]. split; [done|]. split; [done|].
      intros ? [= <-]. unfold loop_post. simpl. rewrite local_new_or_changed_eq. fold cands. rewrite <- Edocs.
      rewrite !uploaded_app, !committed_app, Hl1, Hl2.
      split; [done|]. split; [done|]. split; [|done].
      intros i Hi Hb Hf. destruct (Hfails i Hi Hb Hf) as [e' He]. by eauto.
Qed.

(** A run that stops before it loads the ledger. *)
Lemma local_post_stop lower env file e pre :
  stopped_early env (Raise e) →
  uploaded pre = [] → committed pre = [] → saved pre = [] →
  run_post lower env file file (Raise e) pre.
Proof.
  intros He Hu Hc Hs.
  split; [by apply commits_follow_done_quiet|].
  split; [done|]. split; [done|]. split; [done|].
  split; [auto|].
  intros state entries _ _. unfold loop_post. simpl. rewrite Hu, Hc.
  split; [apply prefix_nil|]. split; [apply prefix_nil|]. split; [eauto|].
  split; [by right|done].
Qed.

(** A run that stops at the ledger file. *)
Lemma local_post_unloaded lower env text r pre :
  (r = Raise JSONDecodeError ∨ (r = OutOfModel ∧ Json.loads text ≠ None)) →
  ledger_of (Some text) = None →
  uploaded pre = [] → committed pre = [] → saved pre = [] →
  run_post lower env (Some text) (Some text) r pre.
Proof.
  intros Hr Hnone Hu Hc Hs.
  split; [by apply commits_follow_done_quiet|].
  split; [done|].
  split; [by destruct Hr as [->|[-> _]]|]. split; [done|].
  split. { intros t [= <-] Hl. destruct Hr as [->|[_ Hr]]; auto. done. }
  intros state entries Hstate. congruence.
Qed.

(** A run that loads the ledger [state] after the events [pre]. *)
Lemma local_post_loaded lower env store state file pre st1 st' r :
  index_state_file st1 = file → ledger_of file = Some state →
  (∀ text, file = Some text → Json.loads text ≠ None) →
  uploaded pre = [] → committed pre = [] → saved pre = [] →
  match data env with
  | None => raise DataDirNotFound
  | Some entries =>
      let '(log, new_or_changed) :=
        detect lower state (path_join (cwd env) DATA_DIR) entries in
      tell log;;;
      match new_or_changed with
      | [] => ret tt
      | _ :: _ =>
          state' <- upload_all env store 0 new_or_changed state;;
          save_index_state state'
      end
  end st1 = (st', r) →
  ∃ es, trace st' = trace st1 ++ es ∧
        run_post lower env file (index_state_file st') r (pre ++ es).
Proof.
  intros Hfile Hstate Hparse Hu Hc Hs Hrun.
  destruct (local_core_spec _ _ _ _ _ _ _ Hrun)
    as (_ & es & Htr & Hcfd & _ & Hnr & Hr & Hnd & Hmain).
  rewrite Hfile in Hnr, Hmain.
  exists es. split; [done|].
  split. { apply commits_follow_done_app; auto using commits_follow_done_quiet.
           intros doc fp Hhd. destruct es as [|e es]; [done|].
           simpl in Hhd. injection Hhd as ->.
           destruct (Hcfd 0%nat doc fp eq_refl) as (j & Hj & _). lia. }
  split; [intros Hne; destruct (Hnr Hne) as [? Hsv]; split; [done|];
          by rewrite saved_app, Hs, Hsv|].
  split; [intros Hret; destruct (Hr Hret) as [entries ?]; eauto|].
  split. { intros [Hno|Hno]; [congruence|]. destruct (Hnd Hno) as [Hu' Hc'].
           by rewrite uploaded_app, committed_app, Hu, Hc, Hu', Hc'. }
  split; [intros text Ht Hl; by destruct (Hparse _ Ht)|].
  intros state' entries Hstate' Hdata. rewrite Hstate in Hstate'.
  injection Hstate' as <-. specialize (Hmain _ Hdata). unfold loop_post in *.
  rewrite uploaded_app, committed_app, saved_app, Hu, Hc, Hs. simpl.
  destruct Hmain as (? & ? & ? & ? & Hmain). do 4 (split; [done|]).
  intros Hret. destruct (Hmain Hret) as (? & ? & ? & Hm).
  do 3 (split; [done|]).
  destruct (new_or_changed lower state (path_join (cwd env) DATA_DIR) entries);
    [done|].
  destruct Hm as (? & ? & Hlast). split; [done|]. split; [done|].
  rewrite last_app, Hlast. done.
Qed.

(** A run that finds no [./data] after it has read the ledger file. *)
Lemma local_post_nodata lower env file pre :
  data env = None →
  (∀ text, file = Some text → Json.loads text ≠ None) →
  uploaded pre = [] → committed pre = [] → saved pre = [] →
  run_post lower env file file (Raise DataDirNotFound) pre.
Proof.
  intros Hdata Hparse Hu Hc Hs.
  split; [by apply commits_follow_done_quiet|].
  split; [done|]. split; [done|]. split; [done|].
  split; [intros text Ht Hl; by destruct (Hparse _ Ht)|].
  intros state entries _ Hentries. congruence.
Qed.

(** The part of a run after the store is resolved. *)
Lemma local_tail_spec lower env store file pre st1 st' r :
  index_state_file st1 = file →
  uploaded pre = [] → committed pre = [] → saved pre = [] →
  (v <- load_index_state;;
   match data env with
   | None => raise DataDirNotFound
   | Some entries =>
       state <- typed v;;
       let '(log, new_or_changed) :=
         detect lower state (path_join (cwd env) DATA_DIR) entries in
       tell log;;;
       match new_or_changed with
       | [] => ret tt
       | _ :: _ =>
           state' <- upload_all env store 0 new_or_changed state;;
           save_index_state state'
       end
   end) st1 = (st', r) →
  ∃ es, trace st' = trace st1 ++ es ∧
        run_post lower env file (index_state_file st') r (pre ++ es).
Proof.
  intros Hfile Hu Hc Hs Hrun.
  unfold bind at 1 in Hrun. unfold load_index_state in Hrun. rewrite Hfile in Hrun.
  assert (Hcast : ∀ v state, Json.as_ledger v = Some state →
            match data env with
            | None => raise DataDirNotFound
            | Some entries =>
                state <- typed v;;
                let '(log, new_or_changed) :=
                  detect lower state (path_join (cwd env) DATA_DIR) entries in
                tell log;;;
                match new_or_changed with
                | [] => ret tt
                | _ :: _ =>
                    state' <- upload_all env store 0 new_or_changed state;;
                    save_index_state state'
                end
            end st1 =
            match data env with
            | None => raise DataDirNotFound
            | Some entries =>
                let '(log, new_or_changed) :=
                  detect lower state (path_join (cwd env) DATA_DIR) entries in
                tell log;;;
                match new_or_changed with
                | [] => ret tt
                | _ :: _ =>
                    state' <- upload_all env store 0 new_or_changed state;;
                    save_index_state state'
                end
            end st1).
  { intros v state Hv. destruct (data env); [|done].
    unfold bind at 1. unfold typed. by rewrite Hv. }
  destruct file as [text|].
  - destruct (Json.loads text) as [v|] eqn:Hloads.
    + destruct (Json.as_ledger v) as [state|] eqn:Hledger.
      * rewrite (Hcast _ _ Hledger) in Hrun.
        eapply local_post_loaded; eauto.
        -- simpl. by rewrite Hloads.
        -- intros ? [= <-]. congruence.
      * destruct (data env) as [entries|] eqn:Hdata.
        -- unfold bind at 1 in Hrun. unfold typed in Hrun. rewrite Hledger in Hrun.
           injection Hrun as <- <-. exists []. rewrite !app_nil_r, Hfile.
           split; [done|]. apply local_post_unloaded; auto.
           ++ right. split; [done|congruence].
           ++ simpl. by rewrite Hloads.
        -- injection Hrun as <- <-. exists []. rewrite !app_nil_r, Hfile.
           split; [done|]. apply local_post_nodata; auto.
           intros ? [= <-]. congruence.
    + injection Hrun as <- <-. exists []. rewrite !app_nil_r, Hfile.
      split; [done|]. apply local_post_unloaded; auto.
      simpl. by rewrite Hloads.
  - rewrite (Hcast (Json.JObj []) ∅ eq_refl) in Hrun.
    eapply local_post_loaded; eauto.
Qed.

(** What a whole run does. *)
Lemma local_run_spec lower env dn st st' r :
  incremental_index lower env dn st = (st', r) →
  ∃ es, trace st' = trace st ++ es ∧
        run_post lower env (index_state_file st) (index_state_file st') r es.
Proof.
  intros Hrun. unfold incremental_index in Hrun.
  unfold bind at 1 in Hrun. unfold make_client in Hrun.
  destruct (truthy (or_else (GOOGLE_API_KEY env) (GEMINI_API_KEY env))) eqn:Hkey.
  2:{ injection Hrun as <- <-. exists []. rewrite app_nil_r. split; [done|].
      apply local_post_stop; auto. by left. }
  simpl in Hrun. unfold bind at 1 in Hrun. rewrite local_store_eq in Hrun.
  destruct (strip <$> store_name_file st) as [[|c name]|] eqn:Hname.
  2:{ destruct (local_tail_spec _ _ _ _ [] _ _ _ eq_refl eq_refl eq_refl eq_refl Hrun)
        as (es & Htr & Hpost). exists es. done. }
  all: destruct (create_store env) as [name|] eqn:Hcreate.
  all: try (injection Hrun as <- <-; exists [ECreateStore dn]; split; [done|];
            apply local_post_stop; auto; by right).
  all: destruct (local_tail_spec _ _ _ _ [ECreateStore dn; EWriteStoreName name]
                   _ _ _ eq_refl eq_refl eq_refl eq_refl Hrun) as (es & Htr & Hpost);
       exists ([ECreateStore dn; EWriteStoreName name] ++ es);
       (split; [rewrite Htr; simpl; by rewrite <- app_assoc|exact Hpost]).
Qed.

End LocalFacts.

(** ** Facts about the object-storage indexer *)

Section GcsFacts.
Import Py Run Trace Gcs.

Lemma gcs_log_nil st : log st [] = st.
Proof. destruct st. unfold log. simpl. by rewrite app_nil_r. Qed.

Lemma gcs_log_log st a b : log (log st a) b = log st (a ++ b).
Proof. unfold log. simpl. by rewrite app_assoc. Qed.

Lemma gcs_wait_eq doc op st :
  wait doc op st = (log st (wait_events doc op), settles op).
Proof.
  revert st. induction op as [|next IH| |]; intros st; simpl.
  - done.
  - unfold bind, tell. rewrite IH, gcs_log_log. done.
  - unfold bind, tell, raise. done.
  - by rewrite gcs_log_nil.
Qed.

Lemma upload_succeeds_fails r : upload_succeeds r → upload_fails r → False.
Proof.
  intros (op & -> & Hs) [Hr|(op' & [= <-] & Hf)]; [done|]. congruence.
Qed.

Lemma stage_remove (p : str) (X : gset str) : ({[p]} ∪ X) ∖ {[p]} = X ∖ {[p]}.
Proof.
  apply set_eq. intros x. rewrite !elem_of_difference, elem_of_union. tauto.
Qed.

(** One round of the upload loop. *)
Lemma gcs_index_one_spec env store k name md5 state st st' r :
  index_one env store k (name, md5) state st = (st', r) →
  store_name_blob st' = store_name_blob st ∧
  index_state_blob st' = index_state_blob st ∧
  ∃ es, trace st' = trace st ++ es ∧
    commits_follow_done es ∧
    head es = Some (EDownload name (tmp_path_of name)) ∧
    saved es = [] ∧ created es = [] ∧
    uploaded es `prefix_of` [name] ∧
    committed es `prefix_of` doc_entries [(name, md5)] ∧
    match r with
    | Ret state' =>
        uploaded es = [name] ∧ committed es = doc_entries [(name, md5)] ∧
        state' = apply_commits state (doc_entries [(name, md5)]) ∧
        download env k = DownloadOk ∧ upload_succeeds (upload env k) ∧
        tmp st' = (if remove env k then tmp st ∖ {[tmp_path_of name]}
                   else {[tmp_path_of name]} ∪ tmp st)
    | Raise e =>
        e = ServiceError Download ∨ e = ServiceError Upload ∨
        e = ServiceError OperationsGet
    | Hang => True
    | OutOfModel => False
    end ∧
    (download env k = DownloadOk → ¬ upload_succeeds (upload env k) →
       tmp st' = {[tmp_path_of name]} ∪ tmp st).
Proof.
  unfold index_one, bind. unfold download_to_filename at 1. intros Hrun.
  pose proof (wait_events_quiet name) as Hq.
  destruct (download env k) as [|partial] eqn:Hdl.
  2:{ injection Hrun as <- <-. simpl. split; [done|]. split; [done|].
      eexists. split; [done|].
      split; [by apply commits_follow_done_quiet|].
      repeat split; try done; try apply prefix_nil. by left. }
  unfold tell at 1 in Hrun. simpl in Hrun.
  destruct (upload env k) as [|op] eqn:Hup.
  { injection Hrun as <- <-. simpl. split; [done|]. split; [done|].
    eexists. split; [by rewrite <- app_assoc|].
    split; [by apply commits_follow_done_quiet|].
    repeat split; try done; try apply prefix_nil. by right; left. }
  rewrite gcs_wait_eq in Hrun.
  destruct (Hq op) as (Hq1 & Hq2 & Hq3 & Hq4).
  destruct (settles op) as [[]|e| |] eqn:Hs.
  - destruct md5 as [h|]; unfold tell, ret, remove_tmp in Hrun; simpl in Hrun;
      injection Hrun as <- <-; simpl.
    + split; [done|]. split; [done|].
      exists ([EDownload name (tmp_path_of name)] ++
              ([EUpload name (tmp_path_of name) store (basename name)] ++
               wait_events name op) ++ [ECommit name h] ++ [ERemove (tmp_path_of name)]).
      split; [by rewrite <- !app_assoc|].
      split. { apply commits_follow_done_app; [by apply commits_follow_done_quiet| |done].
               rewrite app_assoc.
               apply commits_follow_done_app; [| by apply commits_follow_done_quiet|done].
               apply commits_follow_done_snoc.
               - apply commits_follow_done_quiet. simpl. done.
               - change (last (EUpload name (tmp_path_of name) store (basename name) ::
                               wait_events name op) = Some (EStatus name true)).
                 by rewrite last_cons, (wait_events_done _ _ Hs). }
      split; [done|].
      simpl. rewrite !saved_app, !created_app, !uploaded_app, !committed_app,
        Hq1, Hq2, Hq3, Hq4. simpl.
      repeat split; try done.
      * exists op. done.
      * destruct (remove env k); [apply stage_remove|done].
      * intros _ Hno. destruct Hno. by exists op.
    + split; [done|]. split; [done|].
      exists ([EDownload name (tmp_path_of name)] ++
              ([EUpload name (tmp_path_of name) store (basename name)] ++
               wait_events name op) ++ [ERemove (tmp_path_of name)]).
      split; [by rewrite <- !app_assoc|].
      split. { apply commits_follow_done_quiet. simpl.
               by rewrite committed_app, Hq2. }
      split; [done|].
      simpl. rewrite !saved_app, !created_app, !uploaded_app, !committed_app,
        Hq1, Hq2, Hq3, Hq4. simpl.
      repeat split; try done.
      * exists op. done.
      * destruct (remove env k); [apply stage_remove|done].
      * intros _ Hno. destruct Hno. by exists op.
  - injection Hrun as <- <-. simpl. split; [done|]. split; [done|].
    exists ([EDownload name (tmp_path_of name)] ++
            [EUpload name (tmp_path_of name) store (basename name)] ++
            wait_events name op).
    split; [by rewrite <- !app_assoc|].
    split. { apply commits_follow_done_quiet. simpl. done. }
    split; [done|].
    simpl. rewrite Hq1, Hq2, Hq3, Hq4.
    repeat split; try done; try apply prefix_nil.
    right; right. by apply settles_raise in Hs.
  - injection Hrun as <- <-. simpl. split; [done|]. split; [done|].
    exists ([EDownload name (tmp_path_of name)] ++
            [EUpload name (tmp_path_of name) store (basename name)] ++
            wait_events name op).
    split; [by rewrite <- !app_assoc|].
    split. { apply commits_follow_done_quiet. simpl. done. }
    split; [done|].
    simpl. rewrite Hq1, Hq2, Hq3, Hq4.
    repeat split; try done; try apply prefix_nil.
  - by apply settles_in_model in Hs.
Qed.

Lemma gcs_upload_all_cons env store k doc rest state st :
  upload_all env store k (doc :: rest) state st =
  match index_one env store k doc state st with
  | (st1, Ret state') => upload_all env store (S k) rest state' st1
  | (st1, Raise e) => (st1, Raise e)
  | (st1, Hang) => (st1, Hang)
  | (st1, OutOfModel) => (st1, OutOfModel)
  end.
Proof. reflexivity. Qed.

Lemma gcs_doc_entries_cons name md5 docs :
  doc_entries ((name, md5) :: docs) = doc_entries [(name, md5)] ++ doc_entries docs.
Proof. unfold doc_entries. simpl. by destruct md5. Qed.

Lemma head_app_Some {A} (a b : list A) x : head a = Some x → head (a ++ b) = Some x.
Proof. by destruct a. Qed.

Lemma gcs_upload_all_spec env store docs : ∀ k state st st' r,
  upload_all env store k docs state st = (st', r) →
  store_name_blob st' = store_name_blob st ∧
  index_state_blob st' = index_state_blob st ∧
  ∃ es, trace st' = trace st ++ es ∧
    commits_follow_done es ∧
    (∀ doc fp, head es ≠ Some (ECommit doc fp)) ∧
    saved es = [] ∧ created es = [] ∧
    uploaded es `prefix_of` doc_names docs ∧
    committed es `prefix_of` doc_entries docs ∧
    match r with
    | Ret state' =>
        uploaded es = doc_names docs ∧ committed es = doc_entries docs ∧
        state' = apply_commits state (doc_entries docs) ∧
        (∀ i, (i < length docs)%nat →
           download env (k + i)%nat = DownloadOk ∧
           upload_succeeds (upload env (k + i)%nat)) ∧
        ((∀ i, (i < length docs)%nat → remove env (k + i)%nat = true) →
         tmp st' = tmp st ∖ list_to_set (tmp_path_of <$> doc_names docs))
    | Raise e =>
        e = ServiceError Download ∨ e = ServiceError Upload ∨
        e = ServiceError OperationsGet
    | Hang => True
    | OutOfModel => False
    end.
Proof.
  induction docs as [|[name md5] docs IH]; intros k state st st' r Hrun.
  - injection Hrun as <- <-. split; [done|]. split; [done|].
    exists []. rewrite app_nil_r. split; [done|].
    split; [apply commits_follow_done_nil|].
    do 3 (split; [done|]). do 2 (split; [apply prefix_nil|]).
    do 3 (split; [done|]). split; [intros i Hi; simpl in Hi; lia|].
    intros _. simpl. apply set_eq. intros x.
    rewrite elem_of_difference, elem_of_empty. tauto.
  - rewrite gcs_upload_all_cons in Hrun.
    destruct (index_one env store k (name, md5) state st) as [st1 r1] eqn:Hone.
    destruct (gcs_index_one_spec _ _ _ _ _ _ _ _ _ Hone)
      as (Hsn & Hix & es1 & Htr & Hcfd & Hhd & Hsv & Hcr & Hup & Hcm & Hr & _).
    rewrite gcs_doc_entries_cons.
    destruct r1 as [state1|e| |]; [| | |done].
    + destruct (IH _ _ _ _ _ Hrun)
        as (Hsn' & Hix' & es2 & Htr' & Hcfd' & Hhd' & Hsv' & Hcr' & Hup' & Hcm' & Hr').
      destruct Hr as (Hr1 & Hr2 & -> & Hr4 & Hr5 & Hr6).
      split; [congruence|]. split; [congruence|].
      exists (es1 ++ es2). split; [by rewrite Htr', Htr, app_assoc|].
      split; [by apply commits_follow_done_app|].
      split; [intros ??; by rewrite (head_app_Some _ _ _ Hhd)|].
      rewrite saved_app, created_app, uploaded_app, committed_app,
        Hsv, Hcr, Hsv', Hcr', Hr1, Hr2.
      split; [done|]. split; [done|].
      split; [by apply prefix_cons|]. split; [by apply prefix_app|].
      destruct r as [state'|e| |]; try done.
      destruct Hr' as (Hr1' & Hr2' & -> & Hr4' & Hr5').
      split; [simpl; unfold doc_names in *; simpl; by f_equal|].
      split; [by f_equal|]. split; [by rewrite apply_commits_app|].
      split.
      * intros [|i] Hi; [by rewrite Nat.add_0_r|].
        replace (k + S i)%nat with (S k + i)%nat by lia. apply Hr4'. simpl in Hi. lia.
      * intros Hrm. rewrite Hr5', Hr6.
        -- pose proof (Hrm 0%nat ltac:(simpl; lia)) as Hrm0.
           rewrite Nat.add_0_r in Hrm0. rewrite Hrm0.
           simpl. apply set_eq. intros x.
           rewrite !elem_of_difference, elem_of_union. tauto.
        -- intros i Hi. replace (S k + i)%nat with (k + S i)%nat by lia.
           apply Hrm. simpl. lia.
    + injection Hrun as <- <-. split; [done|]. split; [done|].
      exists es1. split; [done|]. split; [done|].
      split; [intros ??; by rewrite Hhd|].
      split; [done|]. split; [done|].
      split; [etrans; [exact Hup|]; apply prefix_cons, prefix_nil|].
      split; [etrans; [exact Hcm|]; by apply prefix_app_r|]. done.
    + injection Hrun as <- <-. split; [done|]. split; [done|].
      exists es1. split; [done|]. split; [done|].
      split; [intros ??; by rewrite Hhd|].
      split; [done|]. split; [done|].
      split; [etrans; [exact Hup|]; apply prefix_cons, prefix_nil|].
      split; [etrans; [exact Hcm|]; by apply prefix_app_r|]. done.
Qed.

(** How one round ends, by the answers to its download and its upload. *)
Lemma gcs_index_one_outcome env store k name md5 state st :
  (index_one env store k (name, md5) state st).2 =
  match download env k with
  | DownloadRaises _ => Raise (ServiceError Download)
  | DownloadOk =>
      match upload env k with
      | UploadRaises => Raise (ServiceError Upload)
      | UploadReturns op =>
          match settles op with
          | Ret _ => Ret (apply_commits state (doc_entries [(name, md5)]))
          | Raise e => Raise e
          | Hang => Hang
          | OutOfModel => OutOfModel
          end
      end
  end.
Proof.
  unfold index_one, bind. unfold download_to_filename at 1.
  destruct (download env k); [|done].
  unfold tell at 1. simpl. destruct (upload env k) as [|op]; [done|].
  rewrite gcs_wait_eq. destruct (settles op) as [[]| | |]; try done.
  destruct md5; done.
Qed.

(** The first answer that fails, after answers that all succeed, ends the
    loop with its exception. *)
Lemma gcs_upload_all_fails env store docs : ∀ k state st i,
  (i < length docs)%nat →
  (∀ j, (j < i)%nat →
     download env (k + j)%nat = DownloadOk ∧ upload_succeeds (upload env (k + j)%nat)) →
  (download env (k + i)%nat = DownloadOk → upload_fails (upload env (k + i)%nat)) →
  ∃ e, (upload_all env store k docs state st).2 = Raise e.
Proof.
  induction docs as [|[name md5] docs IH]; intros k state st i Hi Hbefore Hfail.
  - simpl in Hi. lia.
  - rewrite gcs_upload_all_cons.
    pose proof (gcs_index_one_outcome env store k name md5 state st) as Hout.
    destruct (index_one env store k (name, md5) state st) as [st1 r1].
    simpl in Hout. subst r1.
    destruct i as [|i].
    + rewrite Nat.add_0_r in Hfail.
      destruct (download env k); [|simpl; eauto].
      destruct (Hfail eq_refl) as [->|(op & -> & ->)]; simpl; eauto.
    + destruct (Hbefore 0%nat ltac:(lia)) as [Hd (op & Hu & Hs)].
      rewrite Nat.add_0_r in Hd, Hu. rewrite Hd, Hu, Hs.
      apply (IH (S k) _ _ i).
      * simpl in Hi. lia.
      * intros j Hj. replace (S k + j)%nat with (k + S j)%nat by lia.
        apply Hbefore. lia.
      * by replace (S k + i)%nat with (k + S i)%nat by lia.
Qed.

Lemma gcs_store_eq env st :
  load_or_create_store env st =
  match strip <$> store_name_blob st with
  | Some (c :: name) => (st, Ret (c :: name))
  | _ =>
      match create_store env with
      | Some name =>
          ({| store_name_blob := Some name;
              index_state_blob := index_state_blob st;
              tmp := tmp st;
              trace := trace st ++ [ECreateStore py:"my_docs_store"; EWriteStoreName name] |},
           Ret name)
      | None =>
          (log st [ECreateStore py:"my_docs_store"], Raise (ServiceError CreateStore))
      end
  end.
Proof.
  unfold load_or_create_store, load_store_name_from_gcs, file_search_stores_create,
    save_store_name_to_gcs, bind, tell, ret, raise.
  destruct (store_name_blob st) as [content|]; simpl.
  - destruct (strip content); [|done]. destruct (create_store env); simpl; [|done].
    by rewrite <- app_assoc.
  - destruct (create_store env); simpl; [|done]. by rewrite <- app_assoc.
Qed.

Lemma gcs_detect_eq state cands :
  detect state cands =
  ((λ d, EClassify d.1 (classify state d.1 d.2)) <$> cands,
   filter (λ d, classify state d.1 d.2 ≠ UNCHANGED) cands).
Proof.
  induction cands as [|[name md5] cands IH]; [done|].
  simpl. rewrite IH. clear IH. rewrite filter_cons. simpl.
  destruct (classify state name md5) eqn:Hc; case_decide; done.
Qed.

Lemma gcs_new_or_changed_eq state cands :
  new_or_changed state cands =
  filter (λ d, classify state d.1 d.2 ≠ UNCHANGED) cands.
Proof. unfold new_or_changed. by rewrite gcs_detect_eq. Qed.

(** What a run does once the ledger is loaded, from any state. *)
Lemma gcs_core_spec lower env store state st1 st' r :
  (let '(log, new_or_changed) :=
     detect state (list_candidate_blobs lower (blobs env)) in
   tell log;;;
   match new_or_changed with
   | [] => ret tt
   | _ :: _ =>
       state' <- upload_all env store 0 new_or_changed state;;
       save_index_state_to_gcs state'
   end) st1 = (st', r) →
  ∃ es, trace st' = trace st1 ++ es ∧
    commits_follow_done es ∧
    (∀ doc fp, head es ≠ Some (ECommit doc fp)) ∧
    (r ≠ Ret tt → index_state_blob st' = index_state_blob st1 ∧ saved es = []) ∧
    loop_post lower env state (index_state_blob st1) (index_state_blob st')
      (tmp st1) (tmp st') r es.
Proof.
  intros Hrun. unfold loop_post.
  rewrite gcs_detect_eq in Hrun. rewrite gcs_new_or_changed_eq.
  set (cands := list_candidate_blobs lower (blobs env)) in *.
  remember (filter (λ d, classify state d.1 d.2 ≠ UNCHANGED) cands) as docs eqn:Edocs.
  set (lg := (λ d : str * option str, EClassify d.1 (classify state d.1 d.2)) <$> cands) in *.
  destruct (classify_log_quiet (λ d : str * option str, d.1)
              (λ d, classify state d.1 d.2) cands) as (Hl1 & Hl2 & Hl3 & Hl4).
  fold lg in Hl1, Hl2, Hl3, Hl4.
  assert (Hlhd : ∀ es doc fp, (∀ doc fp, head es ≠ Some (ECommit doc fp)) →
                 head (lg ++ es) ≠ Some (ECommit doc fp)).
  { intros es doc fp Hes. unfold lg. destruct cands; simpl; [apply Hes|done]. }
  unfold bind at 1 in Hrun. unfold tell in Hrun. simpl in Hrun.
  destruct (decide (docs = [])) as [->|Hne].
  - injection Hrun as <- <-. exists lg. split; [done|].
    split; [by apply commits_follow_done_quiet|].
    split. { intros doc fp. specialize (Hlhd [] doc fp). rewrite app_nil_r in Hlhd.
             by apply Hlhd. }
    split; [done|]. simpl. rewrite Hl1, Hl2.
    split; [apply prefix_nil|]. split; [apply prefix_nil|].
    split; [intros i Hi; simpl in Hi; lia|]. split; [by left|]. intros _.
    do 2 (split; [done|]). split; [intros i Hi; simpl in Hi; lia|].
    split; [|done]. intros _. simpl. apply set_eq. intros x.
    rewrite elem_of_difference, elem_of_empty. tauto.
  - assert (Hrun' : (state' <- upload_all env store 0 docs state;;
                     save_index_state_to_gcs state') (log st1 lg) = (st', r)).
    { destruct docs; [done|exact Hrun]. }
    clear Hrun. rename Hrun' into Hrun.
    unfold bind in Hrun.
    destruct (upload_all env store 0 docs state (log st1 lg)) as [st2 r2] eqn:Hloop.
    destruct (gcs_upload_all_spec _ _ _ _ _ _ _ _ Hloop)
      as (Hsn & Hix & es & Htr & Hcfd & Hhd & Hsv & Hcr & Hup & Hcm & Hr).
    simpl in Hsn, Hix, Htr.
    assert (Hfails : ∀ i, (i < length docs)%nat →
              (∀ j, (j < i)%nat →
                 download env j = DownloadOk ∧ upload_succeeds (upload env j)) →
              (download env i = DownloadOk → upload_fails (upload env i)) →
              ∃ e, r2 = Raise e).
    { intros i Hi Hb Hf.
      destruct (gcs_upload_all_fails env store docs 0 state (log st1 lg) i Hi Hb Hf)
        as [e He]. rewrite Hloop in He. eauto. }
    assert (Hcfd' : commits_follow_done (lg ++ es)).
    { apply commits_follow_done_app; auto using commits_follow_done_quiet. }
    destruct r2 as [state'|e| |]; [| | |done].
    + destruct Hr as (Hr1 & Hr2 & -> & Hr4 & Hr5).
      unfold save_index_state_to_gcs in Hrun. injection Hrun as <- <-. simpl.
      exists ((lg ++ es) ++ [ESave (Json.dumps (apply_commits state (doc_entries docs)))]).
      split; [by rewrite Htr, !app_assoc|].
      split. { apply commits_follow_done_app; auto using commits_follow_done_quiet. }
      split; [intros ??; rewrite <- app_assoc; by apply Hlhd; destruct es|].
      split; [done|].
      rewrite !uploaded_app, !committed_app, Hl1, Hl2, Hr1, Hr2. simpl.
      rewrite !app_nil_r.
      split; [done|]. split; [done|].
      split. { intros i Hi Hb Hf. destruct (Hfails i Hi Hb Hf) as [e He]. done. }
      split; [done|]. intros _.
      split; [done|]. split; [done|]. split; [exact Hr4|].
      split; [exact Hr5|].
      destruct docs; [done|].
      split; [done|]. split; [by rewrite !saved_app, Hl3, Hsv|].
      by rewrite last_snoc.
    + injection Hrun as <- <-. simpl.
      exists (lg ++ es). split; [by rewrite Htr, app_assoc|]. split; [done|].
      split; [intros ??; by apply Hlhd|].
      split; [by rewrite saved_app, Hl3, Hsv|].
      rewrite !uploaded_app, !committed_app, Hl1, Hl2.
      split; [done|]. split; [done|]. split; [|done].
      intros i Hi Hb Hf. destruct (Hfails i Hi Hb Hf) as [e' He]. by eauto.
    + injection Hrun as <- <-. simpl.
      exists (lg ++ es). split; [by rewrite Htr, app_assoc|]. split; [done|].
      split; [intros ??; by apply Hlhd|].
      split; [by rewrite saved_app, Hl3, Hsv|].
      rewrite !uploaded_app, !committed_app, Hl1, Hl2.
      split; [done|]. split; [done|]. split; [|done].
      intros i Hi Hb Hf. destruct (Hfails i Hi Hb Hf) as [e' He]. by eauto.
Qed.

(** A run that stops before it loads the ledger. *)
Lemma gcs_post_stop lower env file tmp0 e pre :
  stopped_early env (Raise e) →
  uploaded pre = [] → committed pre = [] → saved pre = [] →
  run_post lower env file file tmp0 tmp0 (Raise e) pre.
Proof.
  intros He Hu Hc Hs.
  split; [by apply commits_follow_done_quiet|].
  split; [done|]. split; [done|]. split; [done|].
  split; [auto|].
  intros state _. unfold loop_post. simpl. rewrite Hu, Hc.
  split; [apply prefix_nil|]. split; [apply prefix_nil|]. split; [eauto|].
  split; [by right|done].
Qed.

(** A run that stops at the ledger blob. *)
Lemma gcs_post_unloaded lower env text tmp0 r pre :
  (r = Raise JSONDecodeError ∨ (r = OutOfModel ∧ Json.loads text ≠ None)) →
  ledger_of (Some text) = None →
  uploaded pre = [] → committed pre = [] → saved pre = [] →
  run_post lower env (Some text) (Some text) tmp0 tmp0 r pre.
Proof.
  intros Hr Hnone Hu Hc Hs.
  split; [by apply commits_follow_done_quiet|].
  split; [done|].
  split; [by destruct Hr as [->|[-> _]]|]. split; [done|].
  split. { intros t [= <-] Hl. destruct Hr as [->|[_ Hr]]; auto. done. }
  intros state Hstate. congruence.
Qed.

(** The part of a run after the store is resolved. *)
Lemma gcs_tail_spec lower env store file pre st1 st' r :
  index_state_blob st1 = file →
  uploaded pre = [] → committed pre = [] → saved pre = [] →
  (v <- load_index_state_from_gcs;;
   state <- typed v;;
   let '(log, new_or_changed) :=
     detect state (list_candidate_blobs lower (blobs env)) in
   tell log;;;
   match new_or_changed with
   | [] => ret tt
   | _ :: _ =>
       state' <- upload_all env store 0 new_or_changed state;;
       save_index_state_to_gcs state'
   end) st1 = (st', r) →
  ∃ es, trace st' = trace st1 ++ es ∧
        run_post lower env file (index_state_blob st') (tmp st1) (tmp st') r
          (pre ++ es).
Proof.
  intros Hfile Hu Hc Hs Hrun.
  unfold bind at 1 in Hrun. unfold load_index_state_from_gcs in Hrun.
  rewrite Hfile in Hrun.
  assert (Hloaded : ∀ state, ledger_of file = Some state →
    (∀ text, file = Some text → Json.loads text ≠ None) →
    (let '(log, new_or_changed) :=
       detect state (list_candidate_blobs lower (blobs env)) in
     tell log;;;
     match new_or_changed with
     | [] => ret tt
     | _ :: _ =>
         state' <- upload_all env store 0 new_or_changed state;;
         save_index_state_to_gcs state'
     end) st1 = (st', r) →
    ∃ es, trace st' = trace st1 ++ es ∧
          run_post lower env file (index_state_blob st') (tmp st1) (tmp st') r
            (pre ++ es)).
  { clear Hrun. intros state Hstate Hparse Hrun.
    destruct (gcs_core_spec _ _ _ _ _ _ _ Hrun) as (es & Htr & Hcfd & Hhd & Hnr & Hpost).
    rewrite Hfile in Hnr, Hpost.
    exists es. split; [done|].
    split; [apply commits_follow_done_app; auto using commits_follow_done_quiet|].
    split; [intros Hne; destruct (Hnr Hne) as [? Hsv]; split; [done|];
            by rewrite saved_app, Hs, Hsv|].
    split; [eauto|]. split; [congruence|].
    split; [intros text Ht Hl; by destruct (Hparse _ Ht)|].
    intros state' Hstate'. rewrite Hstate in Hstate'. injection Hstate' as <-.
    unfold loop_post in *.
    rewrite uploaded_app, committed_app, saved_app, Hu, Hc, Hs. simpl.
    destruct Hpost as (? & ? & ? & ? & Hmain). do 4 (split; [done|]).
    intros Hret. destruct (Hmain Hret) as (? & ? & ? & ? & Hm).
    do 4 (split; [done|]).
    destruct (new_or_changed state (list_candidate_blobs lower (blobs env))); [done|].
    destruct Hm as (? & ? & Hlast). split; [done|]. split; [done|].
    rewrite last_app, Hlast. done. }
  destruct file as [text|].
  - destruct (Json.loads text) as [v|] eqn:Hloads.
    + unfold bind at 1 in Hrun. unfold typed in Hrun.
      destruct (Json.as_ledger v) as [state|] eqn:Hledger.
      * apply (Hloaded state); [|intros ? [= <-]; congruence|done].
        simpl. by rewrite Hloads.
      * injection Hrun as <- <-. exists []. rewrite !app_nil_r, Hfile.
        split; [done|]. apply gcs_post_unloaded; auto.
        -- right. split; [done|congruence].
        -- simpl. by rewrite Hloads.
    + injection Hrun as <- <-. exists []. rewrite !app_nil_r, Hfile.
      split; [done|]. apply gcs_post_unloaded; auto.
      simpl. by rewrite Hloads.
  - unfold bind at 1 in Hrun. unfold typed in Hrun. simpl in Hrun.
    apply (Hloaded ∅); done.
Qed.

(** What a whole run does. *)
Lemma gcs_run_spec lower env st st' r :
  incremental_index lower env st = (st', r) →
  ∃ es, trace st' = trace st ++ es ∧
        run_post lower env (index_state_blob st) (index_state_blob st')
          (tmp st) (tmp st') r es.
Proof.
  intros Hrun. unfold incremental_index in Hrun.
  unfold bind at 1 in Hrun. unfold make_genai_client in Hrun.
  destruct (truthy (or_else (GOOGLE_API_KEY env) (GEMINI_API_KEY env))) eqn:Hkey.
  2:{ injection Hrun as <- <-. exists []. rewrite app_nil_r. split; [done|].
      apply gcs_post_stop; auto. by left. }
  simpl in Hrun. unfold bind at 1 in Hrun. unfold get_bucket in Hrun.
  destruct (bucket_exists env) eqn:Hbucket.
  2:{ injection Hrun as <- <-. exists []. rewrite app_nil_r. split; [done|].
      apply gcs_post_stop; auto. by right; left. }
  simpl in Hrun. unfold bind at 1 in Hrun. rewrite gcs_store_eq in Hrun.
  destruct (strip <$> store_name_blob st) as [[|c name]|] eqn:Hname.
  2:{ destruct (gcs_tail_spec _ _ _ _ [] _ _ _ eq_refl eq_refl eq_refl eq_refl Hrun)
        as (es & Htr & Hpost). exists es. done. }
  all: destruct (create_store env) as [name|] eqn:Hcreate.
  all: try (injection Hrun as <- <-; exists [ECreateStore py:"my_docs_store"];
            split; [done|]; apply gcs_post_stop; auto; by right; right).
  all: destruct (gcs_tail_spec _ _ _ _
                   [ECreateStore py:"my_docs_store"; EWriteStoreName name]
                   _ _ _ eq_refl eq_refl eq_refl eq_refl Hrun) as (es & Htr & Hpost);
       exists ([ECreateStore py:"my_docs_store"; EWriteStoreName name] ++ es);
       (split; [rewrite Htr; simpl; by rewrite <- app_assoc|exact Hpost]).
Qed.

End GcsFacts.

(** ** Facts about the JSON text of a ledger *)

Section JsonFacts.
Import Py Json.

Lemma hex_value_digit d : d < 16 → hex_value (hex_digit d) = Some d.
Proof.
  intros Hd. unfold hex_value, hex_digit.
  destruct (d <? 10) eqn:H10.
  - apply N.ltb_lt in H10.
    replace ((48 <=? 48 + d) && (48 + d <=? 57)) with true.
    + f_equal. lia.
    + symmetry. apply andb_true_intro. split; apply N.leb_le; lia.
  - apply N.ltb_ge in H10.
    replace ((48 <=? 87 + d) && (87 + d <=? 57)) with false.
    + replace ((97 <=? 87 + d) && (87 + d <=? 102)) with true.
      * f_equal. lia.
      * symmetry. apply andb_true_intro. split; apply N.leb_le; lia.
    + symmetry. apply andb_false_intro2. apply N.leb_gt. lia.
Qed.

Lemma decode_hex4_digits n :
  n < 65536 →
  decode_hex4 (hex_digit (n / 4096 mod 16)) (hex_digit (n / 256 mod 16))
    (hex_digit (n / 16 mod 16)) (hex_digit (n mod 16)) = Some n.
Proof.
  intros Hn. unfold decode_hex4.
  rewrite !hex_value_digit by (apply N.mod_lt; done).
  f_equal. 
  zify. Z.to_euclidean_division_equations. lia.
Qed.

Lemma lor_low_bits a b k :
  a mod 2 ^ k = 0 → b < 2 ^ k → N.lor a b = a + b.
Proof.
  intros Ha Hb.
  rewrite <- N.lxor_lor, <- N.add_nocarry_lxor; [done| |].
  all: apply N.bits_inj_0; intros n; rewrite N.land_spec.
  all: destruct (decide (n < k)) as [Hlt|Hge].
  all: try (replace (N.testbit a n) with false; [done|];
            symmetry; rewrite <- (N.mod_pow2_bits_low a k n Hlt), Ha; apply N.bits_0).
  all: replace (N.testbit b n) with false; [apply andb_false_r|];
       symmetry; rewrite <- (N.mod_small b (2 ^ k) Hb);
       apply N.mod_pow2_bits_high; lia.
Qed.

Lemma high_of_eq c : high_of c = 55296 + (c - 65536) / 1024 mod 1024.
Proof.
  unfold high_of. rewrite N.shiftr_div_pow2.
  change 1023 with (N.ones 10). rewrite N.land_ones.
  apply (lor_low_bits _ _ 10); [done|]. apply N.mod_lt. done.
Qed.

Lemma low_of_eq c : low_of c = 56320 + (c - 65536) mod 1024.
Proof.
  unfold low_of. change 1023 with (N.ones 10). rewrite N.land_ones.
  apply (lor_low_bits _ _ 10); [done|]. apply N.mod_lt. done.
Qed.

Lemma high_of_is_high c : is_high_surrogate (high_of c) = true.
Proof.
  rewrite high_of_eq. unfold is_high_surrogate.
  apply andb_true_intro. split; apply N.leb_le;
    zify; Z.to_euclidean_division_equations; lia.
Qed.

Lemma high_not_low u : is_high_surrogate u = true → is_low_surrogate u = false.
Proof.
  unfold is_high_surrogate, is_low_surrogate. intros H.
  apply andb_prop in H as [_ H]. apply N.leb_le in H.
  apply andb_false_intro1. apply N.leb_gt. lia.
Qed.

Lemma low_of_is_low c : is_low_surrogate (low_of c) = true.
Proof.
  rewrite low_of_eq. unfold is_low_surrogate.
  apply andb_true_intro. split; apply N.leb_le;
    zify; Z.to_euclidean_division_equations; lia.
Qed.

Lemma join_high_low c :
  65536 ≤ c → c < 1114112 → join_surrogates (high_of c) (low_of c) = c.
Proof.
  intros Hlo Hhi. unfold join_surrogates. rewrite high_of_eq, low_of_eq.
  rewrite N.shiftl_mul_pow2.
  rewrite (lor_low_bits _ _ 10).
  - zify; Z.to_euclidean_division_equations; lia.
  - apply N.Div0.mod_mul.
  - zify; Z.to_euclidean_division_equations; lia.
Qed.

Lemma high_of_lt c : high_of c < 65536.
Proof. rewrite high_of_eq. zify; Z.to_euclidean_division_equations; lia. Qed.

Lemma low_of_lt c : low_of c < 65536.
Proof. rewrite low_of_eq. zify; Z.to_euclidean_division_equations; lia. Qed.

(** The four shapes of an escaped character. *)
Lemma escape_char_cases c :
  (∃ e, escape_char c = [92; e] ∧ e ≠ 117 ∧ backslash e = Some c) ∨
  (escape_char c = [c] ∧ c ≠ 34 ∧ c ≠ 92 ∧ 32 ≤ c) ∨
  (escape_char c = u_escape c ∧ c < 65536 ∧ c ≠ 34 ∧ c ≠ 92) ∨
  (escape_char c = u_escape (high_of c) ++ u_escape (low_of c) ∧ 65536 ≤ c).
Proof.
  unfold escape_char.
  destruct (c =? 34) eqn:H34; [apply N.eqb_eq in H34 as ->; left; by exists 34|].
  destruct (c =? 92) eqn:H92; [apply N.eqb_eq in H92 as ->; left; by exists 92|].
  destruct (c =? 10) eqn:H10; [apply N.eqb_eq in H10 as ->; left; by exists 110|].
  destruct (c =? 13) eqn:H13; [apply N.eqb_eq in H13 as ->; left; by exists 114|].
  destruct (c =? 9) eqn:H9; [apply N.eqb_eq in H9 as ->; left; by exists 116|].
  destruct (c =? 8) eqn:H8; [apply N.eqb_eq in H8 as ->; left; by exists 98|].
  destruct (c =? 12) eqn:H12; [apply N.eqb_eq in H12 as ->; left; by exists 102|].
  apply N.eqb_neq in H34, H92.
  destruct ((32 <=? c) && (c <=? 126)) eqn:Hp.
  { apply andb_prop in Hp as [Hp _]. apply N.leb_le in Hp. right; left. done. }
  destruct (c <? 65536) eqn:Hb.
  { apply N.ltb_lt in Hb. right; right; left. done. }
  apply N.ltb_ge in Hb. right; right; right. done.
Qed.

Lemma scanstring_plain c rest :
  c ≠ 34 → c ≠ 92 → 32 ≤ c →
  scanstring (c :: rest) =
  match scanstring rest with
  | Some (t, r) => Some (c :: t, r)
  | None => None
  end.
Proof.
  intros H34 H92 H32. cbn [scanstring].
  rewrite (proj2 (N.eqb_neq c 34) H34), (proj2 (N.eqb_neq c 92) H92).
  by rewrite (proj2 (N.ltb_ge c 32) H32).
Qed.

Lemma scanstring_backslash e ch rest :
  e ≠ 117 → backslash e = Some ch →
  scanstring (92 :: e :: rest) =
  match scanstring rest with
  | Some (t, r) => Some (ch :: t, r)
  | None => None
  end.
Proof.
  intros H117 Hb. cbn [scanstring]. simpl (92 =? 34). simpl (92 =? 92). cbv iota.
  by rewrite (proj2 (N.eqb_neq e 117) H117), Hb.
Qed.

(** A [\uXXXX] escape that is not the first half of a pair. *)
Lemma scanstring_u h1 h2 h3 h4 u rest :
  decode_hex4 h1 h2 h3 h4 = Some u →
  (is_high_surrogate u = true →
   ∀ g1 g2 g3 g4 rest' v, rest = 92 :: 117 :: g1 :: g2 :: g3 :: g4 :: rest' →
     decode_hex4 g1 g2 g3 g4 = Some v → is_low_surrogate v = false) →
  scanstring (92 :: 117 :: h1 :: h2 :: h3 :: h4 :: rest) =
  match scanstring rest with
  | Some (t, r) => Some (u :: t, r)
  | None => None
  end.
Proof.
  intros Hd Hnext. cbn [scanstring]. simpl (92 =? 34). simpl (92 =? 92).
  simpl (117 =? 117). cbv iota. rewrite Hd.
  destruct (is_high_surrogate u) eqn:Hhigh; [|done].
  specialize (Hnext eq_refl).
  destruct rest as [|b [|u' rest3]]; [done|done|].
  destruct ((b =? 92) && (u' =? 117)) eqn:Hbu; [|done].
  apply andb_prop in Hbu as [Hb Hu]. apply N.eqb_eq in Hb as ->, Hu as ->.
  destruct rest3 as [|g1 [|g2 [|g3 [|g4 rest4]]]];
    cbn [scanstring]; simpl (92 =? 34); simpl (92 =? 92); simpl (117 =? 117);
    cbv iota; try done.
  destruct (decode_hex4 g1 g2 g3 g4) as [v|] eqn:Hv; [|done].
  by rewrite (Hnext _ _ _ _ _ _ eq_refl Hv).
Qed.

(** The two escapes of a code point above the basic plane. *)
Lemma scanstring_pair h1 h2 h3 h4 g1 g2 g3 g4 hi lo rest :
  decode_hex4 h1 h2 h3 h4 = Some hi → decode_hex4 g1 g2 g3 g4 = Some lo →
  is_high_surrogate hi = true → is_low_surrogate lo = true →
  scanstring (92 :: 117 :: h1 :: h2 :: h3 :: h4 ::
              92 :: 117 :: g1 :: g2 :: g3 :: g4 :: rest) =
  match scanstring rest with
  | Some (t, r) => Some (join_surrogates hi lo :: t, r)
  | None => None
  end.
Proof.
  intros Hh Hg Hhi Hlo. cbn [scanstring]. simpl (92 =? 34). simpl (92 =? 92).
  simpl (117 =? 117). cbv iota. rewrite Hh, Hhi. simpl. by rewrite Hg, Hlo.
Qed.

Lemma well_formed_cons c s :
  well_formed (c :: s) = true →
  c < 1114112 ∧
  (is_high_surrogate c = true → ∀ d s', s = d :: s' → is_low_surrogate d = false) ∧
  well_formed s = true.
Proof.
  cbn [well_formed]. intros H.
  apply andb_prop in H as [H Hs]. apply andb_prop in H as [Hc Hp].
  apply N.ltb_lt in Hc. split; [done|]. split; [|done].
  intros Hhi d s' ->. rewrite Hhi in Hp. simpl in Hp.
  by destruct (is_low_surrogate d).
Qed.

(** What a [\uXXXX] escape at the head of an escaped text decodes to. *)
Lemma escaped_head s rest g1 g2 g3 g4 rest' v :
  flat_map escape_char s ++ 34 :: rest = 92 :: 117 :: g1 :: g2 :: g3 :: g4 :: rest' →
  decode_hex4 g1 g2 g3 g4 = Some v →
  ∃ d s', s = d :: s' ∧ (v = d ∨ is_high_surrogate v = true).
Proof.
  intros Heq Hv. destruct s as [|d s']; [discriminate|].
  exists d, s'. split; [done|]. simpl in Heq.
  destruct (escape_char_cases d) as [(e & He & Hne & _)|[(He & _ & H92 & _)|
    [(He & Hlt & _)|(He & _)]]]; rewrite He in Heq.
  - injection Heq as -> _. done.
  - injection Heq as -> _. done.
  - injection Heq as <- <- <- <- _.
    rewrite decode_hex4_digits in Hv by done. left. congruence.
  - injection Heq as <- <- <- <- _.
    rewrite decode_hex4_digits in Hv by apply high_of_lt. right.
    injection Hv as <-. apply high_of_is_high.
Qed.

(** [scanstring] reads back what [encode_basestring_ascii] wrote. *)
Lemma scanstring_encoded s : ∀ rest,
  well_formed s = true →
  scanstring (flat_map escape_char s ++ 34 :: rest) = Some (s, rest).
Proof.
  induction s as [|c s IH]; intros rest Hwf; [done|].
  apply well_formed_cons in Hwf as (Hc & Hpair & Hwf).
  specialize (IH rest Hwf).
  cbn [flat_map]. rewrite <- app_assoc.
  destruct (escape_char_cases c) as [(e & He & Hne & Hb)|[(He & H34 & H92 & H32)|
    [(He & Hlt & _)|(He & Hge)]]]; rewrite He.
  - cbn [app]. by rewrite (scanstring_backslash e c), IH.
  - cbn [app]. by rewrite scanstring_plain, IH.
  - unfold u_escape. cbn [app]. rewrite (scanstring_u _ _ _ _ c), IH; [done| |].
    + by apply decode_hex4_digits.
    + intros Hhi g1 g2 g3 g4 rest' v Heq Hv.
      destruct (escaped_head _ _ _ _ _ _ _ _ Heq Hv) as (d & s' & -> & [->|Hvhi]).
      * by apply (Hpair Hhi d s').
      * by apply high_not_low.
  - unfold u_escape. rewrite <- app_assoc. cbn [app].
    rewrite (scanstring_pair _ _ _ _ _ _ _ _ (high_of c) (low_of c)), IH.
    + by rewrite join_high_low.
    + apply decode_hex4_digits, high_of_lt.
    + apply decode_hex4_digits, low_of_lt.
    + apply high_of_is_high.
    + apply low_of_is_low.
Qed.

(** *** The order of the keys *)

Lemma str_ltb_irrefl a : str_ltb a a = false.
Proof.
  induction a as [|x a IH]; [done|]. cbn [str_ltb].
  by rewrite N.ltb_irrefl, N.eqb_refl, IH.
Qed.

Lemma str_ltb_trans a : ∀ b c,
  str_ltb a b = true → str_ltb b c = true → str_ltb a c = true.
Proof.
  induction a as [|x a IH]; intros [|y b] [|z c]; cbn [str_ltb]; try done.
  intros Hab Hbc.
  apply orb_prop in Hab as [Hxy|Hxy], Hbc as [Hyz|Hyz].
  - apply N.ltb_lt in Hxy, Hyz.
    apply orb_true_intro. left. apply N.ltb_lt. lia.
  - apply andb_prop in Hyz as [Heq _]. apply N.eqb_eq in Heq as <-.
    by rewrite Hxy.
  - apply andb_prop in Hxy as [Heq _]. apply N.eqb_eq in Heq as ->.
    by rewrite Hyz.
  - apply andb_prop in Hxy as [Heq Hab], Hyz as [Heq' Hbc].
    apply N.eqb_eq in Heq as ->, Heq' as ->.
    rewrite N.eqb_refl, (IH _ _ Hab Hbc). apply orb_true_r.
Qed.

Lemma str_ltb_trichotomy a : ∀ b,
  str_ltb a b = true ∨ a = b ∨ str_ltb b a = true.
Proof.
  induction a as [|x a IH]; intros [|y b]; cbn [str_ltb]; auto.
  destruct (N.lt_trichotomy x y) as [Hlt|[->|Hgt]].
  - left. apply orb_true_intro. left. by apply N.ltb_lt.
  - rewrite N.ltb_irrefl, N.eqb_refl. simpl.
    destruct (IH b) as [?|[->|?]]; auto.
  - right; right. apply orb_true_intro. left. by apply N.ltb_lt.
Qed.

Lemma str_ltb_asym a b : str_ltb a b = true → str_ltb b a = true → False.
Proof.
  intros Hab Hba. pose proof (str_ltb_trans _ _ _ Hab Hba) as H.
  by rewrite str_ltb_irrefl in H.
Qed.

#[local] Instance item_le_total : Total item_le.
Proof.
  intros [k1 v1] [k2 v2]. unfold item_le. simpl.
  destruct (str_ltb_trichotomy k1 k2) as [?|[->|?]]; auto.
  destruct (str_ltb_trichotomy v1 v2) as [?|[->|?]]; auto.
Qed.

#[local] Instance item_le_trans : Transitive item_le.
Proof.
  intros [k1 v1] [k2 v2] [k3 v3]. unfold item_le. simpl.
  intros [H12|[-> H12]] [H23|[-> H23]]; eauto using str_ltb_trans.
  right. split; [done|].
  destruct H12 as [H12| ->], H23 as [H23| ->]; eauto using str_ltb_trans.
Qed.

#[local] Instance item_le_antisym : AntiSymm (=) item_le.
Proof.
  intros [k1 v1] [k2 v2]. unfold item_le. simpl.
  intros [H12|[-> H12]] [H21|[Heq H21]].
  - destruct (str_ltb_asym _ _ H12 H21).
  - subst. by rewrite str_ltb_irrefl in H12.
  - by rewrite str_ltb_irrefl in H21.
  - destruct H12 as [H12| ->], H21 as [H21|H21]; try done.
    + destruct (str_ltb_asym _ _ H12 H21).
    + subst. by rewrite str_ltb_irrefl in H12.
Qed.

Lemma sorted_Sorted items : Sorted item_le (sorted items).
Proof. apply Sorted_merge_sort; apply _. Qed.

Lemma sorted_Permutation items : sorted items ≡ₚ items.
Proof. apply merge_sort_Permutation. Qed.

(** The sorted items depend on the items only, not on their order. *)
Lemma sorted_unique l1 l2 : l1 ≡ₚ l2 → sorted l1 = sorted l2.
Proof.
  intros Hp. apply (Sorted_unique item_le); auto using sorted_Sorted.
  by rewrite !sorted_Permutation.
Qed.

(** With distinct keys, the keys of the sorted items increase strictly. *)
Lemma sorted_keys_increase items :
  NoDup items.*1 →
  StronglySorted (λ a b, str_ltb a b = true) (sorted items).*1.
Proof.
  intros Hnd.
  assert (Hnd' : NoDup (sorted items).*1) by by rewrite sorted_Permutation.
  assert (Hs : StronglySorted item_le (sorted items)).
  { apply Sorted_StronglySorted; [apply _|apply sorted_Sorted]. }
  induction Hs as [|[k v] l Hl IH Hall]; [constructor|].
  simpl in *. apply NoDup_cons in Hnd' as [Hk Hnd'].
  constructor; [by apply IH|].
  apply Forall_fmap. apply Forall_forall. intros [k' v'] Hin.
  rewrite Forall_forall in Hall. destruct (Hall _ Hin) as [Hlt|[Heq _]]; [done|].
  simpl in *. subst k'. destruct Hk. apply list_elem_of_fmap. by exists (k, v').
Qed.

(** *** Reading back the text of a ledger *)

Lemma encode_items_cons first kv rest :
  encode_items first (kv :: rest) ++ [10; 125] =
  (if first then [10; 32; 32] else [44; 10; 32; 32]) ++ 34 :: after_quote kv rest.
Proof.
  unfold after_quote. cbn [encode_items]. unfold encode_item, encode_basestring_ascii.
  destruct first; simpl; repeat (f_equal; try (rewrite <- !app_assoc; simpl)).
Qed.

Lemma after_quote_length kv rest : (length rest < length (after_quote kv rest))%nat.
Proof.
  revert kv. induction rest as [|kv' rest IH]; intros kv.
  - unfold after_quote. rewrite length_app. simpl. lia.
  - unfold after_quote. rewrite encode_items_cons. specialize (IH kv').
    rewrite !length_app. simpl. rewrite !length_app. simpl. lia.
Qed.

Lemma members_encoded scan rest : ∀ kv n,
  (∀ s r, well_formed s = true →
     scan (34 :: flat_map escape_char s ++ 34 :: r) = Some (JStr s, r)) →
  Forall (λ p, well_formed p.1 = true ∧ well_formed p.2 = true) (kv :: rest) →
  (length rest < n)%nat →
  members scan n (after_quote kv rest) =
  Some ((λ p, (p.1, JStr p.2)) <$> kv :: rest, []).
Proof.
  induction rest as [|kv' rest IH]; intros [k v] n Hscan Hwf Hn.
  - destruct n as [|n]; [lia|].
    apply Forall_cons in Hwf as [[Hk Hv] _]. simpl in Hk, Hv.
    unfold after_quote. cbn [members fst snd].
    rewrite (scanstring_encoded k _ Hk). cbn [skip_ws is_ws]. simpl.
    rewrite (Hscan v _ Hv). done.
  - destruct n as [|n]; [simpl in Hn; lia|].
    apply Forall_cons in Hwf as [[Hk Hv] Hwf]. simpl in Hk, Hv.
    unfold after_quote. rewrite encode_items_cons. cbn [members fst snd].
    rewrite (scanstring_encoded k _ Hk). cbn [skip_ws is_ws]. simpl.
    rewrite (Hscan v _ Hv). simpl.
    rewrite (IH kv' n Hscan Hwf); [done|]. simpl in Hn. lia.
Qed.

Lemma scan_once_string fuel s r :
  well_formed s = true →
  scan_once (S fuel) (34 :: flat_map escape_char s ++ 34 :: r) = Some (JStr s, r).
Proof.
  intros Hwf. cbn [scan_once]. simpl (34 =? 34). cbv iota.
  by rewrite scanstring_encoded.
Qed.

Lemma as_str_pairs_strings (items : list (str * str)) :
  as_str_pairs ((λ p, (p.1, JStr p.2)) <$> items) = Some items.
Proof.
  induction items as [|[k v] items IH]; [done|].
  rewrite fmap_cons. cbn [as_str_pairs fst snd]. by rewrite IH.
Qed.

(** [scan_once] on a text that opens an object, a newline, two spaces and
    a key. *)
Lemma scan_once_object fuel r :
  scan_once (S fuel) (123 :: 10 :: 32 :: 32 :: 34 :: r) =
  match members (scan_once fuel) (length r) r with
  | Some (ps, r') => Some (JObj ps, r')
  | None => None
  end.
Proof. reflexivity. Qed.

Lemma loads_object r :
  loads (123 :: 10 :: 32 :: 32 :: 34 :: r) =
  match members (scan_once (length (123 :: 10 :: 32 :: 32 :: 34 :: r))) (length r) r with
  | Some (ps, r') => match skip_ws r' with
                     | [] => Some (JObj ps)
                     | _ :: _ => None
                     end
  | None => None
  end.
Proof.
  unfold loads.
  generalize (length (123 :: 10 :: 32 :: 32 :: 34 :: r)). intros fuel.
  replace (startswith (123 :: 10 :: 32 :: 32 :: 34 :: r) [65279]) with false
    by reflexivity.
  replace (skip_ws (123 :: 10 :: 32 :: 32 :: 34 :: r))
    with (123 :: 10 :: 32 :: 32 :: 34 :: r) by reflexivity.
  rewrite scan_once_object.
  destruct (members (scan_once fuel) (length r) r) as [[ps r']|]; reflexivity.
Qed.

(** Loading the text of its items gives back a list of items. *)
Lemma loads_dumps_items items :
  Forall (λ p, well_formed p.1 = true ∧ well_formed p.2 = true) items →
  loads (dumps_items items) = Some (JObj ((λ p, (p.1, JStr p.2)) <$> sorted items)).
Proof.
  intros Hwf. unfold dumps_items.
  destruct items as [|kv0 items0] eqn:Hitems; [reflexivity|].
  rewrite <- Hitems in *.
  assert (Hwf' : Forall (λ p, well_formed p.1 = true ∧ well_formed p.2 = true)
                   (sorted items)) by by rewrite sorted_Permutation.
  assert (Hne : sorted items ≠ []).
  { intros Hnil. pose proof (sorted_Permutation items) as Hp. rewrite Hnil in Hp.
    apply Permutation_nil_l in Hp. congruence. }
  destruct (sorted items) as [|kv rest]; [done|]. clear Hne Hitems.
  rewrite encode_items_cons.
  replace (123 :: [10; 32; 32] ++ 34 :: after_quote kv rest)
    with (123 :: 10 :: 32 :: 32 :: 34 :: after_quote kv rest) by reflexivity.
  rewrite loads_object.
  rewrite (members_encoded _ rest kv); [reflexivity| |exact Hwf'|apply after_quote_length].
  intros s r Hs.
  apply (scan_once_string (length (10 :: 32 :: 32 :: 34 :: after_quote kv rest))).
  exact Hs.
Qed.

(** Loading the text of a well-formed ledger gives the ledger back. *)
Lemma ledger_roundtrip state :
  wf_ledger state → loads (dumps state) ≫= as_ledger = Some state.
Proof.
  intros Hwf. unfold dumps. rewrite loads_dumps_items.
  - unfold mbind, option_bind, as_ledger. rewrite as_str_pairs_strings.
    f_equal. rewrite <- (list_to_map_to_list state) at 2.
    apply list_to_map_proper.
    + rewrite fmap_reverse, reverse_Permutation, sorted_Permutation.
      apply NoDup_fst_map_to_list.
    + by rewrite reverse_Permutation, sorted_Permutation.
  - apply Forall_forall. intros [k v] Hin.
    apply elem_of_map_to_list in Hin. apply (Hwf k v Hin).
Qed.
End JsonFacts.

(** ** The store registry *)

Section StoreRegistry.
Import Py Run Trace.

(** C5: when the persisted store handle (the stripped content of the store
    name file or blob) is non-empty, [load_or_create_store] returns it and
    leaves the state, trace included, as it was: no store is created.  In
    every other case it calls the store creation once; when that returns a
    name, the name is written to the file or blob and then returned (the file,
    opened as text, is read back with each carriage return of the name, alone
    or before a line feed, as a line feed; the blob is read back as written);
    when it raises, nothing is written. *)
Theorem C5_store_resolved_or_created :
  (∀ env display_name st,
     match strip <$> Local.store_name_file st with
     | Some (c :: name) =>
         Local.load_or_create_store env display_name st = (st, Ret (c :: name))
     | _ =>
         ∃ st' r es,
           Local.load_or_create_store env display_name st = (st', r) ∧
           Local.trace st' = Local.trace st ++ es ∧
           created es = [display_name] ∧
           Local.index_state_file st' = Local.index_state_file st ∧
           match Local.create_store env with
           | Some name =>
               r = Ret name ∧
               Local.store_name_file st' = Some (universal_newlines name) ∧
               es = [ECreateStore display_name; EWriteStoreName name]
           | None =>
               r = Raise (ServiceError CreateStore) ∧
               Local.store_name_file st' = Local.store_name_file st ∧
               es = [ECreateStore display_name]
           end
     end) ∧
  (∀ env st,
     match strip <$> Gcs.store_name_blob st with
     | Some (c :: name) => Gcs.load_or_create_store env st = (st, Ret (c :: name))
     | _ =>
         ∃ st' r es,
           Gcs.load_or_create_store env st = (st', r) ∧
           Gcs.trace st' = Gcs.trace st ++ es ∧
           created es = [py:"my_docs_store"] ∧
           Gcs.index_state_blob st' = Gcs.index_state_blob st ∧
           Gcs.tmp st' = Gcs.tmp st ∧
           match Gcs.create_store env with
           | Some name =>
               r = Ret name ∧ Gcs.store_name_blob st' = Some name ∧
               es = [ECreateStore py:"my_docs_store"; EWriteStoreName name]
           | None =>
               r = Raise (ServiceError CreateStore) ∧
               Gcs.store_name_blob st' = Gcs.store_name_blob st ∧
               es = [ECreateStore py:"my_docs_store"]
           end
     end).
Proof.
  split.
  - intros env dn st. rewrite local_store_eq.
    destruct (strip <$> Local.store_name_file st) as [[|c name]|]; [|done|].
    all: destruct (Local.create_store env) as [name'|];
      eexists _, _, _; (split; [reflexivity|]); simpl; done.
  - intros env st. rewrite gcs_store_eq.
    destruct (strip <$> Gcs.store_name_blob st) as [[|c name]|]; [|done|].
    all: destruct (Gcs.create_store env) as [name'|];
      eexists _, _, _; (split; [reflexivity|]); simpl; done.
Qed.

End StoreRegistry.

(** ** The citations of an answer *)

Section Citations.
Import Py Run App.

Lemma collect_citations_app a b :
  collect_citations (a ++ b) = collect_citations a ++ collect_citations b.
Proof.
  induction a as [|c a IH]; [done|]. simpl.
  destruct (grounding_metadata c); [|done]. by rewrite IH, app_assoc.
Qed.

Lemma chunk_citations_elem c chunks :
  c ∈ chunk_citations chunks →
  ∃ chunk rc, chunk ∈ chunks ∧ retrieved_context chunk = Some rc ∧ c = citation rc.
Proof.
  induction chunks as [|chunk chunks IH]; simpl; [by intros ?%not_elem_of_nil|].
  destruct (retrieved_context chunk) as [rc|] eqn:Hrc.
  - intros [->|Hin]%elem_of_cons.
    + exists chunk, rc. split; [left|done].
    + destruct (IH Hin) as (ch & rc' & ? & ? & ?). exists ch, rc'.
      split; [by right|done].
  - intros Hin. destruct (IH Hin) as (ch & rc' & ? & ? & ?). exists ch, rc'.
    split; [by right|done].
Qed.

Lemma collect_citations_elem c cands :
  c ∈ collect_citations cands →
  ∃ candidate gm chunks chunk rc,
    candidate ∈ cands ∧ grounding_metadata candidate = Some gm ∧
    grounding_chunks gm = Some chunks ∧ chunk ∈ chunks ∧
    retrieved_context chunk = Some rc ∧ c = citation rc.
Proof.
  induction cands as [|candidate cands IH]; simpl; [by intros ?%not_elem_of_nil|].
  assert (Hrest : c ∈ collect_citations cands →
    ∃ candidate0 gm chunks chunk rc,
      candidate0 ∈ candidate :: cands ∧ grounding_metadata candidate0 = Some gm ∧
      grounding_chunks gm = Some chunks ∧ chunk ∈ chunks ∧
      retrieved_context chunk = Some rc ∧ c = citation rc).
  { intros Hin. destruct (IH Hin) as (c0 & gm & chs & ch & rc & ? & ?).
    exists c0, gm, chs, ch, rc. split; [by right|done]. }
  destruct (grounding_metadata candidate) as [gm|] eqn:Hgm; [|done].
  intros [Hin|Hin]%elem_of_app; [|by apply Hrest].
  destruct (grounding_chunks gm) as [chunks|] eqn:Hch; simpl in Hin;
    [|by apply not_elem_of_nil in Hin].
  destruct (chunk_citations_elem _ _ Hin) as (ch & rc & ? & ? & ?).
  exists candidate, gm, chunks, ch, rc. split; [left|done].
Qed.

Lemma str_or_nil x : str_or x [] = default [] x.
Proof. by destruct x as [[|c s]|]. Qed.

(** C9: a citation is the title of the retrieved context, a colon, a space
    and the snippet between double quotes; [Unknown source] stands for a title
    that is missing or empty, and the empty string for a snippet that is
    missing.  Every citation of an answer of [POST /ask] is the citation of a
    retrieved context of the response; a candidate without grounding metadata
    adds no citation, and the answer is returned all the same. *)
Theorem C9_citation_format :
  (∀ rc t, title rc = Some t → t ≠ [] →
     citation rc = t ++ py:": " ++ [34] ++ default [] (text rc) ++ [34]) ∧
  (∀ rc, title rc = None ∨ title rc = Some [] →
     citation rc =
     py:"Unknown source" ++ py:": " ++ [34] ++ default [] (text rc) ++ [34]) ∧
  (∀ detail store response q c,
     ask_question detail store (Ret response) = Ret q → c ∈ citations q →
     ∃ candidate gm chunks chunk rc,
       candidate ∈ default [] (candidates response) ∧
       grounding_metadata candidate = Some gm ∧
       grounding_chunks gm = Some chunks ∧ chunk ∈ chunks ∧
       retrieved_context chunk = Some rc ∧ c = citation rc) ∧
  (∀ before after candidate,
     grounding_metadata candidate = None →
     collect_citations (before ++ candidate :: after) =
     collect_citations (before ++ after)) ∧
  (∀ detail c store response,
     ∃ q, ask_question detail (c :: store) (Ret response) = Ret q).
Proof.
  split; [|split; [|split; [|split]]].
  - intros rc t Ht Hne. unfold citation. rewrite Ht, str_or_nil.
    destruct t; [done|]. done.
  - intros rc Ht. unfold citation. rewrite str_or_nil.
    by destruct Ht as [-> | ->].
  - intros detail store response q c Hask Hc.
    unfold ask_question in Hask. destruct store; [done|].
    injection Hask as <-. simpl in Hc. by apply collect_citations_elem.
  - intros before after candidate Hgm.
    rewrite !collect_citations_app. simpl. by rewrite Hgm.
  - intros detail c store response. eexists. reflexivity.
Qed.

(** The citations of [guide_context] and [bare_context], and where the
    second comes from in the answer to [grounded_response]. *)
Lemma C9_citation_format_witness :
  citation Examples.guide_context =
    py:"guide.pdf" ++ py:": " ++ [34] ++ py:"see page 2" ++ [34] ∧
  citation Examples.bare_context =
    py:"Unknown source" ++ py:": " ++ [34] ++ [] ++ [34] ∧
  ∃ q, ask_question app_detail py:"fileSearchStores/s1"
         (Ret Examples.grounded_response) = Ret q ∧
       citations q = [citation Examples.guide_context;
                      citation Examples.bare_context] ∧
       ∃ candidate gm chunks chunk rc,
         candidate ∈ default [] (candidates Examples.grounded_response) ∧
         grounding_metadata candidate = Some gm ∧
         grounding_chunks gm = Some chunks ∧ chunk ∈ chunks ∧
         retrieved_context chunk = Some rc ∧
         citation Examples.bare_context = citation rc.
Proof.
  split; [|split].
  - apply (proj1 C9_citation_format Examples.guide_context py:"guide.pdf");
      [reflexivity|discriminate].
  - apply (proj1 (proj2 C9_citation_format) Examples.bare_context).
    left. reflexivity.
  - eexists. split; [reflexivity|]. split; [reflexivity|].
    apply (proj1 (proj2 (proj2 C9_citation_format)) app_detail
             py:"fileSearchStores/s1" Examples.grounded_response _ _ eq_refl).
    apply (bool_decide_unpack _). vm_compute. exact I.
Defined.

End Citations.

(** ** The reconciler *)

Section Reconciler.
Import Py Run Trace.

(** A trace with at most one save, at its end. *)
Lemma save_is_last es text i t :
  saved es = [text] → last es = Some (ESave text) → es !! i = Some (ESave t) →
  S i = length es ∧ t = text ∧ committed (take i es) = committed es.
Proof.
  intros Hsaved Hlast Hi.
  apply last_Some in Hlast as [es' ->].
  rewrite saved_app in Hsaved. simpl in Hsaved.
  assert (Hnone : saved es' = []).
  { destruct (saved es') as [|x l]; [done|]. simpl in Hsaved.
    injection Hsaved as _ Hl. by destruct l. }
  destruct (decide (i < length es')%nat) as [Hlt|Hge].
  - rewrite lookup_app_l in Hi by done.
    assert (Hin : t ∈ saved es').
    { unfold saved. apply list_elem_of_omap. exists (ESave t).
      split; [by eapply list_elem_of_lookup_2|done]. }
    rewrite Hnone in Hin. by apply not_elem_of_nil in Hin.
  - pose proof (lookup_lt_Some _ _ _ Hi) as Hlen.
    rewrite length_app in Hlen. simpl in Hlen.
    assert (i = length es') as -> by lia.
    rewrite list_lookup_middle in Hi by done. injection Hi as <-.
    rewrite length_app. simpl. split; [lia|]. split; [done|].
    rewrite take_app_length, committed_app. simpl. by rewrite app_nil_r.
Qed.

Lemma no_save es i t : saved es = [] → es !! i = Some (ESave t) → False.
Proof.
  intros Hnone Hi.
  assert (Hin : t ∈ saved es).
  { unfold saved. apply list_elem_of_omap. exists (ESave t).
    split; [by eapply list_elem_of_lookup_2|done]. }
  rewrite Hnone in Hin. by apply not_elem_of_nil in Hin.
Qed.

Lemma returned_or_not (r : outcome unit) : r = Ret tt ∨ r ≠ Ret tt.
Proof. destruct r as [[]| | |]; auto. Qed.

Lemma local_entry_names docs : (Local.doc_entries docs).*1 = Local.doc_names docs.
Proof.
  unfold Local.doc_entries, Local.doc_names. rewrite <- !list_fmap_compose.
  by apply list_fmap_ext.
Qed.

Lemma gcs_entry_names docs id :
  id ∈ (Gcs.doc_entries docs).*1 → id ∈ Gcs.doc_names docs.
Proof.
  unfold Gcs.doc_entries, Gcs.doc_names.
  intros ([k v] & -> & Hin)%list_elem_of_fmap.
  apply list_elem_of_omap in Hin as ([n md5] & Hin & Hsome). simpl in Hsome.
  destruct md5; [|done]. injection Hsome as -> ->.
  apply list_elem_of_fmap. by exists (k, Some v).
Qed.

(** C7: in every run, each commit to the in-memory ledger directly follows
    the test that saw the operation of its document done; the ledger is
    written at most once, as the last event of a run that returns, and holds
    the loaded ledger with all the commits of the run; a run that does not
    return leaves the persisted ledger as it was; and a run does not return
    when the upload of one of its documents raises or its operation raises at
    a poll: it ends with an exception when the documents before it were
    indexed. *)
Theorem C7_commit_after_done_and_save_last lower :
  (∀ env display_name st st' r,
     Local.incremental_index lower env display_name st = (st', r) →
     ∃ es, Local.trace st' = Local.trace st ++ es ∧
       commits_follow_done es ∧
       (∀ i text, es !! i = Some (ESave text) →
          r = Ret tt ∧ S i = length es ∧
          Local.index_state_file st' = Some text ∧
          ∃ state, ledger_of (Local.index_state_file st) = Some state ∧
            text = Json.dumps (apply_commits state (committed (take i es)))) ∧
       (r ≠ Ret tt →
          Local.index_state_file st' = Local.index_state_file st ∧ saved es = []) ∧
       (∀ state entries i,
          ledger_of (Local.index_state_file st) = Some state →
          Local.data env = Some entries →
          (i < length (Local.new_or_changed lower state
                         (path_join (Local.cwd env) Local.DATA_DIR) entries))%nat →
          upload_fails (Local.upload env i) →
          r ≠ Ret tt ∧
          ((∀ j, (j < i)%nat → upload_succeeds (Local.upload env j)) →
           ∃ e, r = Raise e))) ∧
  (∀ env st st' r,
     Gcs.incremental_index lower env st = (st', r) →
     ∃ es, Gcs.trace st' = Gcs.trace st ++ es ∧
       commits_follow_done es ∧
       (∀ i text, es !! i = Some (ESave text) →
          r = Ret tt ∧ S i = length es ∧
          Gcs.index_state_blob st' = Some text ∧
          ∃ state, ledger_of (Gcs.index_state_blob st) = Some state ∧
            text = Json.dumps (apply_commits state (committed (take i es)))) ∧
       (r ≠ Ret tt →
          Gcs.index_state_blob st' = Gcs.index_state_blob st ∧ saved es = []) ∧
       (∀ state i,
          ledger_of (Gcs.index_state_blob st) = Some state →
          (i < length (Gcs.new_or_changed state
                         (Gcs.list_candidate_blobs lower (Gcs.blobs env))))%nat →
          Gcs.download env i = Gcs.DownloadOk →
          upload_fails (Gcs.upload env i) →
          r ≠ Ret tt ∧
          ((∀ j, (j < i)%nat → Gcs.download env j = Gcs.DownloadOk ∧
                                upload_succeeds (Gcs.upload env j)) →
           ∃ e, r = Raise e))).
Proof.
  split.
  - intros env dn st st' r Hrun.
    destruct (local_run_spec _ _ _ _ _ _ Hrun)
      as (es & Htr & Hcfd & Hnr & Hr & Hnone & Hjson & Hloop).
    exists es. split; [done|]. split; [done|]. split; [|split; [done|]].
    + intros i text Hi.
      destruct (returned_or_not r) as [->|Hne];
        [|destruct (Hnr Hne) as [_ Hs]; destruct (no_save _ _ _ Hs Hi)].
      destruct (Hr eq_refl) as (state & entries & Hstate & Hdata).
      destruct (Hloop _ _ Hstate Hdata) as (_ & _ & _ & _ & Hret).
      destruct (Hret eq_refl) as (_ & Hcm & _ & Hdocs).
      destruct (Local.new_or_changed lower state _ entries) as [|d docs];
        [destruct Hdocs as [_ Hs]; destruct (no_save _ _ _ Hs Hi)|].
      destruct Hdocs as (Hfile & Hsaved & Hlast).
      destruct (save_is_last _ _ _ _ Hsaved Hlast Hi) as (Hlen & -> & Htake).
      split; [done|]. split; [done|]. split; [done|].
      exists state. split; [done|]. by rewrite Htake, Hcm.
    + intros state entries i Hstate Hdata Hi Hfail.
      destruct (Hloop _ _ Hstate Hdata) as (_ & _ & Hfails & _ & Hret).
      split; [|intros Hb; by apply (Hfails i Hi Hb)].
      intros ->. destruct (Hret eq_refl) as (_ & _ & Hall & _).
      by destruct (upload_succeeds_fails _ (Hall i Hi) Hfail).
  - intros env st st' r Hrun.
    destruct (gcs_run_spec _ _ _ _ _ Hrun)
      as (es & Htr & Hcfd & Hnr & Hr & Hnone & Hjson & Hloop).
    exists es. split; [done|]. split; [done|]. split; [|split; [done|]].
    + intros i text Hi.
      destruct (returned_or_not r) as [->|Hne];
        [|destruct (Hnr Hne) as [_ Hs]; destruct (no_save _ _ _ Hs Hi)].
      destruct (Hr eq_refl) as (state & Hstate).
      destruct (Hloop _ Hstate) as (_ & _ & _ & _ & Hret).
      destruct (Hret eq_refl) as (_ & Hcm & _ & _ & Hdocs).
      destruct (Gcs.new_or_changed state _) as [|d docs];
        [destruct Hdocs as [_ Hs]; destruct (no_save _ _ _ Hs Hi)|].
      destruct Hdocs as (Hfile & Hsaved & Hlast).
      destruct (save_is_last _ _ _ _ Hsaved Hlast Hi) as (Hlen & -> & Htake).
      split; [done|]. split; [done|]. split; [done|].
      exists state. split; [done|]. by rewrite Htake, Hcm.
    + intros state i Hstate Hi Hdl Hfail.
      destruct (Hloop _ Hstate) as (_ & _ & Hfails & _ & Hret).
      split; [|intros Hb; by apply (Hfails i Hi Hb)].
      intros ->. destruct (Hret eq_refl) as (_ & _ & Hall & _).
      by destruct (upload_succeeds_fails _ (proj2 (Hall i Hi)) Hfail).
Qed.

Lemma local_doc_names_enumerated lower state dd entries id :
  id ∈ Local.doc_names (Local.new_or_changed lower state dd entries) →
  id ∈ (Local.enumerated lower dd entries).*1.*1.
Proof.
  rewrite local_new_or_changed_eq. unfold Local.doc_names.
  intros (d1 & -> & (d & -> & Hin)%list_elem_of_fmap)%list_elem_of_fmap.
  apply list_elem_of_filter in Hin as [_ Hin].
  apply list_elem_of_fmap. exists d.1. split; [done|].
  apply list_elem_of_fmap. by exists d.
Qed.

Lemma gcs_doc_names_enumerated state cands id :
  id ∈ Gcs.doc_names (Gcs.new_or_changed state cands) → id ∈ cands.*1.
Proof.
  rewrite gcs_new_or_changed_eq. unfold Gcs.doc_names.
  intros (d & -> & Hin)%list_elem_of_fmap.
  apply list_elem_of_filter in Hin as [_ Hin].
  apply list_elem_of_fmap. by exists d.
Qed.

(** C10: a run never removes a ledger entry.  Either it leaves the persisted
    ledger untouched, or it returns after writing a ledger in which every
    entry of the loaded ledger is still present, and in which the entry of
    every document it did not upload (so of every identifier that is not
    enumerated from the corpus) is what it was.  When no document is new or
    changed, nothing is uploaded and the persisted ledger is not written. *)
Theorem C10_entries_retained lower :
  (∀ env display_name st st' r state entries,
     Local.incremental_index lower env display_name st = (st', r) →
     ledger_of (Local.index_state_file st) = Some state →
     Local.data env = Some entries →
     let data_dir := path_join (Local.cwd env) Local.DATA_DIR in
     ∃ es, Local.trace st' = Local.trace st ++ es ∧
       ((Local.index_state_file st' = Local.index_state_file st ∧ saved es = []) ∨
        (∃ state', r = Ret tt ∧
           Local.index_state_file st' = Some (Json.dumps state') ∧
           (∀ id, is_Some (state !! id) → is_Some (state' !! id)) ∧
           (∀ id, id ∉ uploaded es → state' !! id = state !! id) ∧
           (∀ id, id ∉ (Local.enumerated lower data_dir entries).*1.*1 →
              state' !! id = state !! id))) ∧
       (Local.new_or_changed lower state data_dir entries = [] →
          (r = Ret tt ∨ Local.stopped_early env r) ∧
          Local.index_state_file st' = Local.index_state_file st ∧
          saved es = [] ∧ uploaded es = [])) ∧
  (∀ env st st' r state,
     Gcs.incremental_index lower env st = (st', r) →
     ledger_of (Gcs.index_state_blob st) = Some state →
     let candidates := Gcs.list_candidate_blobs lower (Gcs.blobs env) in
     ∃ es, Gcs.trace st' = Gcs.trace st ++ es ∧
       ((Gcs.index_state_blob st' = Gcs.index_state_blob st ∧ saved es = []) ∨
        (∃ state', r = Ret tt ∧
           Gcs.index_state_blob st' = Some (Json.dumps state') ∧
           (∀ id, is_Some (state !! id) → is_Some (state' !! id)) ∧
           (∀ id, id ∉ uploaded es → state' !! id = state !! id) ∧
           (∀ id, id ∉ candidates.*1 → state' !! id = state !! id))) ∧
       (Gcs.new_or_changed state candidates = [] →
          (r = Ret tt ∨ Gcs.stopped_early env r) ∧
          Gcs.index_state_blob st' = Gcs.index_state_blob st ∧
          saved es = [] ∧ uploaded es = [])).
Proof.
  split.
  - intros env dn st st' r state entries Hrun Hstate Hdata dd.
    destruct (local_run_spec _ _ _ _ _ _ Hrun)
      as (es & Htr & Hcfd & Hnr & Hr & Hnone & Hjson & Hloop).
    destruct (Hloop _ _ Hstate Hdata) as (Hup & _ & _ & Hearly & Hret).
    fold dd in Hup, Hearly, Hret.
    exists es. split; [done|]. split.
    + destruct (returned_or_not r) as [->|Hne]; [|left; by apply Hnr].
      destruct (Hret eq_refl) as (Hu & Hcm & _ & Hdocs).
      destruct (Local.new_or_changed lower state dd entries) as [|d docs] eqn:Edocs;
        [by left|].
      rewrite <- Edocs in *. destruct Hdocs as (Hfile & _ & _).
      right. eexists. split; [done|]. split; [exact Hfile|].
      split; [intros id; apply apply_commits_dom|].
      assert (Hother : ∀ id, id ∉ uploaded es →
                apply_commits state (Local.doc_entries
                  (Local.new_or_changed lower state dd entries)) !! id = state !! id).
      { intros id Hid. apply apply_commits_other.
        by rewrite local_entry_names, <- Hu. }
      split; [exact Hother|].
      intros id Hid. apply Hother. rewrite Hu. intros Hin. apply Hid.
      by eapply local_doc_names_enumerated.
    + intros Hnil. split; [by apply Hearly|].
      rewrite Hnil in Hup, Hret. apply prefix_nil_inv in Hup.
      destruct (returned_or_not r) as [->|Hne].
      * destruct (Hret eq_refl) as (_ & _ & _ & ? & ?). done.
      * destruct (Hnr Hne). done.
  - intros env st st' r state Hrun Hstate cands.
    destruct (gcs_run_spec _ _ _ _ _ Hrun)
      as (es & Htr & Hcfd & Hnr & Hr & Hnone & Hjson & Hloop).
    destruct (Hloop _ Hstate) as (Hup & _ & _ & Hearly & Hret).
    fold cands in Hup, Hearly, Hret.
    exists es. split; [done|]. split.
    + destruct (returned_or_not r) as [->|Hne]; [|left; by apply Hnr].
      destruct (Hret eq_refl) as (Hu & Hcm & _ & _ & Hdocs).
      destruct (Gcs.new_or_changed state cands) as [|d docs] eqn:Edocs; [by left|].
      rewrite <- Edocs in *. destruct Hdocs as (Hfile & _ & _).
      right. eexists. split; [done|]. split; [exact Hfile|].
      split; [intros id; apply apply_commits_dom|].
      assert (Hother : ∀ id, id ∉ uploaded es →
                apply_commits state (Gcs.doc_entries (Gcs.new_or_changed state cands))
                  !! id = state !! id).
      { intros id Hid. apply apply_commits_other. intros Hin. apply Hid.
        rewrite Hu. by apply gcs_entry_names. }
      split; [exact Hother|].
      intros id Hid. apply Hother. rewrite Hu. intros Hin. apply Hid.
      by eapply gcs_doc_names_enumerated.
    + intros Hnil. split; [by apply Hearly|].
      rewrite Hnil in Hup, Hret. apply prefix_nil_inv in Hup.
      destruct (returned_or_not r) as [->|Hne].
      * destruct (Hret eq_refl) as (_ & _ & _ & _ & ? & ?). done.
      * destruct (Hnr Hne). done.
Qed.

(** Case analysis for the statements on labels. *)
Ltac label_cases :=
  repeat split; try done; try congruence;
  repeat match goal with
  | |- _ → _ => intros
  | H : ∃ _, _ |- _ => destruct H
  | H : _ ∧ _ |- _ => destruct H
  | H : _ ∨ _ |- _ => destruct H
  end; try done; try congruence; eauto 6.


(** C1 (as amended): the label of a document is NEW when its identifier is
    no key of the loaded ledger, CHANGED when it is a key and the fingerprint is
    absent or differs from the recorded one, and UNCHANGED otherwise; so a
    document without fingerprint is NEW or CHANGED, as it has an entry or not,
    and never UNCHANGED.  The detection loop prints these labels and keeps the
    documents that are not UNCHANGED, and a run uploads those documents only,
    in that order: all of them when it returns. *)
Theorem C1_classification lower :
  (∀ state id fp,
     (Gcs.classify state id fp = NEW ↔ state !! id = None) ∧
     (Gcs.classify state id fp = CHANGED ↔
        ∃ old, state !! id = Some old ∧ (fp = None ∨ fp ≠ Some old)) ∧
     (Gcs.classify state id fp = UNCHANGED ↔
        ∃ old, state !! id = Some old ∧ fp = Some old) ∧
     (fp = None →
        Gcs.classify state id fp = if state !! id is Some _ then CHANGED else NEW)) ∧
  (∀ state id h,
     (Local.classify state id h = NEW ↔ state !! id = None) ∧
     (Local.classify state id h = CHANGED ↔
        ∃ old, state !! id = Some old ∧ old ≠ h) ∧
     (Local.classify state id h = UNCHANGED ↔ state !! id = Some h)) ∧
  (∀ state candidates,
     Gcs.detect state candidates =
     ((λ d, EClassify d.1 (Gcs.classify state d.1 d.2)) <$> candidates,
      filter (λ d, Gcs.classify state d.1 d.2 ≠ UNCHANGED) candidates)) ∧
  (∀ state data_dir entries,
     Local.detect lower state data_dir entries =
     ((λ d, EClassify d.1.1 (Local.classify state d.1.1 d.2)) <$>
        Local.enumerated lower data_dir entries,
      filter (λ d, Local.classify state d.1.1 d.2 ≠ UNCHANGED)
        (Local.enumerated lower data_dir entries))) ∧
  (∀ env st st' r state,
     Gcs.incremental_index lower env st = (st', r) →
     ledger_of (Gcs.index_state_blob st) = Some state →
     let docs := filter (λ d, Gcs.classify state d.1 d.2 ≠ UNCHANGED)
                   (Gcs.list_candidate_blobs lower (Gcs.blobs env)) in
     ∃ es, Gcs.trace st' = Gcs.trace st ++ es ∧
       uploaded es `prefix_of` docs.*1 ∧
       (r = Ret tt → uploaded es = docs.*1)) ∧
  (∀ env display_name st st' r state entries,
     Local.incremental_index lower env display_name st = (st', r) →
     ledger_of (Local.index_state_file st) = Some state →
     Local.data env = Some entries →
     let docs := filter (λ d, Local.classify state d.1.1 d.2 ≠ UNCHANGED)
                   (Local.enumerated lower
                      (path_join (Local.cwd env) Local.DATA_DIR) entries) in
     ∃ es, Local.trace st' = Local.trace st ++ es ∧
       uploaded es `prefix_of` docs.*1.*1 ∧
       (r = Ret tt → uploaded es = docs.*1.*1)).
Proof.
  split; [|split; [|split; [|split; [|split]]]].
  - intros state id fp. unfold Gcs.classify.
    destruct (state !! id) as [old|] eqn:Hold; [|label_cases].
    destruct fp as [h|]; [|label_cases].
    destruct (decide (old ≠ h)) as [Hne|Heq].
    + label_cases. exists old. split; [done|]. right. congruence.
    + apply dec_stable in Heq as ->. label_cases.
  - intros state id h. unfold Local.classify.
    destruct (state !! id) as [old|] eqn:Hold; [|label_cases].
    destruct (decide (old ≠ h)) as [Hne|Heq]; [label_cases|].
    apply dec_stable in Heq as ->. label_cases.
  - apply gcs_detect_eq.
  - apply local_detect_eq.
  - intros env st st' r state Hrun Hstate docs.
    destruct (gcs_run_spec _ _ _ _ _ Hrun)
      as (es & Htr & _ & _ & _ & _ & _ & Hloop).
    destruct (Hloop _ Hstate) as (Hup & _ & _ & _ & Hret).
    rewrite gcs_new_or_changed_eq in Hup, Hret. fold docs in Hup, Hret.
    exists es. split; [done|]. split; [done|].
    intros Hr. by destruct (Hret Hr) as (? & _).
  - intros env dn st st' r state entries Hrun Hstate Hdata docs.
    destruct (local_run_spec _ _ _ _ _ _ Hrun)
      as (es & Htr & _ & _ & _ & _ & _ & Hloop).
    destruct (Hloop _ _ Hstate Hdata) as (Hup & _ & _ & _ & Hret).
    rewrite local_new_or_changed_eq in Hup, Hret. fold docs in Hup, Hret.
    exists es. split; [done|]. split; [done|].
    intros Hr. by destruct (Hret Hr) as (? & _).
Qed.

(** C1, as stated, fails: a document without fingerprint whose identifier
    is not in the ledger is classified NEW, not CHANGED.  So it is for
    [c.pdf], the only document of a bucket with no ledger yet, and so the run
    prints it. *)
Lemma C1_absent_fingerprint_counterexample :
  Gcs.list_candidate_blobs ascii_lower Examples.blobs_c = [(py:"c.pdf", None)] ∧
  ledger_of (Gcs.index_state_blob (Examples.gcs_st None)) = Some ∅ ∧
  Gcs.classify ∅ py:"c.pdf" None = NEW ∧
  head (Gcs.trace (Examples.gcs_run Examples.blobs_c Examples.polled_once None).1) =
    Some (EClassify py:"c.pdf" NEW).
Proof. repeat split; vm_compute; reflexivity. Qed.

(** C6: loading a persisted ledger that is no JSON text raises the decoding
    error, and the value loaded from a ledger that is there is the value of
    its text: the empty ledger is the answer only for a ledger that is absent
    or whose text denotes it.  A run on such a ledger ends with that error (or
    has ended before, for want of an API key, of the bucket, or of a store),
    uploads and commits nothing, and leaves the persisted ledger as it was. *)
Theorem C6_malformed_ledger_aborts lower :
  (∀ st text,
     Local.index_state_file st = Some text → Json.loads text = None →
     Local.load_index_state st = (st, Raise JSONDecodeError)) ∧
  (∀ st st' v,
     Local.load_index_state st = (st', Ret v) →
     st' = st ∧
     match Local.index_state_file st with
     | None => v = Json.JObj []
     | Some text => Json.loads text = Some v
     end) ∧
  (∀ env display_name st st' r text,
     Local.incremental_index lower env display_name st = (st', r) →
     Local.index_state_file st = Some text → Json.loads text = None →
     (r = Raise JSONDecodeError ∨ Local.stopped_early env r) ∧
     Local.index_state_file st' = Some text ∧
     ∃ es, Local.trace st' = Local.trace st ++ es ∧
       uploaded es = [] ∧ committed es = [] ∧ saved es = []) ∧
  (∀ st text,
     Gcs.index_state_blob st = Some text → Json.loads text = None →
     Gcs.load_index_state_from_gcs st = (st, Raise JSONDecodeError)) ∧
  (∀ st st' v,
     Gcs.load_index_state_from_gcs st = (st', Ret v) →
     st' = st ∧
     match Gcs.index_state_blob st with
     | None => v = Json.JObj []
     | Some text => Json.loads text = Some v
     end) ∧
  (∀ env st st' r text,
     Gcs.incremental_index lower env st = (st', r) →
     Gcs.index_state_blob st = Some text → Json.loads text = None →
     (r = Raise JSONDecodeError ∨ Gcs.stopped_early env r) ∧
     Gcs.index_state_blob st' = Some text ∧
     ∃ es, Gcs.trace st' = Gcs.trace st ++ es ∧
       uploaded es = [] ∧ committed es = [] ∧ saved es = []).
Proof.
  split; [|split; [|split; [|split; [|split]]]].
  - intros st text Hfile Hloads. unfold Local.load_index_state.
    by rewrite Hfile, Hloads.
  - intros st st' v. unfold Local.load_index_state.
    destruct (Local.index_state_file st) as [text|]; [|by intros [= <- <-]].
    destruct (Json.loads text); [by intros [= <- <-]|done].
  - intros env dn st st' r text Hrun Hfile Hloads.
    destruct (local_run_spec _ _ _ _ _ _ Hrun)
      as (es & Htr & _ & Hnr & _ & Hnone & Hjson & _).
    specialize (Hjson _ Hfile Hloads).
    assert (Hne : r ≠ Ret tt).
    { destruct Hjson as [->|[[-> _]|[-> _]]]; done. }
    destruct (Hnr Hne) as [Hsame Hsaved].
    destruct Hnone as [Hu Hc].
    { left. rewrite Hfile. simpl. by rewrite Hloads. }
    split; [done|]. split; [congruence|]. by exists es.
  - intros st text Hfile Hloads. unfold Gcs.load_index_state_from_gcs.
    by rewrite Hfile, Hloads.
  - intros st st' v. unfold Gcs.load_index_state_from_gcs.
    destruct (Gcs.index_state_blob st) as [text|]; [|by intros [= <- <-]].
    destruct (Json.loads text); [by intros [= <- <-]|done].
  - intros env st st' r text Hrun Hfile Hloads.
    destruct (gcs_run_spec _ _ _ _ _ Hrun)
      as (es & Htr & _ & Hnr & _ & Hnone & Hjson & _).
    specialize (Hjson _ Hfile Hloads).
    assert (Hne : r ≠ Ret tt).
    { destruct Hjson as [->|[[-> _]|[[-> _]|[-> _]]]]; done. }
    destruct (Hnr Hne) as [Hsame Hsaved].
    destruct Hnone as [Hu Hc].
    { rewrite Hfile. simpl. by rewrite Hloads. }
    split; [done|]. split; [congruence|]. by exists es.
Qed.

(** *** The ledger a run writes, read back by the next run *)

Lemma ledger_of_dumps state :
  Json.wf_ledger state → ledger_of (Some (Json.dumps state)) = Some state.
Proof. intros Hwf. unfold ledger_of. by apply ledger_roundtrip. Qed.

Lemma wf_apply_commits state cs :
  Json.wf_ledger state →
  Forall (λ c, Json.well_formed c.1 = true ∧ Json.well_formed c.2 = true) cs →
  Json.wf_ledger (apply_commits state cs).
Proof.
  revert state. induction cs as [|[k v] cs IH]; intros state Hwf Hcs; [done|].
  apply Forall_cons in Hcs as [[Hk Hv] Hcs].
  unfold apply_commits. simpl. apply IH; [|done].
  by apply map_Forall_insert_2.
Qed.

(** The documents the local detection loop looks at, by their entries. *)
Lemma local_enumerated_elem lower dd entries d :
  d ∈ Local.enumerated lower dd entries ↔
  ∃ e, e ∈ entries ∧ Local.allowed lower (Local.d_name e) = true ∧
       Local.d_isfile e = true ∧
       d = (Local.d_name e, path_join dd (Local.d_name e), Local.d_sha256 e).
Proof.
  unfold Local.enumerated. rewrite list_elem_of_fmap. split.
  - intros (e & -> & [Hp He]%list_elem_of_filter). exists e.
    apply andb_prop_elim in Hp as [Ha Hf].
    repeat split; try done; by apply Is_true_eq_true.
  - intros (e & He & Ha & Hf & ->). exists e. split; [done|].
    apply list_elem_of_filter. split; [|done]. rewrite Ha, Hf. done.
Qed.

Lemma local_enumerated_names lower dd entries :
  NoDup (Local.d_name <$> entries) →
  NoDup (Local.enumerated lower dd entries).*1.*1.
Proof.
  intros Hnd. unfold Local.enumerated.
  rewrite <- !list_fmap_compose.
  induction entries as [|e entries IH]; [constructor|].
  simpl in Hnd. apply NoDup_cons in Hnd as [He Hnd].
  rewrite filter_cons. destruct (decide _) as [Hp|Hp]; [|by apply IH].
  simpl. apply NoDup_cons. split; [|by apply IH].
  intros (e' & Heq & [_ Hin]%list_elem_of_filter)%list_elem_of_fmap.
  simpl in Heq. apply He. apply list_elem_of_fmap. by exists e'.
Qed.

(** After the commits of a pass over documents with distinct names, every
    document looked at has its fingerprint in the ledger. *)
Lemma local_after_commits state (cands : list (str * str * str)) d :
  NoDup cands.*1.*1 → d ∈ cands →
  apply_commits state
    (Local.doc_entries (filter (λ d, Local.classify state d.1.1 d.2 ≠ UNCHANGED) cands))
    !! d.1.1 = Some d.2.
Proof.
  intros Hnd Hin.
  set (docs := filter (λ d, Local.classify state d.1.1 d.2 ≠ UNCHANGED) cands).
  assert (Hsub : ∀ x, x ∈ docs → x ∈ cands).
  { intros x Hx. by apply list_elem_of_filter in Hx as [_ ?]. }
  assert (Hnd' : NoDup (Local.doc_entries docs).*1).
  { rewrite local_entry_names. unfold Local.doc_names.
    unfold docs. clear -Hnd. induction cands as [|c cands IH]; [constructor|].
    simpl in Hnd. apply NoDup_cons in Hnd as [Hc Hnd].
    rewrite filter_cons. destruct (decide _); [|by apply IH].
    simpl. apply NoDup_cons. split; [|by apply IH].
    intros (p & Hp & (x & -> & [_ Hx]%list_elem_of_filter)%list_elem_of_fmap)%list_elem_of_fmap.
    apply Hc. apply list_elem_of_fmap. exists x.1. split; [done|].
    apply list_elem_of_fmap. by exists x. }
  destruct (decide (Local.classify state d.1.1 d.2 ≠ UNCHANGED)) as [Hne|Heq].
  - apply apply_commits_lookup; [done|].
    unfold Local.doc_entries. apply list_elem_of_fmap. exists d. split; [done|].
    apply list_elem_of_filter. done.
  - apply dec_stable in Heq.
    rewrite apply_commits_other.
    + unfold Local.classify in Heq. destruct (state !! d.1.1) as [old|]; [|done].
      destruct (decide (old ≠ d.2)) as [|Hold]; [done|].
      apply dec_stable in Hold. by subst.
    + rewrite local_entry_names. unfold Local.doc_names.
      intros (p & Hp & (x & -> & Hx)%list_elem_of_fmap)%list_elem_of_fmap.
      assert (x = d) as ->.
      { apply list_elem_of_filter in Hx as [Hxne Hx].
        clear -Hnd Hin Hx Hp. induction cands as [|c cands IH];
          [by apply not_elem_of_nil in Hin|].
        simpl in Hnd. apply NoDup_cons in Hnd as [Hc Hnd].
        apply elem_of_cons in Hin as [->|Hin], Hx as [->|Hx]; try done.
        - destruct Hc. rewrite Hp. apply list_elem_of_fmap. exists x.1.
          split; [done|]. apply list_elem_of_fmap. by exists x.
        - destruct Hc. rewrite <- Hp. apply list_elem_of_fmap. exists d.1.
          split; [done|]. apply list_elem_of_fmap. by exists d.
        - by apply IH. }
      apply list_elem_of_filter in Hx as [Hxne _]. by rewrite Heq in Hxne.
Qed.

Lemma gcs_entries_elem docs k v :
  (k, v) ∈ Gcs.doc_entries docs ↔ (k, Some v) ∈ docs.
Proof.
  unfold Gcs.doc_entries. rewrite list_elem_of_omap. split.
  - intros ([n [h|]] & Hin & Hs); simpl in Hs; [|done]. by injection Hs as -> ->.
  - intros Hin. by exists (k, Some v).
Qed.

Lemma gcs_entries_NoDup docs : NoDup docs.*1 → NoDup (Gcs.doc_entries docs).*1.
Proof.
  induction docs as [|[n md5] docs IH]; [constructor|].
  rewrite fmap_cons, gcs_doc_entries_cons. intros [Hn Hnd]%NoDup_cons.
  destruct md5 as [h|]; simpl; [|by apply IH].
  apply NoDup_cons. split; [|by apply IH].
  intros Hin. apply Hn. by apply gcs_entry_names.
Qed.

Lemma filter_fst_NoDup {A B} (P : A * B → Prop) `{∀ x, Decision (P x)} (l : list (A * B)) :
  NoDup l.*1 → NoDup (filter P l).*1.
Proof.
  induction l as [|x l IH]; [constructor|].
  simpl. intros [Hx Hnd]%NoDup_cons. rewrite filter_cons.
  destruct (decide (P x)); [|by apply IH].
  simpl. apply NoDup_cons. split; [|by apply IH].
  intros (y & Hy & [_ Hin]%list_elem_of_filter)%list_elem_of_fmap.
  apply Hx. apply list_elem_of_fmap. by exists y.
Qed.

Lemma NoDup_fst_eq {A B} (l : list (A * B)) x y :
  NoDup l.*1 → x ∈ l → y ∈ l → x.1 = y.1 → x = y.
Proof.
  induction l as [|c l IH]; [by intros _ ?%not_elem_of_nil|].
  simpl. intros [Hc Hnd]%NoDup_cons [->|Hx]%elem_of_cons [->|Hy]%elem_of_cons Heq;
    try done.
  - destruct Hc. rewrite Heq. apply list_elem_of_fmap. by exists y.
  - destruct Hc. rewrite <- Heq. apply list_elem_of_fmap. by exists x.
  - by apply IH.
Qed.

(** After the commits of a pass over documents with distinct names, every
    document that has a fingerprint has it in the ledger. *)
Lemma gcs_after_commits state (cands : list (str * option str)) name h :
  NoDup cands.*1 → (name, Some h) ∈ cands →
  apply_commits state
    (Gcs.doc_entries (filter (λ d, Gcs.classify state d.1 d.2 ≠ UNCHANGED) cands))
    !! name = Some h.
Proof.
  intros Hnd Hin.
  set (docs := filter (λ d, Gcs.classify state d.1 d.2 ≠ UNCHANGED) cands).
  assert (Hnd' : NoDup docs.*1) by by apply filter_fst_NoDup.
  destruct (decide (Gcs.classify state name (Some h) ≠ UNCHANGED)) as [Hne|Heq].
  - apply apply_commits_lookup; [by apply gcs_entries_NoDup|].
    apply gcs_entries_elem. apply list_elem_of_filter. done.
  - apply dec_stable in Heq. rewrite apply_commits_other.
    + unfold Gcs.classify in Heq. destruct (state !! name) as [old|]; [|done].
      destruct (decide (old ≠ h)) as [|Hold]; [done|].
      apply dec_stable in Hold. by subst.
    + intros Hn. apply gcs_entry_names in Hn.
      unfold Gcs.doc_names in Hn. apply list_elem_of_fmap in Hn as (x & Hx1 & Hx).
      apply list_elem_of_filter in Hx as [Hxne Hx].
      assert (x = (name, Some h)) as -> by by apply (NoDup_fst_eq cands).
      simpl in Hxne. by rewrite Heq in Hxne.
Qed.

(** The candidates of a listing: each blob with an allowed extension, with
    its MD5 hash when it has one. *)
Lemma gcs_candidates_elem lower listing name md5 :
  (name, md5) ∈ Gcs.list_candidate_blobs lower listing →
  ∃ b, b ∈ listing ∧ name = Gcs.b_name b ∧
       md5 = if truthy (Gcs.b_md5_hash b) then Gcs.b_md5_hash b else None.
Proof.
  induction listing as [|b listing IH]; cbn [Gcs.list_candidate_blobs];
    [by intros ?%not_elem_of_nil|].
  assert (Hrest : (name, md5) ∈ Gcs.list_candidate_blobs lower listing →
    ∃ b0, b0 ∈ b :: listing ∧ name = Gcs.b_name b0 ∧
          md5 = if truthy (Gcs.b_md5_hash b0) then Gcs.b_md5_hash b0 else None).
  { intros Hin. destruct (IH Hin) as (b0 & ? & ?). exists b0. split; [by right|done]. }
  destruct (negb (existsb _ _)); [done|].
  destruct (truthy (Gcs.b_md5_hash b)) eqn:Ht; cbn [negb].
  - intros [[= -> ->]|Hin]%elem_of_cons; [|by apply Hrest].
    exists b. rewrite Ht. split; [left|done].
  - intros [[= -> ->]|Hin]%elem_of_cons; [|by apply Hrest].
    exists b. rewrite Ht. split; [left|done].
Qed.

Lemma gcs_candidates_names lower listing :
  NoDup (Gcs.b_name <$> listing) →
  NoDup (Gcs.list_candidate_blobs lower listing).*1.
Proof.
  induction listing as [|b listing IH]; [constructor|].
  rewrite fmap_cons. intros [Hb Hnd]%NoDup_cons. cbn [Gcs.list_candidate_blobs].
  assert (Hfresh : Gcs.b_name b ∉ (Gcs.list_candidate_blobs lower listing).*1).
  { intros ([n md5] & Hn & Hin)%list_elem_of_fmap. simpl in Hn. subst n.
    destruct (gcs_candidates_elem _ _ _ _ Hin) as (b0 & Hb0 & Hname & _).
    apply Hb. apply list_elem_of_fmap. by exists b0. }
  destruct (negb (existsb _ _)); [by apply IH|].
  destruct (negb (truthy (Gcs.b_md5_hash b))); rewrite fmap_cons;
    apply NoDup_cons; split; auto.
Qed.

Lemma filter_none {A} (P : A → Prop) `{!∀ x, Decision (P x)} (l : list A) :
  (∀ x, x ∈ l → ¬ P x) → filter P l = [].
Proof.
  induction l as [|a l IH]; intros Hall; [done|].
  rewrite filter_cons, decide_False by (apply Hall; left).
  apply IH. intros x Hx. apply Hall. by right.
Qed.

(** C2 (as amended): after a run that returns, a second run over the same
    documents uploads nothing, provided every enumerated document (a regular
    file of [./data], or a listed blob, with an allowed extension) has a
    fingerprint (as every file of the local corpus has), the documents have
    distinct identifiers, and the ledger and the identifier and fingerprint of
    every enumerated document are well-formed strings.  Nothing is asked of
    the entries and blobs that are not enumerated. *)
Theorem C2_second_run_uploads_nothing lower :
  (∀ env env' display_name display_name' st st1 st2 r2 state entries,
     Local.incremental_index lower env display_name st = (st1, Ret tt) →
     ledger_of (Local.index_state_file st) = Some state →
     Local.data env = Some entries → Local.data env' = Some entries →
     Json.wf_ledger state →
     Forall (λ e, Local.allowed lower (Local.d_name e) = true →
                  Local.d_isfile e = true →
                  Json.well_formed (Local.d_name e) = true ∧
                  Json.well_formed (Local.d_sha256 e) = true) entries →
     NoDup (Local.doc_names
              (Local.enumerated lower (path_join (Local.cwd env) Local.DATA_DIR)
                 entries)) →
     Local.incremental_index lower env' display_name' st1 = (st2, r2) →
     ∃ es, Local.trace st2 = Local.trace st1 ++ es ∧ uploaded es = []) ∧
  (∀ env env' st st1 st2 r2 state,
     Gcs.incremental_index lower env st = (st1, Ret tt) →
     ledger_of (Gcs.index_state_blob st) = Some state →
     Gcs.blobs env' = Gcs.blobs env →
     Json.wf_ledger state →
     Forall (λ d, Json.well_formed d.1 = true ∧
                  ∃ h, d.2 = Some h ∧ Json.well_formed h = true)
       (Gcs.list_candidate_blobs lower (Gcs.blobs env)) →
     NoDup (Gcs.list_candidate_blobs lower (Gcs.blobs env)).*1 →
     Gcs.incremental_index lower env' st1 = (st2, r2) →
     ∃ es, Gcs.trace st2 = Gcs.trace st1 ++ es ∧ uploaded es = []).
Proof.
  split.
  - intros env env' dn dn' st st1 st2 r2 state entries Hrun1 Hstate Hdata Hdata'
      Hwf Hwfe Hnd Hrun2.
    destruct (local_run_spec _ _ _ _ _ _ Hrun1)
      as (es1 & _ & _ & _ & _ & _ & _ & Hloop1).
    destruct (Hloop1 _ _ Hstate Hdata) as (_ & _ & _ & _ & Hret1).
    destruct (Hret1 eq_refl) as (_ & _ & _ & Hdocs). clear Hloop1 Hret1.
    rewrite local_new_or_changed_eq in Hdocs.
    set (dd := path_join (Local.cwd env) Local.DATA_DIR) in *.
    set (cands := Local.enumerated lower dd entries) in *.
    set (docs := filter (λ d, Local.classify state d.1.1 d.2 ≠ UNCHANGED) cands) in *.
    set (state1 := apply_commits state (Local.doc_entries docs)).
    assert (Hstate1 : ledger_of (Local.index_state_file st1) = Some state1).
    { assert (Hcase : (Local.index_state_file st1 = Local.index_state_file st ∧
                       state1 = state) ∨
                      Local.index_state_file st1 = Some (Json.dumps state1)).
      { unfold state1. clearbody docs.
        destruct docs; [left; split; [exact (proj1 Hdocs)|done]|right].
        exact (proj1 Hdocs). }
      destruct Hcase as [[-> ->]| ->]; [exact Hstate|].
      apply ledger_of_dumps, wf_apply_commits; [done|].
      apply Forall_forall. intros [k v] Hin.
      apply list_elem_of_fmap in Hin as (d0 & [= -> ->] & Hd0).
        apply list_elem_of_filter in Hd0 as [_ Hd0].
        apply local_enumerated_elem in Hd0 as (e & He & Ha & Hf & ->). simpl.
        rewrite Forall_forall in Hwfe. by apply Hwfe. }
    destruct (local_run_spec _ _ _ _ _ _ Hrun2)
      as (es2 & Htr2 & _ & _ & _ & _ & _ & Hloop2).
    destruct (Hloop2 _ _ Hstate1 Hdata') as (Hup & _).
    exists es2. split; [done|].
    rewrite local_new_or_changed_eq in Hup.
    replace (filter _ _) with (@nil (str * str * str)) in Hup;
      [by apply prefix_nil_inv in Hup|].
    symmetry. apply filter_none. intros d Hd Hne.
    apply Hne. clear Hne.
    apply local_enumerated_elem in Hd as (e & He & Ha & Hf & ->). simpl.
    assert (Hin : (Local.d_name e, path_join dd (Local.d_name e), Local.d_sha256 e)
                  ∈ cands).
    { apply local_enumerated_elem. by exists e. }
    pose proof (local_after_commits state cands _ Hnd Hin) as Hlook.
    simpl in Hlook. fold docs in Hlook. fold state1 in Hlook.
    unfold Local.classify. rewrite Hlook. by rewrite decide_False by auto.
  - intros env env' st st1 st2 r2 state Hrun1 Hstate Hblobs Hwf Hwfb Hnd Hrun2.
    destruct (gcs_run_spec _ _ _ _ _ Hrun1)
      as (es1 & _ & _ & _ & _ & _ & _ & Hloop1).
    destruct (Hloop1 _ Hstate) as (_ & _ & _ & _ & Hret1).
    destruct (Hret1 eq_refl) as (_ & _ & _ & _ & Hdocs). clear Hloop1 Hret1.
    rewrite gcs_new_or_changed_eq in Hdocs.
    set (cands := Gcs.list_candidate_blobs lower (Gcs.blobs env)) in *.
    set (docs := filter (λ d, Gcs.classify state d.1 d.2 ≠ UNCHANGED) cands) in *.
    set (state1 := apply_commits state (Gcs.doc_entries docs)).
    assert (Hcand : ∀ name md5, (name, md5) ∈ cands →
              Json.well_formed name = true ∧
              ∃ h, md5 = Some h ∧ Json.well_formed h = true).
    { intros name md5 Hin.
      rewrite Forall_forall in Hwfb. apply (Hwfb _ Hin). }
    assert (Hstate1 : ledger_of (Gcs.index_state_blob st1) = Some state1).
    { assert (Hcase : (Gcs.index_state_blob st1 = Gcs.index_state_blob st ∧
                       state1 = state) ∨
                      Gcs.index_state_blob st1 = Some (Json.dumps state1)).
      { unfold state1. clearbody docs.
        destruct docs; [left; split; [exact (proj1 Hdocs)|done]|right].
        exact (proj1 Hdocs). }
      destruct Hcase as [[-> ->]| ->]; [exact Hstate|].
      apply ledger_of_dumps, wf_apply_commits; [done|].
      apply Forall_forall. intros [k v] Hin.
      apply gcs_entries_elem in Hin.
        apply list_elem_of_filter in Hin as [_ Hin].
        destruct (Hcand _ _ Hin) as (Hk & h & [= <-] & Hh). done. }
    destruct (gcs_run_spec _ _ _ _ _ Hrun2)
      as (es2 & Htr2 & _ & _ & _ & _ & _ & Hloop2).
    destruct (Hloop2 _ Hstate1) as (Hup & _).
    exists es2. split; [done|].
    rewrite gcs_new_or_changed_eq, Hblobs in Hup. fold cands in Hup.
    replace (filter _ _) with (@nil (str * option str)) in Hup;
      [by apply prefix_nil_inv in Hup|].
    symmetry. apply filter_none. intros [name md5] Hd Hne.
    apply Hne. clear Hne. simpl.
    destruct (Hcand _ _ Hd) as (_ & h & -> & _).
    pose proof (gcs_after_commits state cands name h Hnd Hd) as Hlook.
    fold docs in Hlook. fold state1 in Hlook.
    unfold Gcs.classify. rewrite Hlook. by rewrite decide_False by auto.
Qed.

(** C3 (as amended): a run that returns commits no fingerprint for a
    document whose fingerprint is absent: the document is uploaded, and its
    entry in the ledger the run writes is what it was in the ledger loaded
    (none, or the fingerprint recorded by an earlier run).  Against that
    ledger, which the next run loads, the document is NEW or CHANGED, as it
    has an entry or not, and so is in [new_or_changed] again. *)
Theorem C3_absent_fingerprint_not_committed lower :
  ∀ env st st' state id,
    Gcs.incremental_index lower env st = (st', Ret tt) →
    ledger_of (Gcs.index_state_blob st) = Some state →
    (id, None) ∈ Gcs.list_candidate_blobs lower (Gcs.blobs env) →
    (∀ fp, (id, fp) ∈ Gcs.list_candidate_blobs lower (Gcs.blobs env) → fp = None) →
    Json.wf_ledger state →
    Forall (λ b, Json.well_formed (Gcs.b_name b) = true ∧
                 ∀ h, Gcs.b_md5_hash b = Some h → Json.well_formed h = true)
      (Gcs.blobs env) →
    ∃ es state',
      Gcs.trace st' = Gcs.trace st ++ es ∧
      id ∈ uploaded es ∧ (id ∉ (committed es).*1) ∧
      ledger_of (Gcs.index_state_blob st') = Some state' ∧
      state' !! id = state !! id ∧
      Gcs.classify state' id None = (if state !! id is Some _ then CHANGED else NEW) ∧
      (id, None) ∈ Gcs.new_or_changed state'
                     (Gcs.list_candidate_blobs lower (Gcs.blobs env)).
Proof.
  intros env st st' state id Hrun Hstate Hin Honly Hwf Hwfb.
  destruct (gcs_run_spec _ _ _ _ _ Hrun)
    as (es & Htr & _ & _ & _ & _ & _ & Hloop).
  destruct (Hloop _ Hstate) as (_ & _ & _ & _ & Hret).
  destruct (Hret eq_refl) as (Hu & Hc & _ & _ & Hdocs). clear Hloop Hret.
  rewrite gcs_new_or_changed_eq in Hu, Hc, Hdocs.
  set (cands := Gcs.list_candidate_blobs lower (Gcs.blobs env)) in *.
  set (docs := filter (λ d, Gcs.classify state d.1 d.2 ≠ UNCHANGED) cands) in *.
  assert (Hlabel : ∀ s, Gcs.classify s id None =
                        if s !! id is Some _ then CHANGED else NEW).
  { intros s. unfold Gcs.classify. by destruct (s !! id). }
  assert (Hdoc : (id, None) ∈ docs).
  { apply list_elem_of_filter. split; [|done]. simpl. rewrite Hlabel.
    by destruct (state !! id). }
  assert (Hnot : id ∉ (Gcs.doc_entries docs).*1).
  { intros ([k v] & -> & Hkv)%list_elem_of_fmap. simpl in *.
    apply gcs_entries_elem in Hkv. apply list_elem_of_filter in Hkv as [_ Hkv].
    by specialize (Honly _ Hkv). }
  assert (Hfile : Gcs.index_state_blob st' =
                  Some (Json.dumps (apply_commits state (Gcs.doc_entries docs)))).
  { clearbody docs. destruct docs; [by apply not_elem_of_nil in Hdoc|].
    exact (proj1 Hdocs). }
  exists es, (apply_commits state (Gcs.doc_entries docs)).
  split; [done|].
  split. { rewrite Hu. unfold Gcs.doc_names. apply list_elem_of_fmap.
           by exists (id, None). }
  split; [by rewrite Hc|].
  split.
  { rewrite Hfile. apply ledger_of_dumps, wf_apply_commits; [done|].
    apply Forall_forall. intros [k v] Hkv. apply gcs_entries_elem in Hkv.
    apply list_elem_of_filter in Hkv as [_ Hkv].
    destruct (gcs_candidates_elem _ _ _ _ Hkv) as (b & Hb & -> & Hmd5).
    rewrite Forall_forall in Hwfb. destruct (Hwfb _ Hb) as [Hn Hh].
    split; [done|]. simpl. apply Hh.
    by destruct (truthy (Gcs.b_md5_hash b)). }
  split; [by apply apply_commits_other|].
  split; [by rewrite Hlabel, apply_commits_other|].
  rewrite gcs_new_or_changed_eq. apply list_elem_of_filter. split; [|done].
  simpl. rewrite Hlabel. by destruct (_ !! id).
Qed.

(** The text of a ledger depends on its items only, not on the order in
    which the dictionary yields them. *)
Lemma dumps_items_order l1 l2 : l1 ≡ₚ l2 → Json.dumps_items l1 = Json.dumps_items l2.
Proof.
  intros Hp. unfold Json.dumps_items. rewrite (sorted_unique _ _ Hp).
  destruct l1 as [|x l1], l2 as [|y l2]; try done.
  - by apply Permutation_nil_cons in Hp.
  - symmetry in Hp. by apply Permutation_nil_cons in Hp.
Qed.

Lemma local_save_load state st :
  Json.wf_ledger state →
  ∃ st1, Local.save_index_state state st = (st1, Ret tt) ∧
         Local.index_state_file st1 = Some (Json.dumps state) ∧
         (v <- Local.load_index_state;; Local.typed v) st1 = (st1, Ret state).
Proof.
  intros Hwf. eexists. split; [reflexivity|]. split; [reflexivity|].
  pose proof (ledger_roundtrip _ Hwf) as Hrt.
  unfold bind, Local.load_index_state, Local.typed. simpl.
  destruct (Json.loads (Json.dumps state)) as [v|]; [|done]. simpl in Hrt.
  by rewrite Hrt.
Qed.

Lemma gcs_save_load state st :
  Json.wf_ledger state →
  ∃ st1, Gcs.save_index_state_to_gcs state st = (st1, Ret tt) ∧
         Gcs.index_state_blob st1 = Some (Json.dumps state) ∧
         (v <- Gcs.load_index_state_from_gcs;; Gcs.typed v) st1 = (st1, Ret state).
Proof.
  intros Hwf. eexists. split; [reflexivity|]. split; [reflexivity|].
  pose proof (ledger_roundtrip _ Hwf) as Hrt.
  unfold bind, Gcs.load_index_state_from_gcs, Gcs.typed. simpl.
  destruct (Json.loads (Json.dumps state)) as [v|]; [|done]. simpl in Hrt.
  by rewrite Hrt.
Qed.

(** C4: for a ledger of well-formed strings, saving it and loading it back
    (the file or the blob that the save wrote, read at the type of the
    ledger) returns the same mapping.  The text written depends on the mapping
    only, whatever order the dictionary yields its items in, and lists the
    entries by strictly increasing key (by code point), between braces, [{}]
    for the empty ledger. *)
Theorem C4_ledger_round_trip :
  (∀ state st, Json.wf_ledger state →
     ∃ st1, Local.save_index_state state st = (st1, Ret tt) ∧
       Local.index_state_file st1 = Some (Json.dumps state) ∧
       (v <- Local.load_index_state;; Local.typed v) st1 = (st1, Ret state)) ∧
  (∀ state st, Json.wf_ledger state →
     ∃ st1, Gcs.save_index_state_to_gcs state st = (st1, Ret tt) ∧
       Gcs.index_state_blob st1 = Some (Json.dumps state) ∧
       (v <- Gcs.load_index_state_from_gcs;; Gcs.typed v) st1 = (st1, Ret state)) ∧
  (∀ state state', Json.wf_ledger state → Json.wf_ledger state' →
     Json.dumps state = Json.dumps state' → state = state') ∧
  (∀ (state : gmap str str) items,
     items ≡ₚ map_to_list state → Json.dumps_items items = Json.dumps state) ∧
  (∀ state : gmap str str,
     let items := sorted (map_to_list state) in
     items ≡ₚ map_to_list state ∧
     StronglySorted (λ a b, str_ltb a b = true) items.*1 ∧
     Json.dumps state =
     match items with
     | [] => py:"{}"
     | _ :: _ => py:"{" ++ Json.encode_items true items ++ [10] ++ py:"}"
     end).
Proof.
  split; [exact local_save_load|]. split; [exact gcs_save_load|].
  split; [|split].
  - intros state state' Hwf Hwf' Heq.
    pose proof (ledger_of_dumps _ Hwf) as H1.
    pose proof (ledger_of_dumps _ Hwf') as H2.
    rewrite Heq in H1. congruence.
  - intros state items Hp. by apply dumps_items_order.
  - intros state items. split; [apply sorted_Permutation|].
    split; [apply sorted_keys_increase, NoDup_fst_map_to_list|].
    unfold Json.dumps, Json.dumps_items. fold items.
    pose proof (sorted_Permutation (map_to_list state)) as Hp. fold items in Hp.
    destruct (map_to_list state) as [|kv l].
    + apply Permutation_nil_r in Hp. by rewrite Hp.
    + destruct items as [|kv' items']; [|done].
      by apply Permutation_nil_cons in Hp.
Qed.

(** *** The claims on sample runs *)

(** C2, as stated, fails on the bucket: a document without MD5 hash is
    uploaded again by a second run that follows a run that returned, with
    nothing changed in between. *)
Lemma C2_absent_fingerprint_counterexample :
  ∃ st1 st2 es,
    Examples.gcs_run Examples.blobs_c Examples.polled_once None = (st1, Ret tt) ∧
    Gcs.incremental_index ascii_lower
      (Examples.gcs_env Examples.blobs_c Examples.polled_once) st1 = (st2, Ret tt) ∧
    Gcs.trace st2 = Gcs.trace st1 ++ es ∧
    uploaded es = [py:"c.pdf"].
Proof.
  set (run1 := Examples.gcs_run Examples.blobs_c Examples.polled_once None).
  set (run2 := Gcs.incremental_index ascii_lower
                 (Examples.gcs_env Examples.blobs_c Examples.polled_once) run1.1).
  exists run1.1, run2.1, (drop (length (Gcs.trace run1.1)) (Gcs.trace run2.1)).
  repeat split; vm_compute; reflexivity.
Qed.

(** C3, as stated, fails twice.  The entry of a document without MD5 hash
    is not unset by a run: it stays what an earlier run recorded.  And when
    the document has no entry, the next run labels it NEW, not CHANGED. *)
Lemma C3_entry_kept_or_new_counterexample :
  (∃ st' state',
     Examples.gcs_run Examples.blobs_c Examples.polled_once
       (Some (Json.dumps Examples.ledger_c)) = (st', Ret tt) ∧
     ledger_of (Gcs.index_state_blob st') = Some state' ∧
     state' !! py:"c.pdf" = Some py:"h1") ∧
  (∃ st' state',
     Examples.gcs_run Examples.blobs_c Examples.polled_once None = (st', Ret tt) ∧
     ledger_of (Gcs.index_state_blob st') = Some state' ∧
     Gcs.classify state' py:"c.pdf" None = NEW).
Proof.
  split.
  - exists (Examples.gcs_run Examples.blobs_c Examples.polled_once
              (Some (Json.dumps Examples.ledger_c))).1, Examples.ledger_c.
    repeat split; vm_compute; reflexivity.
  - exists (Examples.gcs_run Examples.blobs_c Examples.polled_once None).1, ∅.
    repeat split; vm_compute; reflexivity.
Qed.

(** C8: the code does not do what the claim says.  The run over the bucket
    of [c.pdf] whose upload raises ends with the exception of the upload, and
    the temporary copy that the round staged, [/tmp/c.pdf], is still there:
    the removal, which the loop attempts after the polling, is not reached. *)
Theorem C8_copy_left_behind :
  ∃ st',
    Examples.gcs_run Examples.blobs_c Examples.first_upload_raises None =
      (st', Raise (ServiceError Upload)) ∧
    Gcs.tmp (Examples.gcs_st None) = ∅ ∧
    Gcs.tmp st' = {[ py:"/tmp/c.pdf" ]} ∧
    ERemove py:"/tmp/c.pdf" ∉ Gcs.trace st'.
Proof.
  exists (Examples.gcs_run Examples.blobs_c Examples.first_upload_raises None).1.
  repeat split; try (vm_compute; reflexivity).
  apply (bool_decide_unpack _). vm_compute. exact I.
Qed.

(** The well-formedness asked of a ledger cannot be dropped from C4: a high
    surrogate directly before a low one is written as two escapes, which are
    read back as one character. *)
Example surrogates_joined :
  ledger_of (Some (Json.dumps {[ [55357; 56832] := [] ]})) =
  Some {[ [128512] := [] ]}.
Proof. vm_compute. reflexivity. Qed.

(** The run over [a.txt] (unchanged) and [b.txt] (new), on the disk and in
    the bucket, uploads [b.txt] only. *)
Lemma C1_classification_witness :
  (∃ st' es,
     Examples.local_run Examples.polled_once (Some (Json.dumps Examples.ledger_a))
       = (st', Ret tt) ∧
     Local.trace st' = [] ++ es ∧ uploaded es = [py:"b.txt"]) ∧
  (∃ st' es,
     Examples.gcs_run Examples.blobs_ab Examples.polled_once
       (Some (Json.dumps Examples.ledger_a)) = (st', Ret tt) ∧
     Gcs.trace st' = [] ++ es ∧ uploaded es = [py:"b.txt"]).
Proof.
  split.
  - set (run := Examples.local_run Examples.polled_once
                  (Some (Json.dumps Examples.ledger_a))).
    assert (Hrun : run = (run.1, Ret tt)) by (vm_compute; reflexivity).
    destruct (proj2 (proj2 (proj2 (proj2 (proj2 (C1_classification ascii_lower)))))
                _ _ _ _ _ Examples.ledger_a Examples.files_ab Hrun)
      as (es & Htr & _ & Hret); [vm_compute; reflexivity|reflexivity|].
    exists run.1, es. split; [exact Hrun|]. split; [exact Htr|].
    rewrite (Hret eq_refl). vm_compute. reflexivity.
  - set (run := Examples.gcs_run Examples.blobs_ab Examples.polled_once
                  (Some (Json.dumps Examples.ledger_a))).
    assert (Hrun : run = (run.1, Ret tt)) by (vm_compute; reflexivity).
    destruct (proj1 (proj2 (proj2 (proj2 (proj2 (C1_classification ascii_lower)))))
                _ _ _ _ Examples.ledger_a Hrun)
      as (es & Htr & _ & Hret); [vm_compute; reflexivity|].
    exists run.1, es. split; [exact Hrun|]. split; [exact Htr|].
    rewrite (Hret eq_refl). vm_compute. reflexivity.
Defined.

(** After the run over [a.txt] and [b.txt] has returned, a second run over
    the same documents uploads nothing, on the disk and in the bucket; the
    bucket also holds [notes.md], which is no document and has no MD5 hash. *)
Lemma C2_second_run_uploads_nothing_witness :
  (∃ st1 st2 r2 es,
     Examples.local_run Examples.polled_once (Some (Json.dumps Examples.ledger_a))
       = (st1, Ret tt) ∧
     Local.incremental_index ascii_lower
       (Examples.local_env Examples.files_ab Examples.polled_once)
       py:"my_docs_store" st1 = (st2, r2) ∧
     Local.trace st2 = Local.trace st1 ++ es ∧ uploaded es = []) ∧
  (∃ st1 st2 r2 es,
     Examples.gcs_run Samples.blobs_ab_notes Examples.polled_once
       (Some (Json.dumps Examples.ledger_a)) = (st1, Ret tt) ∧
     Gcs.incremental_index ascii_lower
       (Examples.gcs_env Samples.blobs_ab_notes Examples.polled_once) st1 = (st2, r2) ∧
     Gcs.trace st2 = Gcs.trace st1 ++ es ∧ uploaded es = []).
Proof.
  split.
  - set (env := Examples.local_env Examples.files_ab Examples.polled_once).
    set (run1 := Examples.local_run Examples.polled_once
                   (Some (Json.dumps Examples.ledger_a))).
    set (run2 := Local.incremental_index ascii_lower env py:"my_docs_store" run1.1).
    assert (Hrun1 : run1 = (run1.1, Ret tt)) by (vm_compute; reflexivity).
    destruct (proj1 (C2_second_run_uploads_nothing ascii_lower)
                env env py:"my_docs_store" py:"my_docs_store" _ run1.1 run2.1 run2.2
                Examples.ledger_a Examples.files_ab Hrun1)
      as (es & Htr & Hup).
    + vm_compute. reflexivity.
    + reflexivity.
    + reflexivity.
    + apply (bool_decide_unpack _). vm_compute. exact I.
    + apply (bool_decide_unpack _). vm_compute. exact I.
    + apply (bool_decide_unpack _). vm_compute. exact I.
    + apply surjective_pairing.
    + exists run1.1, run2.1, run2.2, es.
      split; [exact Hrun1|]. split; [apply surjective_pairing|]. by split.
  - set (env := Examples.gcs_env Samples.blobs_ab_notes Examples.polled_once).
    set (run1 := Examples.gcs_run Samples.blobs_ab_notes Examples.polled_once
                   (Some (Json.dumps Examples.ledger_a))).
    set (run2 := Gcs.incremental_index ascii_lower env run1.1).
    assert (Hrun1 : run1 = (run1.1, Ret tt)) by (vm_compute; reflexivity).
    destruct (proj2 (C2_second_run_uploads_nothing ascii_lower)
                env env _ run1.1 run2.1 run2.2 Examples.ledger_a Hrun1)
      as (es & Htr & Hup).
    + vm_compute. reflexivity.
    + reflexivity.
    + apply (bool_decide_unpack _). vm_compute. exact I.
    + apply Forall_cons. split.
      { split; [reflexivity|]. exists py:"h1". split; reflexivity. }
      apply Forall_cons. split; [|constructor].
      split; [reflexivity|]. exists py:"h2". split; reflexivity.
    + apply (bool_decide_unpack _). vm_compute. exact I.
    + apply surjective_pairing.
    + exists run1.1, run2.1, run2.2, es.
      split; [exact Hrun1|]. split; [apply surjective_pairing|]. by split.
Defined.

(** The run over a bucket whose only document, [c.pdf], has no MD5 hash,
    from a ledger that holds a fingerprint for it: the document is uploaded,
    its entry stays, and it is CHANGED against the ledger written. *)
Lemma C3_absent_fingerprint_not_committed_witness :
  ∃ st' es state',
    Examples.gcs_run Examples.blobs_c Examples.polled_once
      (Some (Json.dumps Examples.ledger_c)) = (st', Ret tt) ∧
    Gcs.trace st' = [] ++ es ∧
    py:"c.pdf" ∈ uploaded es ∧
    ledger_of (Gcs.index_state_blob st') = Some state' ∧
    state' !! py:"c.pdf" = Examples.ledger_c !! py:"c.pdf" ∧
    Gcs.classify state' py:"c.pdf" None = CHANGED.
Proof.
  set (run := Examples.gcs_run Examples.blobs_c Examples.polled_once
                (Some (Json.dumps Examples.ledger_c))).
  assert (Hrun : run = (run.1, Ret tt)) by (vm_compute; reflexivity).
  destruct (C3_absent_fingerprint_not_committed ascii_lower _ _ _
              Examples.ledger_c py:"c.pdf" Hrun)
    as (es & state' & Htr & Hup & _ & Hfile & Hsame & Hlabel & _).
  - vm_compute. reflexivity.
  - apply (bool_decide_unpack _). vm_compute. exact I.
  - intros fp Hin.
    replace (Gcs.list_candidate_blobs _ _) with [(py:"c.pdf", @None str)] in Hin
      by (vm_compute; reflexivity).
    apply list_elem_of_singleton in Hin. congruence.
  - apply (bool_decide_unpack _). vm_compute. exact I.
  - repeat constructor. intros h Hh. discriminate Hh.
  - exists run.1, es, state'. split; [exact Hrun|]. split; [exact Htr|].
    split; [exact Hup|]. split; [exact Hfile|]. split; [exact Hsame|].
    exact Hlabel.
Defined.

(** Saving the ledger [ledger_a] and loading it back, on the disk and in
    the bucket, and the ledger that its text alone determines. *)
Lemma C4_ledger_round_trip_witness :
  (∃ st1,
     Local.save_index_state Examples.ledger_a (Examples.local_st None) = (st1, Ret tt) ∧
     Local.index_state_file st1 = Some (Json.dumps Examples.ledger_a) ∧
     (v <- Local.load_index_state;; Local.typed v) st1 = (st1, Ret Examples.ledger_a)) ∧
  (∃ st1,
     Gcs.save_index_state_to_gcs Examples.ledger_a (Examples.gcs_st None) = (st1, Ret tt) ∧
     Gcs.index_state_blob st1 = Some (Json.dumps Examples.ledger_a) ∧
     (v <- Gcs.load_index_state_from_gcs;; Gcs.typed v) st1 =
       (st1, Ret Examples.ledger_a)) ∧
  Json.dumps_items [(py:"b.txt", py:"h2"); (py:"a.txt", py:"h1")] =
    Json.dumps {[ py:"a.txt" := py:"h1"; py:"b.txt" := py:"h2" ]}.
Proof.
  split; [|split].
  - apply (proj1 C4_ledger_round_trip Examples.ledger_a (Examples.local_st None)).
    apply (bool_decide_unpack _). vm_compute. exact I.
  - apply (proj1 (proj2 C4_ledger_round_trip) Examples.ledger_a (Examples.gcs_st None)).
    apply (bool_decide_unpack _). vm_compute. exact I.
  - apply (proj1 (proj2 (proj2 (proj2 C4_ledger_round_trip)))).
    apply (bool_decide_unpack _). vm_compute. exact I.
Defined.

(** The run on a ledger that is no JSON text ends with the decoding error,
    on the disk and in the bucket, and the ledger stays as it was. *)
Lemma C6_malformed_ledger_aborts_witness :
  (∃ st' es,
     Examples.local_run Examples.polled_once (Some Examples.torn_ledger)
       = (st', Raise JSONDecodeError) ∧
     Local.index_state_file st' = Some Examples.torn_ledger ∧
     Local.trace st' = [] ++ es ∧
     uploaded es = [] ∧ committed es = [] ∧ saved es = []) ∧
  (∃ st' es,
     Examples.gcs_run Examples.blobs_ab Examples.polled_once (Some Examples.torn_ledger)
       = (st', Raise JSONDecodeError) ∧
     Gcs.index_state_blob st' = Some Examples.torn_ledger ∧
     Gcs.trace st' = [] ++ es ∧
     uploaded es = [] ∧ committed es = [] ∧ saved es = []).
Proof.
  split.
  - set (run := Examples.local_run Examples.polled_once (Some Examples.torn_ledger)).
    assert (Hrun : run = (run.1, Raise JSONDecodeError)) by (vm_compute; reflexivity).
    destruct (proj1 (proj2 (proj2 (C6_malformed_ledger_aborts ascii_lower)))
                _ _ _ _ _ Examples.torn_ledger Hrun)
      as (_ & Hfile & es & Htr & Hes); [reflexivity|vm_compute; reflexivity|].
    exists run.1, es. split; [exact Hrun|]. split; [exact Hfile|].
    split; [exact Htr|exact Hes].
  - set (run := Examples.gcs_run Examples.blobs_ab Examples.polled_once
                  (Some Examples.torn_ledger)).
    assert (Hrun : run = (run.1, Raise JSONDecodeError)) by (vm_compute; reflexivity).
    destruct (proj2 (proj2 (proj2 (proj2 (proj2 (C6_malformed_ledger_aborts ascii_lower)))))
                _ _ _ _ Examples.torn_ledger Hrun)
      as (_ & Hfile & es & Htr & Hes); [reflexivity|vm_compute; reflexivity|].
    exists run.1, es. split; [exact Hrun|]. split; [exact Hfile|].
    split; [exact Htr|exact Hes].
Defined.

(** The run whose first upload raises ends with an exception and leaves
    the ledger as it was, on the disk and in the bucket. *)
Lemma C7_commit_after_done_and_save_last_witness :
  (∃ st' r es,
     Examples.local_run Examples.first_upload_raises
       (Some (Json.dumps Examples.ledger_a)) = (st', r) ∧
     Local.trace st' = [] ++ es ∧ commits_follow_done es ∧
     (∃ e, r = Raise e) ∧
     Local.index_state_file st' = Some (Json.dumps Examples.ledger_a) ∧
     saved es = []) ∧
  (∃ st' r es,
     Examples.gcs_run Examples.blobs_ab Examples.first_upload_raises
       (Some (Json.dumps Examples.ledger_a)) = (st', r) ∧
     Gcs.trace st' = [] ++ es ∧ commits_follow_done es ∧
     (∃ e, r = Raise e) ∧
     Gcs.index_state_blob st' = Some (Json.dumps Examples.ledger_a) ∧
     saved es = []).
Proof.
  split.
  - set (run := Examples.local_run Examples.first_upload_raises
                  (Some (Json.dumps Examples.ledger_a))).
    destruct (proj1 (C7_commit_after_done_and_save_last ascii_lower)
                _ _ _ run.1 run.2 (surjective_pairing run))
      as (es & Htr & Hcfd & _ & Hnr & Hfail).
    destruct (Hfail Examples.ledger_a Examples.files_ab 0%nat) as [Hne Hraise].
    + vm_compute. reflexivity.
    + reflexivity.
    + vm_compute. lia.
    + left. reflexivity.
    + exists run.1, run.2, es. split; [apply surjective_pairing|].
      split; [exact Htr|]. split; [exact Hcfd|].
      split; [apply Hraise; intros j Hj; lia|]. exact (Hnr Hne).
  - set (run := Examples.gcs_run Examples.blobs_ab Examples.first_upload_raises
                  (Some (Json.dumps Examples.ledger_a))).
    destruct (proj2 (C7_commit_after_done_and_save_last ascii_lower)
                _ _ run.1 run.2 (surjective_pairing run))
      as (es & Htr & Hcfd & _ & Hnr & Hfail).
    destruct (Hfail Examples.ledger_a 0%nat) as [Hne Hraise].
    + vm_compute. reflexivity.
    + vm_compute. lia.
    + reflexivity.
    + left. reflexivity.
    + exists run.1, run.2, es. split; [apply surjective_pairing|].
      split; [exact Htr|]. split; [exact Hcfd|].
      split; [apply Hraise; intros j Hj; lia|]. exact (Hnr Hne).
Defined.

(** The run over [a.txt] (unchanged) and [b.txt] (new) writes a ledger in
    which the entry of [a.txt], which it did not upload, is what it was. *)
Lemma C10_entries_retained_witness :
  (∃ st' state',
     Examples.local_run Examples.polled_once (Some (Json.dumps Examples.ledger_a))
       = (st', Ret tt) ∧
     Local.index_state_file st' = Some (Json.dumps state') ∧
     state' !! py:"a.txt" = Some py:"h1") ∧
  (∃ st' state',
     Examples.gcs_run Examples.blobs_ab Examples.polled_once
       (Some (Json.dumps Examples.ledger_a)) = (st', Ret tt) ∧
     Gcs.index_state_blob st' = Some (Json.dumps state') ∧
     state' !! py:"a.txt" = Some py:"h1").
Proof.
  split.
  - set (run := Examples.local_run Examples.polled_once
                  (Some (Json.dumps Examples.ledger_a))).
    assert (Hrun : run = (run.1, Ret tt)) by (vm_compute; reflexivity).
    destruct (proj1 (C10_entries_retained ascii_lower) _ _ _ _ _
                Examples.ledger_a Examples.files_ab Hrun)
      as (es & Htr & [[_ Hsaved]|(state' & _ & Hfile & _ & Hkept & _)] & _).
    + vm_compute. reflexivity.
    + reflexivity.
    + simpl in Htr. rewrite <- Htr in Hsaved. vm_compute in Hsaved.
      discriminate Hsaved.
    + exists run.1, state'. split; [exact Hrun|]. split; [exact Hfile|].
      rewrite Hkept; [reflexivity|]. simpl in Htr. rewrite <- Htr.
      apply (bool_decide_unpack _). vm_compute. exact I.
  - set (run := Examples.gcs_run Examples.blobs_ab Examples.polled_once
                  (Some (Json.dumps Examples.ledger_a))).
    assert (Hrun : run = (run.1, Ret tt)) by (vm_compute; reflexivity).
    destruct (proj2 (C10_entries_retained ascii_lower) _ _ _ _
                Examples.ledger_a Hrun)
      as (es & Htr & [[_ Hsaved]|(state' & _ & Hfile & _ & Hkept & _)] & _).
    + vm_compute. reflexivity.
    + simpl in Htr. rewrite <- Htr in Hsaved. vm_compute in Hsaved.
      discriminate Hsaved.
    + exists run.1, state'. split; [exact Hrun|]. split; [exact Hfile|].
      rewrite Hkept; [reflexivity|]. simpl in Htr. rewrite <- Htr.
      apply (bool_decide_unpack _). vm_compute. exact I.
Defined.

End Reconciler.

(** ** How a run ends *)

Section Exits.
Import Py Run Trace.

(** The part of a run of the local indexer after the ledger is loaded. *)
Lemma local_core_cases lower env store state st1 st' r :
  match Local.data env with
  | None => raise DataDirNotFound
  | Some entries =>
      let '(log, new_or_changed) :=
        Local.detect lower state (path_join (Local.cwd env) Local.DATA_DIR) entries in
      Local.tell log;;;
      match new_or_changed with
      | [] => ret tt
      | _ :: _ =>
          state' <- Local.upload_all env store 0 new_or_changed state;;
          Local.save_index_state state'
      end
  end st1 = (st', r) →
  (Local.data env = None ∧ r = Raise DataDirNotFound ∧ st' = st1) ∨
  (∃ entries, Local.data env = Some entries ∧
     (r = Ret tt ∨ r = Hang ∨ r = Raise (ServiceError Upload) ∨
      r = Raise (ServiceError OperationsGet)) ∧
     (r ≠ Ret tt →
        Local.new_or_changed lower state
          (path_join (Local.cwd env) Local.DATA_DIR) entries ≠ [])).
Proof.
  intros Hrun. destruct (Local.data env) as [entries|] eqn:Hdata.
  2:{ injection Hrun as <- <-. by left. }
  right. exists entries. split; [done|].
  unfold Local.new_or_changed.
  destruct (Local.detect lower state _ entries) as [lg docs]. simpl.
  unfold bind at 1 in Hrun. unfold Local.tell in Hrun.
  destruct docs as [|d docs]; [injection Hrun as <- <-; split; [by left|done]|].
  split; [|done].
  unfold bind in Hrun.
  destruct (Local.upload_all env store 0 (d :: docs) state (Local.log st1 lg))
    as [st2 r2] eqn:Hloop.
  destruct (local_upload_all_spec _ _ _ _ _ _ _ _ Hloop)
    as (es & -> & _ & _ & _ & _ & _ & _ & Hr).
  destruct r2 as [state'|e| |]; [| | |done].
  - unfold Local.save_index_state in Hrun. injection Hrun as <- <-. by left.
  - injection Hrun as <- <-. destruct Hr as [-> | ->]; auto.
  - injection Hrun as <- <-. auto.
Qed.

(** With a ledger file that holds a ledger, the cast in the detection loop
    returns it. *)
Lemma local_cast_loaded lower env store st1 v state :
  Json.as_ledger v = Some state →
  match Local.data env with
  | None => raise DataDirNotFound
  | Some entries =>
      state <- Local.typed v;;
      let '(log, new_or_changed) :=
        Local.detect lower state (path_join (Local.cwd env) Local.DATA_DIR) entries in
      Local.tell log;;;
      match new_or_changed with
      | [] => ret tt
      | _ :: _ =>
          state' <- Local.upload_all env store 0 new_or_changed state;;
          Local.save_index_state state'
      end
  end st1 =
  match Local.data env with
  | None => raise DataDirNotFound
  | Some entries =>
      let '(log, new_or_changed) :=
        Local.detect lower state (path_join (Local.cwd env) Local.DATA_DIR) entries in
      Local.tell log;;;
      match new_or_changed with
      | [] => ret tt
      | _ :: _ =>
          state' <- Local.upload_all env store 0 new_or_changed state;;
          Local.save_index_state state'
      end
  end st1.
Proof.
  intros Hv. destruct (Local.data env); [|done].
  unfold bind at 1. unfold Local.typed. by rewrite Hv.
Qed.

(** The part of a run of the local indexer after the store is resolved. *)
Lemma local_tail_cases lower env store st1 st' r :
  (v <- Local.load_index_state;;
   match Local.data env with
   | None => raise DataDirNotFound
   | Some entries =>
       state <- Local.typed v;;
       let '(log, new_or_changed) :=
         Local.detect lower state (path_join (Local.cwd env) Local.DATA_DIR) entries in
       Local.tell log;;;
       match new_or_changed with
       | [] => ret tt
       | _ :: _ =>
           state' <- Local.upload_all env store 0 new_or_changed state;;
           Local.save_index_state state'
       end
   end) st1 = (st', r) →
  (∃ text, Local.index_state_file st1 = Some text ∧ Json.loads text = None ∧
     r = Raise JSONDecodeError ∧ st' = st1) ∨
  (ledger_of (Local.index_state_file st1) = None ∧
   (∃ text, Local.index_state_file st1 = Some text ∧ Json.loads text ≠ None) ∧
   st' = st1 ∧
   ((Local.data env = None ∧ r = Raise DataDirNotFound) ∨
    (is_Some (Local.data env) ∧ r = OutOfModel))) ∨
  (∃ state, ledger_of (Local.index_state_file st1) = Some state ∧
     ((Local.data env = None ∧ r = Raise DataDirNotFound ∧ st' = st1) ∨
      (∃ entries, Local.data env = Some entries ∧
         (r = Ret tt ∨ r = Hang ∨ r = Raise (ServiceError Upload) ∨
          r = Raise (ServiceError OperationsGet)) ∧
         (r ≠ Ret tt →
            Local.new_or_changed lower state
              (path_join (Local.cwd env) Local.DATA_DIR) entries ≠ [])))).
Proof.
  intros Hrun.
  unfold bind at 1 in Hrun. unfold Local.load_index_state in Hrun.
  destruct (Local.index_state_file st1) as [text|] eqn:Hfile.
  - destruct (Json.loads text) as [v|] eqn:Hloads.
    + destruct (Json.as_ledger v) as [state|] eqn:Hledger.
      * rewrite (local_cast_loaded _ _ _ _ _ _ Hledger) in Hrun.
        right. right. exists state. split; [simpl; by rewrite Hloads|].
        by eapply local_core_cases.
      * right. left. split; [simpl; by rewrite Hloads|].
        split; [exists text; split; [done|congruence]|].
        destruct (Local.data env) as [entries|].
        -- unfold bind at 1 in Hrun. unfold Local.typed in Hrun.
           rewrite Hledger in Hrun. injection Hrun as <- <-.
           split; [done|]. right. split; [by eexists|done].
        -- injection Hrun as <- <-. split; [done|]. by left.
    + injection Hrun as <- <-. left. by exists text.
  - rewrite (local_cast_loaded _ _ _ _ (Json.JObj []) ∅ eq_refl) in Hrun.
    right. right. exists ∅. split; [done|]. by eapply local_core_cases.
Qed.

Lemma local_tail_store lower env store st1 st' r :
  (v <- Local.load_index_state;;
   match Local.data env with
   | None => raise DataDirNotFound
   | Some entries =>
       state <- Local.typed v;;
       let '(log, new_or_changed) :=
         Local.detect lower state (path_join (Local.cwd env) Local.DATA_DIR) entries in
       Local.tell log;;;
       match new_or_changed with
       | [] => ret tt
       | _ :: _ =>
           state' <- Local.upload_all env store 0 new_or_changed state;;
           Local.save_index_state state'
       end
   end) st1 = (st', r) →
  Local.store_name_file st' = Local.store_name_file st1 ∧
  ∃ es, Local.trace st' = Local.trace st1 ++ es ∧ created es = [].
Proof.
  intros Hrun.
  unfold bind at 1 in Hrun. unfold Local.load_index_state in Hrun.
  assert (Hsame : (st', r) = (st1, r) →
            Local.store_name_file st' = Local.store_name_file st1 ∧
            ∃ es, Local.trace st' = Local.trace st1 ++ es ∧ created es = []).
  { intros [= ->]. split; [done|]. exists []. by rewrite app_nil_r. }
  destruct (Local.index_state_file st1) as [text|].
  - destruct (Json.loads text) as [v|]; [|injection Hrun as <- <-; by apply Hsame].
    destruct (Json.as_ledger v) as [state|] eqn:Hledger.
    + rewrite (local_cast_loaded _ _ _ _ _ _ Hledger) in Hrun.
      destruct (local_core_spec _ _ _ _ _ _ _ Hrun) as (? & es & ? & _ & ? & _).
      split; [done|]. by exists es.
    + destruct (Local.data env); [|injection Hrun as <- <-; by apply Hsame].
      unfold bind at 1 in Hrun. unfold Local.typed in Hrun.
      rewrite Hledger in Hrun. injection Hrun as <- <-. by apply Hsame.
  - rewrite (local_cast_loaded _ _ _ _ (Json.JObj []) ∅ eq_refl) in Hrun.
    destruct (local_core_spec _ _ _ _ _ _ _ Hrun) as (? & es & ? & _ & ? & _).
    split; [done|]. by exists es.
Qed.

(** The stages of a run of the local indexer. *)
Lemma local_run_cases lower env dn st st' r :
  Local.incremental_index lower env dn st = (st', r) →
  (truthy (or_else (Local.GOOGLE_API_KEY env) (Local.GEMINI_API_KEY env)) = false ∧
   r = Raise MissingApiKey ∧ st' = st) ∨
  (truthy (or_else (Local.GOOGLE_API_KEY env) (Local.GEMINI_API_KEY env)) = true ∧
   ((Local.load_or_create_store env dn st = (st', Raise (ServiceError CreateStore)) ∧
     r = Raise (ServiceError CreateStore)) ∨
    (∃ st1 store,
       Local.load_or_create_store env dn st = (st1, Ret store) ∧
       Local.store_name_file st' = Local.store_name_file st1 ∧
       (∃ es, Local.trace st' = Local.trace st1 ++ es ∧ created es = []) ∧
       ((∃ text, Local.index_state_file st = Some text ∧ Json.loads text = None ∧
           r = Raise JSONDecodeError ∧ st' = st1) ∨
        (ledger_of (Local.index_state_file st) = None ∧
         (∃ text, Local.index_state_file st = Some text ∧ Json.loads text ≠ None) ∧
         st' = st1 ∧
         ((Local.data env = None ∧ r = Raise DataDirNotFound) ∨
          (is_Some (Local.data env) ∧ r = OutOfModel))) ∨
        (∃ state, ledger_of (Local.index_state_file st) = Some state ∧
           ((Local.data env = None ∧ r = Raise DataDirNotFound ∧ st' = st1) ∨
            (∃ entries, Local.data env = Some entries ∧
               (r = Ret tt ∨ r = Hang ∨ r = Raise (ServiceError Upload) ∨
                r = Raise (ServiceError OperationsGet)) ∧
               (r ≠ Ret tt →
                  Local.new_or_changed lower state
                    (path_join (Local.cwd env) Local.DATA_DIR) entries ≠ [])))))))).
Proof.
  intros Hrun. unfold Local.incremental_index in Hrun.
  unfold bind at 1 in Hrun. unfold Local.make_client in Hrun.
  destruct (truthy (or_else (Local.GOOGLE_API_KEY env) (Local.GEMINI_API_KEY env)))
    eqn:Hkey.
  2:{ injection Hrun as <- <-. by left. }
  right. split; [done|].
  simpl in Hrun. unfold bind at 1 in Hrun.
  destruct (Local.load_or_create_store env dn st) as [st1 ro] eqn:Hstore.
  assert (Hfile : Local.index_state_file st1 = Local.index_state_file st).
  { rewrite local_store_eq in Hstore.
    destruct (strip <$> Local.store_name_file st) as [[|c name]|];
      [|by injection Hstore as <- <-|];
      destruct (Local.create_store env); by injection Hstore as <- <-. }
  assert (Hro : ro = Raise (ServiceError CreateStore) ∨ ∃ store, ro = Ret store).
  { rewrite local_store_eq in Hstore.
    destruct (strip <$> Local.store_name_file st) as [[|c name]|];
      [|injection Hstore as <- <-; eauto|];
      destruct (Local.create_store env); injection Hstore as <- <-; eauto. }
  destruct Hro as [-> | [store ->]].
  - injection Hrun as <- <-. by left.
  - right. exists st1, store. split; [done|].
    destruct (local_tail_store _ _ _ _ _ _ Hrun) as [Hname Hes].
    split; [done|]. split; [done|].
    rewrite <- Hfile. by eapply local_tail_cases.
Qed.

(** The part of a run of the bucket indexer after the ledger is loaded. *)
Lemma gcs_core_cases lower env store state st1 st' r :
  (let '(log, new_or_changed) :=
     Gcs.detect state (Gcs.list_candidate_blobs lower (Gcs.blobs env)) in
   Gcs.tell log;;;
   match new_or_changed with
   | [] => ret tt
   | _ :: _ =>
       state' <- Gcs.upload_all env store 0 new_or_changed state;;
       Gcs.save_index_state_to_gcs state'
   end) st1 = (st', r) →
  Gcs.store_name_blob st' = Gcs.store_name_blob st1 ∧
  (∃ es, Gcs.trace st' = Gcs.trace st1 ++ es ∧ created es = []) ∧
  (r = Ret tt ∨ r = Hang ∨ r = Raise (ServiceError Download) ∨
   r = Raise (ServiceError Upload) ∨ r = Raise (ServiceError OperationsGet)) ∧
  (r ≠ Ret tt →
     Gcs.new_or_changed state (Gcs.list_candidate_blobs lower (Gcs.blobs env)) ≠ []).
Proof.
  intros Hrun. unfold Gcs.new_or_changed.
  rewrite gcs_detect_eq in *. simpl.
  set (cands := Gcs.list_candidate_blobs lower (Gcs.blobs env)) in *.
  destruct (classify_log_quiet (λ d : str * option str, d.1)
              (λ d, Gcs.classify state d.1 d.2) cands) as (_ & _ & _ & Hl4).
  set (lg := (λ d : str * option str, EClassify d.1 (Gcs.classify state d.1 d.2))
               <$> cands) in *.
  unfold bind at 1 in Hrun. unfold Gcs.tell in Hrun.
  destruct (filter _ cands) as [|d docs].
  { injection Hrun as <- <-. split; [done|]. split; [by exists lg|].
    split; [by left|done]. }
  unfold bind in Hrun.
  destruct (Gcs.upload_all env store 0 (d :: docs) state (Gcs.log st1 lg))
    as [st2 r2] eqn:Hloop.
  destruct (gcs_upload_all_spec _ _ _ _ _ _ _ _ Hloop)
    as (Hn & _ & es & Htr & _ & _ & _ & Hcr & _ & _ & Hr).
  assert (Hes : Gcs.trace st2 = Gcs.trace st1 ++ lg ++ es ∧ created (lg ++ es) = []).
  { split; [rewrite Htr; simpl; by rewrite app_assoc|].
    by rewrite created_app, Hl4, Hcr. }
  destruct Hes as [Htr2 Hcr2].
  destruct r2 as [state'|e| |]; [| | |done].
  - unfold Gcs.save_index_state_to_gcs in Hrun. injection Hrun as <- <-. simpl.
    split; [done|]. split.
    { exists ((lg ++ es) ++ [ESave (Json.dumps state')]).
      split; [by rewrite Htr2, !app_assoc|]. by rewrite created_app, Hcr2. }
    split; [by left|done].
  - injection Hrun as <- <-. split; [done|]. split; [by exists (lg ++ es)|].
    split; [|done]. destruct Hr as [-> | [-> | ->]]; auto.
  - injection Hrun as <- <-. split; [done|]. split; [by exists (lg ++ es)|].
    split; [auto|done].
Qed.

(** The stages of a run of the bucket indexer. *)
Lemma gcs_run_cases lower env st st' r :
  Gcs.incremental_index lower env st = (st', r) →
  (truthy (or_else (Gcs.GOOGLE_API_KEY env) (Gcs.GEMINI_API_KEY env)) = false ∧
   r = Raise MissingApiKey ∧ st' = st) ∨
  (truthy (or_else (Gcs.GOOGLE_API_KEY env) (Gcs.GEMINI_API_KEY env)) = true ∧
   ((Gcs.bucket_exists env = false ∧ r = Raise BucketNotFound ∧ st' = st) ∨
    (Gcs.bucket_exists env = true ∧
     ((Gcs.load_or_create_store env st = (st', Raise (ServiceError CreateStore)) ∧
       r = Raise (ServiceError CreateStore)) ∨
      (∃ st1 store,
         Gcs.load_or_create_store env st = (st1, Ret store) ∧
         Gcs.store_name_blob st' = Gcs.store_name_blob st1 ∧
         (∃ es, Gcs.trace st' = Gcs.trace st1 ++ es ∧ created es = []) ∧
         ((∃ text, Gcs.index_state_blob st = Some text ∧ Json.loads text = None ∧
             r = Raise JSONDecodeError ∧ st' = st1) ∨
          (ledger_of (Gcs.index_state_blob st) = None ∧ r = OutOfModel ∧ st' = st1) ∨
          (∃ state, ledger_of (Gcs.index_state_blob st) = Some state ∧
             (r = Ret tt ∨ r = Hang ∨ r = Raise (ServiceError Download) ∨
              r = Raise (ServiceError Upload) ∨
              r = Raise (ServiceError OperationsGet)) ∧
             (r ≠ Ret tt →
                Gcs.new_or_changed state
                  (Gcs.list_candidate_blobs lower (Gcs.blobs env)) ≠ [])))))))).
Proof.
  intros Hrun. unfold Gcs.incremental_index in Hrun.
  unfold bind at 1 in Hrun. unfold Gcs.make_genai_client in Hrun.
  destruct (truthy (or_else (Gcs.GOOGLE_API_KEY env) (Gcs.GEMINI_API_KEY env)))
    eqn:Hkey.
  2:{ injection Hrun as <- <-. by left. }
  right. split; [done|].
  simpl in Hrun. unfold bind at 1 in Hrun. unfold Gcs.get_bucket in Hrun.
  destruct (Gcs.bucket_exists env) eqn:Hbucket.
  2:{ injection Hrun as <- <-. by left. }
  right. split; [done|].
  simpl in Hrun. unfold bind at 1 in Hrun.
  destruct (Gcs.load_or_create_store env st) as [st1 ro] eqn:Hstore.
  assert (Hfile : Gcs.index_state_blob st1 = Gcs.index_state_blob st).
  { rewrite gcs_store_eq in Hstore.
    destruct (strip <$> Gcs.store_name_blob st) as [[|c name]|];
      [|by injection Hstore as <- <-|];
      destruct (Gcs.create_store env); by injection Hstore as <- <-. }
  assert (Hro : ro = Raise (ServiceError CreateStore) ∨ ∃ store, ro = Ret store).
  { rewrite gcs_store_eq in Hstore.
    destruct (strip <$> Gcs.store_name_blob st) as [[|c name]|];
      [|injection Hstore as <- <-; eauto|];
      destruct (Gcs.create_store env); injection Hstore as <- <-; eauto. }
  destruct Hro as [-> | [store ->]].
  - injection Hrun as <- <-. by left.
  - right. exists st1, store. split; [done|].
    assert (Hsame : (st', r) = (st1, r) →
              Gcs.store_name_blob st' = Gcs.store_name_blob st1 ∧
              ∃ es, Gcs.trace st' = Gcs.trace st1 ++ es ∧ created es = []).
    { intros [= ->]. split; [done|]. exists []. by rewrite app_nil_r. }
    unfold bind at 1 in Hrun. unfold Gcs.load_index_state_from_gcs in Hrun.
    rewrite Hfile in Hrun.
    destruct (Gcs.index_state_blob st) as [text|] eqn:Hblob.
    + destruct (Json.loads text) as [v|] eqn:Hloads.
      * unfold bind at 1 in Hrun. unfold Gcs.typed in Hrun.
        destruct (Json.as_ledger v) as [state|] eqn:Hledger.
        -- destruct (gcs_core_cases _ _ _ _ _ _ _ Hrun) as (? & ? & ? & ?).
           do 2 (split; [done|]). right. right. exists state.
           split; [simpl; by rewrite Hloads|done].
        -- injection Hrun as <- <-. destruct (Hsame eq_refl).
           do 2 (split; [done|]). right. left. simpl. by rewrite Hloads.
      * injection Hrun as <- <-. destruct (Hsame eq_refl).
        do 2 (split; [done|]). left. by exists text.
    + unfold bind at 1 in Hrun. unfold Gcs.typed in Hrun. simpl in Hrun.
      destruct (gcs_core_cases _ _ _ _ _ _ _ Hrun) as (? & ? & ? & ?).
      do 2 (split; [done|]). right. right. by exists ∅.
Qed.

(** X1: a run of either indexer ends with the missing-key error exactly when
    neither [GOOGLE_API_KEY] nor [GEMINI_API_KEY] holds a non-empty string (an
    empty [GOOGLE_API_KEY] falls back on [GEMINI_API_KEY]); and then nothing
    has happened: no file or blob is written, no service is called. *)
Theorem X1_missing_api_key lower :
  (∀ env display_name st st' r,
     Local.incremental_index lower env display_name st = (st', r) →
     (r = Raise MissingApiKey ↔
      truthy (or_else (Local.GOOGLE_API_KEY env) (Local.GEMINI_API_KEY env)) = false) ∧
     (r = Raise MissingApiKey → st' = st)) ∧
  (∀ env st st' r,
     Gcs.incremental_index lower env st = (st', r) →
     (r = Raise MissingApiKey ↔
      truthy (or_else (Gcs.GOOGLE_API_KEY env) (Gcs.GEMINI_API_KEY env)) = false) ∧
     (r = Raise MissingApiKey → st' = st)).
Proof.
  split.
  - intros env dn st st' r Hrun.
    destruct (local_run_cases _ _ _ _ _ _ Hrun)
      as [(Hkey & -> & ->)|(Hkey & [[_ ->]|(st1 & store & _ & _ & _ & Htail)])].
    + done.
    + split; [split; [done|congruence]|done].
    + assert (Hne : r ≠ Raise MissingApiKey).
      { destruct Htail as [(? & _ & _ & -> & _)|[(_ & _ & _ & [[_ ->]|[_ ->]])|
                           (? & _ & Hc)]]; [done|done|done|].
        destruct Hc as [(_ & -> & _)|(? & _ & [->|[->|[->| ->]]] & _)]; done. }
      split; [split; [done|congruence]|done].
  - intros env st st' r Hrun.
    destruct (gcs_run_cases _ _ _ _ _ Hrun)
      as [(Hkey & -> & ->)|(Hkey & [(_ & -> & _)|(_ & [[_ ->]|
           (st1 & store & _ & _ & _ & Htail)])])].
    + done.
    + split; [split; [done|congruence]|done].
    + split; [split; [done|congruence]|done].
    + assert (Hne : r ≠ Raise MissingApiKey).
      { destruct Htail as [(? & _ & _ & -> & _)|[(_ & -> & _)|(? & _ & Hc & _)]];
          [done|done|].
        destruct Hc as [->|[->|[->|[->| ->]]]]; done. }
      split; [split; [done|congruence]|done].
Qed.

(** The runs with an empty [GOOGLE_API_KEY] and no [GEMINI_API_KEY]. *)
Lemma X1_missing_api_key_witness :
  Local.incremental_index ascii_lower Samples.keyless_local py:"my_docs_store"
    Samples.fresh_local = (Samples.fresh_local, Raise MissingApiKey) ∧
  Gcs.incremental_index ascii_lower Samples.keyless_gcs Samples.fresh_gcs =
    (Samples.fresh_gcs, Raise MissingApiKey).
Proof.
  split.
  - set (run := Local.incremental_index ascii_lower Samples.keyless_local
                  py:"my_docs_store" Samples.fresh_local).
    destruct (proj1 (X1_missing_api_key ascii_lower) Samples.keyless_local
                py:"my_docs_store" Samples.fresh_local run.1 run.2
                (surjective_pairing run)) as [Hiff Hst].
    rewrite (surjective_pairing run).
    assert (Hr : run.2 = Raise MissingApiKey) by (apply Hiff; reflexivity).
    by rewrite (Hst Hr), Hr.
  - set (run := Gcs.incremental_index ascii_lower Samples.keyless_gcs
                  Samples.fresh_gcs).
    destruct (proj2 (X1_missing_api_key ascii_lower) Samples.keyless_gcs
                Samples.fresh_gcs run.1 run.2 (surjective_pairing run))
      as [Hiff Hst].
    rewrite (surjective_pairing run).
    assert (Hr : run.2 = Raise MissingApiKey) by (apply Hiff; reflexivity).
    by rewrite (Hst Hr), Hr.
Defined.

(** X2: a run of the bucket indexer ends with the missing-bucket error
    exactly when an API key is set and the bucket does not exist; and then
    nothing has happened: no blob is written or downloaded, no store is
    created. *)
Theorem X2_missing_bucket lower :
  ∀ env st st' r,
    Gcs.incremental_index lower env st = (st', r) →
    (r = Raise BucketNotFound ↔
     truthy (or_else (Gcs.GOOGLE_API_KEY env) (Gcs.GEMINI_API_KEY env)) = true ∧
     Gcs.bucket_exists env = false) ∧
    (r = Raise BucketNotFound → st' = st).
Proof.
  intros env st st' r Hrun.
  destruct (gcs_run_cases _ _ _ _ _ Hrun)
    as [(Hkey & -> & ->)|(Hkey & [(Hb & -> & ->)|(Hb & [[_ ->]|
         (st1 & store & _ & _ & _ & Htail)])])].
  - split; [split; [done|]|done]. intros [? _]. congruence.
  - done.
  - split; [split; [done|]|done]. intros [_ ?]. congruence.
  - assert (Hne : r ≠ Raise BucketNotFound).
    { destruct Htail as [(? & _ & _ & -> & _)|[(_ & -> & _)|(? & _ & Hc & _)]];
        [done|done|].
      destruct Hc as [->|[->|[->|[->| ->]]]]; done. }
    split; [split; [done|]|done]. intros [_ ?]. congruence.
Qed.

Lemma X2_missing_bucket_witness :
  Gcs.incremental_index ascii_lower Samples.no_bucket Samples.fresh_gcs =
    (Samples.fresh_gcs, Raise BucketNotFound).
Proof.
  set (run := Gcs.incremental_index ascii_lower Samples.no_bucket Samples.fresh_gcs).
  destruct (X2_missing_bucket ascii_lower Samples.no_bucket Samples.fresh_gcs
              run.1 run.2 (surjective_pairing run)) as [Hiff Hst].
  rewrite (surjective_pairing run).
  assert (Hr : run.2 = Raise BucketNotFound) by (apply Hiff; split; reflexivity).
  by rewrite (Hst Hr), Hr.
Defined.

(** How the store is resolved, by what is on file. *)
Lemma local_store_cases env dn st :
  (truthy (strip <$> Local.store_name_file st) = true ∧
   ∃ store, Local.load_or_create_store env dn st = (st, Ret store)) ∨
  (truthy (strip <$> Local.store_name_file st) = false ∧
   match Local.create_store env with
   | Some name =>
       ∃ st1, Local.load_or_create_store env dn st = (st1, Ret name) ∧
              Local.store_name_file st1 = Some (universal_newlines name)
   | None =>
       Local.load_or_create_store env dn st =
       (Local.log st [ECreateStore dn], Raise (ServiceError CreateStore))
   end).
Proof.
  rewrite local_store_eq.
  destruct (strip <$> Local.store_name_file st) as [[|c name]|]; simpl;
    [right|left; eauto|right]; (split; [done|]);
    destruct (Local.create_store env); eauto.
Qed.

Lemma gcs_store_cases env st :
  (truthy (strip <$> Gcs.store_name_blob st) = true ∧
   ∃ store, Gcs.load_or_create_store env st = (st, Ret store)) ∨
  (truthy (strip <$> Gcs.store_name_blob st) = false ∧
   match Gcs.create_store env with
   | Some name =>
       ∃ st1, Gcs.load_or_create_store env st = (st1, Ret name) ∧
              Gcs.store_name_blob st1 = Some name
   | None =>
       Gcs.load_or_create_store env st =
       (Gcs.log st [ECreateStore py:"my_docs_store"], Raise (ServiceError CreateStore))
   end).
Proof.
  rewrite gcs_store_eq.
  destruct (strip <$> Gcs.store_name_blob st) as [[|c name]|]; simpl;
    [right|left; eauto|right]; (split; [done|]);
    destruct (Gcs.create_store env); eauto.
Qed.

(** X3: a run ends with the error of the store creation exactly when an API
    key is set (and the bucket exists), no store name is on record (the file
    or blob is missing, empty or blank) and the creation call raises; and
    then the call is all that has happened: the store name and the ledger are
    as they were and nothing is uploaded. *)
Theorem X3_store_creation_fails lower :
  (∀ env display_name st st' r,
     Local.incremental_index lower env display_name st = (st', r) →
     (r = Raise (ServiceError CreateStore) ↔
      truthy (or_else (Local.GOOGLE_API_KEY env) (Local.GEMINI_API_KEY env)) = true ∧
      truthy (strip <$> Local.store_name_file st) = false ∧
      Local.create_store env = None) ∧
     (r = Raise (ServiceError CreateStore) →
      st' = Local.log st [ECreateStore display_name])) ∧
  (∀ env st st' r,
     Gcs.incremental_index lower env st = (st', r) →
     (r = Raise (ServiceError CreateStore) ↔
      truthy (or_else (Gcs.GOOGLE_API_KEY env) (Gcs.GEMINI_API_KEY env)) = true ∧
      Gcs.bucket_exists env = true ∧
      truthy (strip <$> Gcs.store_name_blob st) = false ∧
      Gcs.create_store env = None) ∧
     (r = Raise (ServiceError CreateStore) →
      st' = Gcs.log st [ECreateStore py:"my_docs_store"])).
Proof.
  split.
  - intros env dn st st' r Hrun.
    destruct (local_run_cases _ _ _ _ _ _ Hrun)
      as [(Hkey & -> & ->)|(Hkey & [[Hst ->]|(st1 & store & Hst & _ & _ & Htail)])].
    + split; [split; [done|]|done]. intros (? & _). congruence.
    + destruct (local_store_cases env dn st) as [(_ & ? & Hs)|(Hblank & Hs)];
        [congruence|].
      destruct (Local.create_store env) as [name|];
        [destruct Hs as (? & Hs & _); congruence|].
      rewrite Hs in Hst. injection Hst as <-. done.
    + assert (Hne : r ≠ Raise (ServiceError CreateStore)).
      { destruct Htail as [(? & _ & _ & -> & _)|[(_ & _ & _ & [[_ ->]|[_ ->]])|
                           (? & _ & Hc)]]; [done|done|done|].
        destruct Hc as [(_ & -> & _)|(? & _ & [->|[->|[->| ->]]] & _)]; done. }
      split; [split; [done|]|done]. intros (_ & Hblank & Hnone).
      destruct (local_store_cases env dn st) as [(? & _)|(_ & Hs)]; [congruence|].
      rewrite Hnone in Hs. congruence.
  - intros env st st' r Hrun.
    destruct (gcs_run_cases _ _ _ _ _ Hrun)
      as [(Hkey & -> & ->)|(Hkey & [(Hb & -> & ->)|(Hb & [[Hst ->]|
           (st1 & store & Hst & _ & _ & Htail)])])].
    + split; [split; [done|]|done]. intros (? & _). congruence.
    + split; [split; [done|]|done]. intros (_ & ? & _). congruence.
    + destruct (gcs_store_cases env st) as [(_ & ? & Hs)|(Hblank & Hs)];
        [congruence|].
      destruct (Gcs.create_store env) as [name|];
        [destruct Hs as (? & Hs & _); congruence|].
      rewrite Hs in Hst. injection Hst as <-. done.
    + assert (Hne : r ≠ Raise (ServiceError CreateStore)).
      { destruct Htail as [(? & _ & _ & -> & _)|[(_ & -> & _)|(? & _ & Hc & _)]];
          [done|done|].
        destruct Hc as [->|[->|[->|[->| ->]]]]; done. }
      split; [split; [done|]|done]. intros (_ & _ & Hblank & Hnone).
      destruct (gcs_store_cases env st) as [(? & _)|(_ & Hs)]; [congruence|].
      rewrite Hnone in Hs. congruence.
Qed.

(** The first runs against a service that refuses to create a store. *)
Lemma X3_store_creation_fails_witness :
  Local.incremental_index ascii_lower Samples.no_store_local py:"my_docs_store"
    Samples.fresh_local =
    (Local.log Samples.fresh_local [ECreateStore py:"my_docs_store"],
     Raise (ServiceError CreateStore)) ∧
  Gcs.incremental_index ascii_lower Samples.no_store_gcs Samples.fresh_gcs =
    (Gcs.log Samples.fresh_gcs [ECreateStore py:"my_docs_store"],
     Raise (ServiceError CreateStore)).
Proof.
  split.
  - set (run := Local.incremental_index ascii_lower Samples.no_store_local
                  py:"my_docs_store" Samples.fresh_local).
    destruct (proj1 (X3_store_creation_fails ascii_lower) Samples.no_store_local
                py:"my_docs_store" Samples.fresh_local run.1 run.2
                (surjective_pairing run)) as [Hiff Hst].
    rewrite (surjective_pairing run).
    assert (Hr : run.2 = Raise (ServiceError CreateStore))
      by (apply Hiff; repeat split; reflexivity).
    by rewrite (Hst Hr), Hr.
  - set (run := Gcs.incremental_index ascii_lower Samples.no_store_gcs
                  Samples.fresh_gcs).
    destruct (proj2 (X3_store_creation_fails ascii_lower) Samples.no_store_gcs
                Samples.fresh_gcs run.1 run.2 (surjective_pairing run))
      as [Hiff Hst].
    rewrite (surjective_pairing run).
    assert (Hr : run.2 = Raise (ServiceError CreateStore))
      by (apply Hiff; repeat split; reflexivity).
    by rewrite (Hst Hr), Hr.
Defined.



End Exits.

(** ** The upload loop *)

Section UploadLoop.
Import Py Run Trace Tally Stage.

(** A run of the local indexer that gets to the detection loop. *)
Lemma local_run_loaded lower env dn st st1 store state entries :
  truthy (or_else (Local.GOOGLE_API_KEY env) (Local.GEMINI_API_KEY env)) = true →
  Local.load_or_create_store env dn st = (st1, Ret store) →
  ledger_of (Local.index_state_file st) = Some state →
  Local.data env = Some entries →
  Local.incremental_index lower env dn st =
  let cands := Local.enumerated lower (path_join (Local.cwd env) Local.DATA_DIR) entries in
  let docs := filter (λ d, Local.classify state d.1.1 d.2 ≠ UNCHANGED) cands in
  let lg := (λ d, EClassify d.1.1 (Local.classify state d.1.1 d.2)) <$> cands in
  match docs with
  | [] => (Local.log st1 lg, Ret tt)
  | _ :: _ =>
      (state' <- Local.upload_all env store 0 docs state;;
       Local.save_index_state state') (Local.log st1 lg)
  end.
Proof.
  intros Hkey Hstore Hstate Hdata.
  assert (Hfile : Local.index_state_file st1 = Local.index_state_file st).
  { rewrite local_store_eq in Hstore.
    destruct (strip <$> Local.store_name_file st) as [[|c name]|];
      [|by simplify_eq|]; destruct (Local.create_store env); by simplify_eq. }
  unfold Local.incremental_index.
  unfold bind at 1. unfold Local.make_client. rewrite Hkey. simpl.
  unfold bind at 1. rewrite Hstore.
  unfold bind at 1. unfold Local.load_index_state. rewrite Hfile.
  assert (Hcore : ∀ st2, st2 = st1 →
    match Local.data env with
    | None => raise DataDirNotFound
    | Some entries0 =>
        let '(log, new_or_changed) :=
          Local.detect lower state (path_join (Local.cwd env) Local.DATA_DIR) entries0 in
        Local.tell log;;;
        match new_or_changed with
        | [] => ret tt
        | _ :: _ =>
            state' <- Local.upload_all env store 0 new_or_changed state;;
            Local.save_index_state state'
        end
    end st2 =
    match filter (λ d, Local.classify state d.1.1 d.2 ≠ UNCHANGED)
            (Local.enumerated lower (path_join (Local.cwd env) Local.DATA_DIR) entries)
    with
    | [] => (Local.log st1
               ((λ d, EClassify d.1.1 (Local.classify state d.1.1 d.2)) <$>
                Local.enumerated lower (path_join (Local.cwd env) Local.DATA_DIR) entries),
             Ret tt)
    | _ :: _ =>
        (state' <- Local.upload_all env store 0
                     (filter (λ d, Local.classify state d.1.1 d.2 ≠ UNCHANGED)
                        (Local.enumerated lower
                           (path_join (Local.cwd env) Local.DATA_DIR) entries)) state;;
         Local.save_index_state state')
          (Local.log st1
             ((λ d, EClassify d.1.1 (Local.classify state d.1.1 d.2)) <$>
              Local.enumerated lower (path_join (Local.cwd env) Local.DATA_DIR) entries))
    end).
  { intros st2 ->. rewrite Hdata, local_detect_eq.
    unfold bind at 1. unfold Local.tell.
    by destruct (filter _ _). }
  destruct (Local.index_state_file st) as [text|]; simpl in Hstate.
  - destruct (Json.loads text) as [v|]; [|done]. simpl in Hstate.
    unfold bind at 1. unfold Local.typed. rewrite Hstate. by apply Hcore.
  - injection Hstate as <-. unfold bind at 1. unfold Local.typed. simpl.
    by apply Hcore.
Qed.

(** A run of the bucket indexer that gets to the detection loop. *)
Lemma gcs_run_loaded lower env st st1 store state :
  truthy (or_else (Gcs.GOOGLE_API_KEY env) (Gcs.GEMINI_API_KEY env)) = true →
  Gcs.bucket_exists env = true →
  Gcs.load_or_create_store env st = (st1, Ret store) →
  ledger_of (Gcs.index_state_blob st) = Some state →
  Gcs.incremental_index lower env st =
  let cands := Gcs.list_candidate_blobs lower (Gcs.blobs env) in
  let docs := filter (λ d, Gcs.classify state d.1 d.2 ≠ UNCHANGED) cands in
  let lg := (λ d, EClassify d.1 (Gcs.classify state d.1 d.2)) <$> cands in
  match docs with
  | [] => (Gcs.log st1 lg, Ret tt)
  | _ :: _ =>
      (state' <- Gcs.upload_all env store 0 docs state;;
       Gcs.save_index_state_to_gcs state') (Gcs.log st1 lg)
  end.
Proof.
  intros Hkey Hbucket Hstore Hstate.
  assert (Hfile : Gcs.index_state_blob st1 = Gcs.index_state_blob st).
  { rewrite gcs_store_eq in Hstore.
    destruct (strip <$> Gcs.store_name_blob st) as [[|c name]|];
      [|by simplify_eq|]; destruct (Gcs.create_store env); by simplify_eq. }
  unfold Gcs.incremental_index.
  unfold bind at 1. unfold Gcs.make_genai_client. rewrite Hkey. simpl.
  unfold bind at 1. unfold Gcs.get_bucket. rewrite Hbucket. simpl.
  unfold bind at 1. rewrite Hstore.
  unfold bind at 1. unfold Gcs.load_index_state_from_gcs. rewrite Hfile.
  assert (Hcore : ∀ st2, st2 = st1 →
    (let '(log, new_or_changed) :=
       Gcs.detect state (Gcs.list_candidate_blobs lower (Gcs.blobs env)) in
     Gcs.tell log;;;
     match new_or_changed with
     | [] => ret tt
     | _ :: _ =>
         state' <- Gcs.upload_all env store 0 new_or_changed state;;
         Gcs.save_index_state_to_gcs state'
     end) st2 =
    match filter (λ d, Gcs.classify state d.1 d.2 ≠ UNCHANGED)
            (Gcs.list_candidate_blobs lower (Gcs.blobs env))
    with
    | [] => (Gcs.log st1
               ((λ d, EClassify d.1 (Gcs.classify state d.1 d.2)) <$>
                Gcs.list_candidate_blobs lower (Gcs.blobs env)),
             Ret tt)
    | _ :: _ =>
        (state' <- Gcs.upload_all env store 0
                     (filter (λ d, Gcs.classify state d.1 d.2 ≠ UNCHANGED)
                        (Gcs.list_candidate_blobs lower (Gcs.blobs env))) state;;
         Gcs.save_index_state_to_gcs state')
          (Gcs.log st1
             ((λ d, EClassify d.1 (Gcs.classify state d.1 d.2)) <$>
              Gcs.list_candidate_blobs lower (Gcs.blobs env)))
    end).
  { intros st2 ->. rewrite gcs_detect_eq.
    unfold bind at 1. unfold Gcs.tell.
    by destruct (filter _ _). }
  destruct (Gcs.index_state_blob st) as [text|]; simpl in Hstate.
  - destruct (Json.loads text) as [v|]; [|done]. simpl in Hstate.
    unfold bind at 1. unfold Gcs.typed. rewrite Hstate. by apply Hcore.
  - injection Hstate as <-. unfold bind at 1. unfold Gcs.typed. simpl.
    by apply Hcore.
Qed.

(** One round of the upload loop of the bucket indexer. *)
Lemma gcs_index_one_eq env store k name md5 state st :
  Gcs.index_one env store k (name, md5) state st =
  let p := Gcs.tmp_path_of name in
  match Gcs.download env k with
  | Gcs.DownloadRaises partial_file =>
      (staged st (if partial_file then {[p]} ∪ Gcs.tmp st else Gcs.tmp st)
         [EDownload name p], Raise (ServiceError Download))
  | Gcs.DownloadOk =>
      match Gcs.upload env k with
      | UploadRaises =>
          (staged st ({[p]} ∪ Gcs.tmp st)
             [EDownload name p; EUpload name p store (basename name)],
           Raise (ServiceError Upload))
      | UploadReturns op =>
          match settles op with
          | Ret _ =>
              (staged st (if Gcs.remove env k then ({[p]} ∪ Gcs.tmp st) ∖ {[p]}
                          else {[p]} ∪ Gcs.tmp st)
                 (EDownload name p :: EUpload name p store (basename name) ::
                  wait_events name op ++ commit_events name md5 ++ [ERemove p]),
               Ret (apply_commits state (Gcs.doc_entries [(name, md5)])))
          | Raise e =>
              (staged st ({[p]} ∪ Gcs.tmp st)
                 (EDownload name p :: EUpload name p store (basename name) ::
                  wait_events name op), Raise e)
          | Hang =>
              (staged st ({[p]} ∪ Gcs.tmp st)
                 (EDownload name p :: EUpload name p store (basename name) ::
                  wait_events name op), Hang)
          | OutOfModel =>
              (staged st ({[p]} ∪ Gcs.tmp st)
                 (EDownload name p :: EUpload name p store (basename name) ::
                  wait_events name op), OutOfModel)
          end
      end
  end.
Proof.
  unfold Gcs.index_one, bind. unfold Gcs.download_to_filename at 1.
  destruct (Gcs.download env k) as [|partial_file]; [|done].
  unfold Gcs.tell at 1. simpl.
  destruct (Gcs.upload env k) as [|op].
  { unfold staged, raise, Gcs.log. simpl. by rewrite <- ?app_assoc. }
  rewrite gcs_wait_eq.
  destruct (settles op) as [[]|e| |]; unfold staged, Gcs.log; simpl;
    try (by rewrite <- ?app_assoc).
  destruct md5 as [h|]; unfold Gcs.tell, ret, Gcs.remove_tmp, Gcs.log; simpl;
    by rewrite <- ?app_assoc.
Qed.

(** The events of the polling loop. *)
Lemma wait_events_kinds doc op e :
  e ∈ wait_events doc op →
  e = EStatus doc true ∨ e = EStatus doc false ∨ e = ESleep 2 ∨ e = EPoll doc.
Proof.
  induction op as [|next IH| |]; simpl.
  - intros ->%list_elem_of_singleton. auto.
  - rewrite !elem_of_cons. intros [->|[->|[->|Hin]]]; auto.
  - rewrite !elem_of_cons. intros [->|[->|[->|Hin]]]; auto.
    by apply not_elem_of_nil in Hin.
  - by intros ?%not_elem_of_nil.
Qed.

(** What holds of the events of every round holds of the events of the
    loop. *)
Lemma local_upload_all_rounds (P : list event → Prop) env store docs :
  P [] → (∀ a b, P a → P b → P (a ++ b)) →
  (∀ k d state st, d ∈ docs →
     ∃ es, (Local.index_one env store k d state st).1 = Local.log st es ∧ P es) →
  ∀ k state st,
    ∃ es, (Local.upload_all env store k docs state st).1 = Local.log st es ∧ P es.
Proof.
  intros Hnil Happ. induction docs as [|d docs IH]; intros Hround k state st.
  - exists []. by rewrite local_log_nil.
  - rewrite local_upload_all_cons.
    destruct (Hround k d state st) as (es1 & Hes1 & HP1); [left|].
    destruct (Local.index_one env store k d state st) as [st1 [state'|e| |]];
      simpl in Hes1; subst st1; try by exists es1.
    destruct (IH (λ k d state st Hd, Hround k d state st (list_elem_of_further _ _ _ Hd))
                 (S k) state' (Local.log st es1)) as (es2 & Hes2 & HP2).
    exists (es1 ++ es2). rewrite Hes2, local_log_log. auto.
Qed.

Lemma gcs_upload_all_rounds (P : list event → Prop) env store docs :
  P [] → (∀ a b, P a → P b → P (a ++ b)) →
  (∀ k d state st, d ∈ docs →
     ∃ es, Gcs.trace (Gcs.index_one env store k d state st).1 = Gcs.trace st ++ es ∧
           P es) →
  ∀ k state st,
    ∃ es, Gcs.trace (Gcs.upload_all env store k docs state st).1 = Gcs.trace st ++ es ∧
          P es.
Proof.
  intros Hnil Happ. induction docs as [|d docs IH]; intros Hround k state st.
  - exists []. by rewrite app_nil_r.
  - rewrite gcs_upload_all_cons.
    destruct (Hround k d state st) as (es1 & Hes1 & HP1); [left|].
    destruct (Gcs.index_one env store k d state st) as [st1 [state'|e| |]];
      simpl in Hes1; try by exists es1.
    destruct (IH (λ k d state st Hd, Hround k d state st (list_elem_of_further _ _ _ Hd))
                 (S k) state' st1) as (es2 & Hes2 & HP2).
    exists (es1 ++ es2). rewrite Hes2, Hes1, app_assoc. auto.
Qed.

Lemma events_all (P : list event → Prop) (es : list event) :
  P [] → (∀ a b, P a → P b → P (a ++ b)) → (∀ e, e ∈ es → P [e]) → P es.
Proof.
  intros Hnil Happ. induction es as [|e es IH]; intros Hall; [done|].
  change (P ([e] ++ es)). apply Happ; [apply Hall; left|].
  apply IH. intros e' He'. apply Hall. by right.
Qed.

(** What holds of the events of every stage of a run of the local indexer
    holds of the events of the run. *)
Lemma local_run_events (P : list event → Prop) lower env dn st st' r :
  Local.incremental_index lower env dn st = (st', r) →
  P [] → (∀ a b, P a → P b → P (a ++ b)) →
  P [ECreateStore dn] → (∀ name, P [EWriteStoreName name]) →
  (∀ doc l, P [EClassify doc l]) → (∀ text, P [ESave text]) →
  (∀ st1 store state entries,
     Local.load_or_create_store env dn st = (st1, Ret store) →
     ledger_of (Local.index_state_file st) = Some state →
     Local.data env = Some entries →
     ∀ k d state0 st0,
       d ∈ Local.new_or_changed lower state
             (path_join (Local.cwd env) Local.DATA_DIR) entries →
       ∃ es, (Local.index_one env store k d state0 st0).1 = Local.log st0 es ∧ P es) →
  ∃ es, Local.trace st' = Local.trace st ++ es ∧ P es.
Proof.
  intros Hrun Hnil Happ Hcreate Hwrite Hclassify Hsave Hround.
  assert (Hstay : ∃ es, Local.trace st = Local.trace st ++ es ∧ P es).
  { exists []. by rewrite app_nil_r. }
  destruct (local_run_cases _ _ _ _ _ _ Hrun)
    as [(_ & _ & ->)|(Hkey & [[Hst _]|(st1 & store & Hst & _ & _ & Htail)])];
    [done| |].
  { rewrite local_store_eq in Hst.
    destruct (strip <$> Local.store_name_file st) as [[|c name]|];
      [|by simplify_eq|]; destruct (Local.create_store env); simplify_eq;
      by exists [ECreateStore dn]. }
  assert (Hst1 : ∃ es0, Local.trace st1 = Local.trace st ++ es0 ∧ P es0).
  { pose proof Hst as Hst0. rewrite local_store_eq in Hst0.
    destruct (strip <$> Local.store_name_file st) as [[|c name]|];
      [|by simplify_eq|]; destruct (Local.create_store env) as [name'|];
      simplify_eq; eexists ([ECreateStore dn] ++ [EWriteStoreName _]);
      (split; [done|]); apply Happ; auto. }
  destruct Hst1 as (es0 & Htr0 & HP0).
  destruct Htail as [(? & _ & _ & _ & ->)|[(_ & _ & -> & _)|(state & Hstate & Hc)]];
    [by exists es0..|].
  destruct Hc as [(_ & _ & ->)|(entries & Hdata & _)]; [by exists es0|].
  rewrite (local_run_loaded _ _ _ _ _ _ _ _ Hkey Hst Hstate Hdata) in Hrun.
  specialize (Hround st1 store state entries Hst Hstate Hdata).
  rewrite local_new_or_changed_eq in Hround.
  cbv zeta in Hrun.
  set (cands := Local.enumerated lower (path_join (Local.cwd env) Local.DATA_DIR)
                  entries) in *.
  set (lg := (λ d : str * str * str, EClassify d.1.1 (Local.classify state d.1.1 d.2))
               <$> cands) in *.
  assert (HPlg : P lg).
  { apply events_all; [done..|]. intros e (d & -> & _)%list_elem_of_fmap. done. }
  remember (filter (λ d, Local.classify state d.1.1 d.2 ≠ UNCHANGED) cands)
    as docs eqn:Edocs.
  destruct (local_upload_all_rounds P env store docs Hnil Happ
              (λ k d state0 st0 Hd, Hround k d state0 st0 Hd) 0%nat state
              (Local.log st1 lg)) as (es & Hes & HPes).
  destruct docs as [|d0 docs0] eqn:Ed.
  { injection Hrun as <- <-. exists (es0 ++ lg). simpl. rewrite Htr0, app_assoc. auto. }
  rewrite <- Ed in *. clear Ed.
  unfold bind in Hrun.
  destruct (Local.upload_all env store 0 docs state (Local.log st1 lg))
    as [st2 r2]. simpl in Hes. subst st2.
  destruct r2 as [state'|e| |].
  - unfold Local.save_index_state in Hrun. injection Hrun as <- <-. simpl.
    exists (es0 ++ (lg ++ es) ++ [ESave (Json.dumps state')]).
    rewrite Htr0, <- !app_assoc. split; [done|]. auto.
  - injection Hrun as <- <-. exists (es0 ++ lg ++ es). simpl.
    rewrite Htr0, <- !app_assoc. auto.
  - injection Hrun as <- <-. exists (es0 ++ lg ++ es). simpl.
    rewrite Htr0, <- !app_assoc. auto.
  - injection Hrun as <- <-. exists (es0 ++ lg ++ es). simpl.
    rewrite Htr0, <- !app_assoc. auto.
Qed.

(** What holds of the events of every stage of a run of the bucket indexer
    holds of the events of the run. *)
Lemma gcs_run_events (P : list event → Prop) lower env st st' r :
  Gcs.incremental_index lower env st = (st', r) →
  P [] → (∀ a b, P a → P b → P (a ++ b)) →
  P [ECreateStore py:"my_docs_store"] → (∀ name, P [EWriteStoreName name]) →
  (∀ doc l, P [EClassify doc l]) → (∀ text, P [ESave text]) →
  (∀ st1 store state,
     Gcs.load_or_create_store env st = (st1, Ret store) →
     ledger_of (Gcs.index_state_blob st) = Some state →
     ∀ k d state0 st0,
       d ∈ Gcs.new_or_changed state (Gcs.list_candidate_blobs lower (Gcs.blobs env)) →
       ∃ es, Gcs.trace (Gcs.index_one env store k d state0 st0).1 =
               Gcs.trace st0 ++ es ∧ P es) →
  ∃ es, Gcs.trace st' = Gcs.trace st ++ es ∧ P es.
Proof.
  intros Hrun Hnil Happ Hcreate Hwrite Hclassify Hsave Hround.
  assert (Hstay : ∃ es, Gcs.trace st = Gcs.trace st ++ es ∧ P es).
  { exists []. by rewrite app_nil_r. }
  destruct (gcs_run_cases _ _ _ _ _ Hrun)
    as [(_ & _ & ->)|(Hkey & [(_ & _ & ->)|(Hbucket & [[Hst _]|
         (st1 & store & Hst & _ & _ & Htail)])])]; [done|done| |].
  { rewrite gcs_store_eq in Hst.
    destruct (strip <$> Gcs.store_name_blob st) as [[|c name]|];
      [|by simplify_eq|]; destruct (Gcs.create_store env); simplify_eq;
      by exists [ECreateStore py:"my_docs_store"]. }
  assert (Hst1 : ∃ es0, Gcs.trace st1 = Gcs.trace st ++ es0 ∧ P es0).
  { pose proof Hst as Hst0. rewrite gcs_store_eq in Hst0.
    destruct (strip <$> Gcs.store_name_blob st) as [[|c name]|];
      [|by simplify_eq|]; destruct (Gcs.create_store env) as [name'|];
      simplify_eq;
      eexists ([ECreateStore py:"my_docs_store"] ++ [EWriteStoreName _]);
      (split; [done|]); apply Happ; auto. }
  destruct Hst1 as (es0 & Htr0 & HP0).
  destruct Htail as [(? & _ & _ & _ & ->)|[(_ & _ & ->)|(state & Hstate & _)]];
    [by exists es0..|].
  rewrite (gcs_run_loaded _ _ _ _ _ _ Hkey Hbucket Hst Hstate) in Hrun.
  specialize (Hround st1 store state Hst Hstate).
  rewrite gcs_new_or_changed_eq in Hround.
  cbv zeta in Hrun.
  set (cands := Gcs.list_candidate_blobs lower (Gcs.blobs env)) in *.
  set (lg := (λ d : str * option str, EClassify d.1 (Gcs.classify state d.1 d.2))
               <$> cands) in *.
  assert (HPlg : P lg).
  { apply events_all; [done..|]. intros e (d & -> & _)%list_elem_of_fmap. done. }
  remember (filter (λ d, Gcs.classify state d.1 d.2 ≠ UNCHANGED) cands)
    as docs eqn:Edocs.
  destruct (gcs_upload_all_rounds P env store docs Hnil Happ
              (λ k d state0 st0 Hd, Hround k d state0 st0 Hd) 0%nat state
              (Gcs.log st1 lg)) as (es & Hes & HPes).
  destruct docs as [|d0 docs0] eqn:Ed.
  { injection Hrun as <- <-. exists (es0 ++ lg). simpl. rewrite Htr0, app_assoc. auto. }
  rewrite <- Ed in *. clear Ed.
  unfold bind in Hrun.
  destruct (Gcs.upload_all env store 0 docs state (Gcs.log st1 lg))
    as [st2 r2]. simpl in Hes.
  destruct r2 as [state'|e| |].
  - unfold Gcs.save_index_state_to_gcs in Hrun. injection Hrun as <- <-. simpl.
    exists (es0 ++ (lg ++ es) ++ [ESave (Json.dumps state')]).
    rewrite Hes, Htr0, <- !app_assoc. split; [done|]. auto.
  - injection Hrun as <- <-. exists (es0 ++ lg ++ es).
    rewrite Hes, Htr0, <- !app_assoc. auto.
  - injection Hrun as <- <-. exists (es0 ++ lg ++ es).
    rewrite Hes, Htr0, <- !app_assoc. auto.
  - injection Hrun as <- <-. exists (es0 ++ lg ++ es).
    rewrite Hes, Htr0, <- !app_assoc. auto.
Qed.

(** The events of one round of the local indexer. *)
Lemma local_index_one_kinds env store k fname path h state st :
  ∃ es, (Local.index_one env store k (fname, path, h) state st).1 = Local.log st es ∧
    ∀ e, e ∈ es →
      e = EUpload fname path store fname ∨ e = EStatus fname true ∨
      e = EStatus fname false ∨ e = ESleep 2 ∨ e = EPoll fname ∨ e = ECommit fname h.
Proof.
  rewrite local_index_one_eq.
  assert (Hw : ∀ op e, e ∈ EUpload fname path store fname :: wait_events fname op →
            e = EUpload fname path store fname ∨ e = EStatus fname true ∨
            e = EStatus fname false ∨ e = ESleep 2 ∨ e = EPoll fname ∨
            e = ECommit fname h).
  { intros op e [->|Hin]%elem_of_cons; [auto|].
    destruct (wait_events_kinds _ _ _ Hin) as [?|[?|[?|?]]]; auto 10. }
  destruct (Local.upload env k) as [|op].
  { eexists. split; [reflexivity|]. intros e ->%list_elem_of_singleton. auto. }
  destruct (settles op) as [[]|e0| |]; eexists; (split; [reflexivity|]);
    try exact (Hw op).
  intros e. rewrite app_comm_cons, elem_of_app.
  intros [Hin| ->%list_elem_of_singleton]; [by eapply Hw|auto 10].
Qed.

(** The events of one round of the bucket indexer. *)
Lemma gcs_index_one_kinds env store k name md5 state st :
  ∃ es, Gcs.trace (Gcs.index_one env store k (name, md5) state st).1 =
          Gcs.trace st ++ es ∧
    ∀ e, e ∈ es →
      e = EDownload name (Gcs.tmp_path_of name) ∨
      e = EUpload name (Gcs.tmp_path_of name) store (basename name) ∨
      e = EStatus name true ∨ e = EStatus name false ∨ e = ESleep 2 ∨
      e = EPoll name ∨ (∃ h, md5 = Some h ∧ e = ECommit name h) ∨
      e = ERemove (Gcs.tmp_path_of name).
Proof.
  rewrite gcs_index_one_eq. cbv zeta.
  set (p := Gcs.tmp_path_of name).
  assert (Hw : ∀ op e,
            e ∈ EDownload name p :: EUpload name p store (basename name) ::
                wait_events name op →
            e = EDownload name p ∨ e = EUpload name p store (basename name) ∨
            e = EStatus name true ∨ e = EStatus name false ∨ e = ESleep 2 ∨
            e = EPoll name ∨ (∃ h, md5 = Some h ∧ e = ECommit name h) ∨
            e = ERemove p).
  { intros op e [->|[->|Hin]%elem_of_cons]%elem_of_cons; [auto..|].
    destruct (wait_events_kinds _ _ _ Hin) as [?|[?|[?|?]]]; auto 10. }
  destruct (Gcs.download env k) as [|partial_file].
  2:{ eexists. split; [reflexivity|]. intros e ->%list_elem_of_singleton. auto. }
  destruct (Gcs.upload env k) as [|op].
  { eexists. split; [reflexivity|]. intros e Hin. apply (Hw OpStuck). exact Hin. }
  destruct (settles op) as [[]|e0| |]; eexists; (split; [reflexivity|]);
    try exact (Hw op).
  intros e. rewrite !app_comm_cons, !elem_of_app.
  intros [Hin|[Hin| ->%list_elem_of_singleton]]; [by eapply Hw| |auto 10].
  destruct md5 as [h|]; simpl in Hin; [|by apply not_elem_of_nil in Hin].
  apply list_elem_of_singleton in Hin as ->. do 6 right. left. by exists h.
Qed.

(** X6: every upload that a run of the local indexer makes is the upload
    of a regular file of [./data] with an allowed extension that is new or
    changed against the loaded ledger; it reads the file at its path under
    [./data], goes to the store that [load_or_create_store] returned, and gives
    the file name as display name. *)
Theorem X6_local_upload_arguments lower :
  ∀ env display_name st st' r,
    Local.incremental_index lower env display_name st = (st', r) →
    ∃ es, Local.trace st' = Local.trace st ++ es ∧
      ∀ doc file store dn, EUpload doc file store dn ∈ es →
        dn = doc ∧
        file = path_join (path_join (Local.cwd env) Local.DATA_DIR) doc ∧
        (∃ st1, Local.load_or_create_store env display_name st = (st1, Ret store)) ∧
        ∃ state entries e,
          ledger_of (Local.index_state_file st) = Some state ∧
          Local.data env = Some entries ∧ e ∈ entries ∧
          Local.d_name e = doc ∧ Local.d_isfile e = true ∧
          Local.allowed lower doc = true ∧
          Local.classify state doc (Local.d_sha256 e) ≠ UNCHANGED.
Proof.
  intros env dn st st' r Hrun.
  apply (local_run_events
           (λ es, ∀ doc file store dn0, EUpload doc file store dn0 ∈ es →
              dn0 = doc ∧
              file = path_join (path_join (Local.cwd env) Local.DATA_DIR) doc ∧
              (∃ st1, Local.load_or_create_store env dn st = (st1, Ret store)) ∧
              ∃ state entries e,
                ledger_of (Local.index_state_file st) = Some state ∧
                Local.data env = Some entries ∧ e ∈ entries ∧
                Local.d_name e = doc ∧ Local.d_isfile e = true ∧
                Local.allowed lower doc = true ∧
                Local.classify state doc (Local.d_sha256 e) ≠ UNCHANGED)
           lower env dn st st' r Hrun).
  - by intros ???? ?%not_elem_of_nil.
  - intros a b Ha Hb ???? [?|?]%elem_of_app; eauto.
  - by intros ???? ?%list_elem_of_singleton.
  - by intros ????? ?%list_elem_of_singleton.
  - by intros ?????? ?%list_elem_of_singleton.
  - by intros ????? ?%list_elem_of_singleton.
  - intros st1 store state entries Hst Hstate Hdata k [[fname path] h] state0 st0 Hd.
    destruct (local_index_one_kinds env store k fname path h state0 st0)
      as (es & Hes & Hkinds).
    exists es. split; [done|].
    intros doc file store0 dn0 Hin.
    destruct (Hkinds _ Hin) as [Heq|[?|[?|[?|[?|?]]]]]; try done.
    injection Heq as -> -> -> ->.
    rewrite local_new_or_changed_eq in Hd.
    apply list_elem_of_filter in Hd as [Hlabel Hd]. simpl in Hlabel.
    apply local_enumerated_elem in Hd as (e & He & Ha & Hf & [= -> -> ->]).
    split; [done|]. split; [done|]. split; [by exists st1|].
    exists state, entries, e. done.
Qed.

(** The runs over [a.txt] (unchanged) and [b.txt] (new): the one upload. *)
Lemma X6_local_upload_arguments_witness :
  ∃ st' es,
    Examples.local_run Examples.polled_once (Some (Json.dumps Examples.ledger_a))
      = (st', Ret tt) ∧
    Local.trace st' = [] ++ es ∧
    EUpload py:"b.txt" py:"/srv/rag/data/b.txt" py:"fileSearchStores/s1" py:"b.txt" ∈ es ∧
    ∃ st1, Local.load_or_create_store
             (Examples.local_env Examples.files_ab Examples.polled_once)
             py:"my_docs_store"
             (Examples.local_st (Some (Json.dumps Examples.ledger_a)))
           = (st1, Ret py:"fileSearchStores/s1").
Proof.
  set (run := Examples.local_run Examples.polled_once
                (Some (Json.dumps Examples.ledger_a))).
  assert (Hrun : run = (run.1, Ret tt)) by (vm_compute; reflexivity).
  destruct (X6_local_upload_arguments ascii_lower _ _ _ _ _ Hrun)
    as (es & Htr & Hargs).
  assert (Hin : EUpload py:"b.txt" py:"/srv/rag/data/b.txt" py:"fileSearchStores/s1"
                  py:"b.txt" ∈ es).
  { simpl in Htr. rewrite <- Htr. apply (bool_decide_unpack _). vm_compute. exact I. }
  exists run.1, es. split; [exact Hrun|]. split; [exact Htr|]. split; [exact Hin|].
  exact (proj1 (proj2 (proj2 (Hargs _ _ _ _ Hin)))).
Defined.

Lemma before_app_l (a b : list event) i :
  (i < length a)%nat → before (a ++ b) i = before a i.
Proof.
  destruct i as [|j]; [done|]. intros Hj. simpl. apply lookup_app_l. lia.
Qed.

Lemma before_app_r (a b : list event) j :
  before (a ++ b) (length a + S j) = before b (S j).
Proof.
  rewrite Nat.add_succ_r. simpl.
  by rewrite lookup_app_r, Nat.add_comm, Nat.add_sub by lia.
Qed.

(** One round of the bucket indexer: where its upload is. *)
Lemma gcs_index_one_upload env store k name md5 state st :
  ∃ es, Gcs.trace (Gcs.index_one env store k (name, md5) state st).1 =
          Gcs.trace st ++ es ∧
    ∀ i doc file s dn, es !! i = Some (EUpload doc file s dn) →
      doc = name ∧ file = Gcs.tmp_path_of name ∧ s = store ∧ dn = basename name ∧
      before es i = Some (EDownload name (Gcs.tmp_path_of name)).
Proof.
  rewrite gcs_index_one_eq. cbv zeta.
  set (p := Gcs.tmp_path_of name).
  assert (Hw : ∀ tail,
            (∀ doc file s dn, EUpload doc file s dn ∉ tail) →
            ∀ i doc file s dn,
              (EDownload name p :: EUpload name p store (basename name) :: tail) !! i =
                Some (EUpload doc file s dn) →
              doc = name ∧ file = p ∧ s = store ∧ dn = basename name ∧
              before (EDownload name p :: EUpload name p store (basename name) :: tail) i
                = Some (EDownload name p)).
  { intros tail Htail [|[|i]] doc file s dn; simpl; [done| |].
    - by intros [= <- <- <- <-].
    - intros Hin%list_elem_of_lookup_2. by apply Htail in Hin. }
  assert (Hwait : ∀ op doc file s dn, EUpload doc file s dn ∉ wait_events name op).
  { intros op doc file s dn Hin.
    destruct (wait_events_kinds _ _ _ Hin) as [?|[?|[?|?]]]; done. }
  destruct (Gcs.download env k) as [|partial_file].
  2:{ eexists. split; [reflexivity|]. intros [|i] ????; simpl; [done|].
      by rewrite lookup_nil. }
  destruct (Gcs.upload env k) as [|op].
  { eexists. split; [reflexivity|]. apply Hw. intros ???? ?%not_elem_of_nil. done. }
  destruct (settles op) as [[]|e0| |]; eexists; (split; [reflexivity|]);
    apply Hw; try apply Hwait.
  intros doc file s dn. rewrite !elem_of_app.
  intros [Hin|[Hin|Hin%list_elem_of_singleton]]; [by apply Hwait in Hin| |done].
  destruct md5; simpl in Hin; [by apply list_elem_of_singleton in Hin|].
  by apply not_elem_of_nil in Hin.
Qed.

(** X7: every upload that a run of the bucket indexer makes directly
    follows the download of the same blob to the path it uploads from, which
    is the base name of the blob under [/tmp]; the blob is new or changed
    against the loaded ledger, the upload goes to the store that
    [load_or_create_store] returned, and the display name is the base name of
    the blob. *)
Theorem X7_gcs_upload_follows_download lower :
  ∀ env st st' r,
    Gcs.incremental_index lower env st = (st', r) →
    ∃ es, Gcs.trace st' = Gcs.trace st ++ es ∧
      ∀ i doc file store dn, es !! i = Some (EUpload doc file store dn) →
        before es i = Some (EDownload doc file) ∧
        file = path_join py:"/tmp" (basename doc) ∧ dn = basename doc ∧
        (∃ st1, Gcs.load_or_create_store env st = (st1, Ret store)) ∧
        ∃ state md5,
          ledger_of (Gcs.index_state_blob st) = Some state ∧
          (doc, md5) ∈ Gcs.list_candidate_blobs lower (Gcs.blobs env) ∧
          Gcs.classify state doc md5 ≠ UNCHANGED.
Proof.
  intros env st st' r Hrun.
  apply (gcs_run_events
           (λ es, ∀ i doc file store dn, es !! i = Some (EUpload doc file store dn) →
              before es i = Some (EDownload doc file) ∧
              file = path_join py:"/tmp" (basename doc) ∧ dn = basename doc ∧
              (∃ st1, Gcs.load_or_create_store env st = (st1, Ret store)) ∧
              ∃ state md5,
                ledger_of (Gcs.index_state_blob st) = Some state ∧
                (doc, md5) ∈ Gcs.list_candidate_blobs lower (Gcs.blobs env) ∧
                Gcs.classify state doc md5 ≠ UNCHANGED)
           lower env st st' r Hrun).
  - intros ?????. by rewrite lookup_nil.
  - intros a b Ha Hb i doc file store dn Hi.
    apply lookup_app_Some in Hi as [Hi|[Hlen Hi]].
    + destruct (Ha _ _ _ _ _ Hi) as (Hbefore & Hrest).
      split; [|done]. rewrite before_app_l; [done|]. by eapply lookup_lt_Some.
    + destruct (Hb _ _ _ _ _ Hi) as (Hbefore & Hrest). split; [|done].
      destruct (i - length a)%nat as [|j] eqn:Hj; [done|].
      replace i with (length a + S j)%nat by lia. by rewrite before_app_r.
  - intros [|i] ????; simpl; [done|]. by rewrite lookup_nil.
  - intros ? [|i] ????; simpl; [done|]. by rewrite lookup_nil.
  - intros ?? [|i] ????; simpl; [done|]. by rewrite lookup_nil.
  - intros ? [|i] ????; simpl; [done|]. by rewrite lookup_nil.
  - intros st1 store state Hst Hstate k [name md5] state0 st0 Hd.
    destruct (gcs_index_one_upload env store k name md5 state0 st0)
      as (es & Hes & Hup).
    exists es. split; [done|].
    intros i doc file store0 dn Hi.
    destruct (Hup _ _ _ _ _ Hi) as (-> & -> & -> & -> & Hbefore).
    rewrite gcs_new_or_changed_eq in Hd.
    apply list_elem_of_filter in Hd as [Hlabel Hd]. simpl in Hlabel.
    split; [done|]. split; [done|]. split; [done|]. split; [by exists st1|].
    by exists state, md5.
Qed.

(** The run over the bucket of [a.txt] (unchanged) and [b.txt] (new): the
    one upload, and the download before it. *)
Lemma X7_gcs_upload_follows_download_witness :
  ∃ st' es i,
    Examples.gcs_run Examples.blobs_ab Examples.polled_once
      (Some (Json.dumps Examples.ledger_a)) = (st', Ret tt) ∧
    Gcs.trace st' = [] ++ es ∧
    es !! i = Some (EUpload py:"b.txt" py:"/tmp/b.txt" py:"fileSearchStores/s1"
                      py:"b.txt") ∧
    before es i = Some (EDownload py:"b.txt" py:"/tmp/b.txt").
Proof.
  set (run := Examples.gcs_run Examples.blobs_ab Examples.polled_once
                (Some (Json.dumps Examples.ledger_a))).
  assert (Hrun : run = (run.1, Ret tt)) by (vm_compute; reflexivity).
  destruct (X7_gcs_upload_follows_download ascii_lower _ _ _ _ Hrun)
    as (es & Htr & Hargs).
  assert (Hi : es !! 3%nat = Some (EUpload py:"b.txt" py:"/tmp/b.txt"
                                     py:"fileSearchStores/s1" py:"b.txt")).
  { simpl in Htr. rewrite <- Htr. vm_compute. reflexivity. }
  exists run.1, es, 3%nat. split; [exact Hrun|]. split; [exact Htr|].
  split; [exact Hi|]. exact (proj1 (Hargs _ _ _ _ _ Hi)).
Defined.

(** *** The polling discipline *)

Lemma slept_app a b : slept (a ++ b) = slept a + slept b.
Proof.
  unfold slept. induction a as [|e a IH]; simpl; [done|]. rewrite IH. lia.
Qed.

Lemma polled_app a b : polled (a ++ b) = (polled a + polled b)%nat.
Proof. unfold polled. by rewrite filter_app, length_app. Qed.

Lemma disciplined_nil : disciplined [].
Proof. split; [|split]; [intros ??|intros ??|done]; by rewrite lookup_nil. Qed.

Lemma disciplined_app a b : disciplined a → disciplined b → disciplined (a ++ b).
Proof.
  intros (Ha1 & Ha2 & Ha3) (Hb1 & Hb2 & Hb3). split; [|split].
  - intros i s [Hi|[Hlen Hi]]%lookup_app_Some.
    + destruct (Ha1 _ _ Hi) as (-> & j & doc & -> & Hj). split; [done|].
      exists j, doc. split; [done|]. by apply lookup_app_l_Some.
    + destruct (Hb1 _ _ Hi) as (-> & j & doc & Hij & Hj). split; [done|].
      exists (length a + j)%nat, doc. split; [lia|].
      by rewrite lookup_app_r, Nat.add_comm, Nat.add_sub by lia.
  - intros i doc [Hi|[Hlen Hi]]%lookup_app_Some.
    + destruct (Ha2 _ _ Hi) as (j & -> & Hs & Hj).
      exists j. split; [done|]. split; by apply lookup_app_l_Some.
    + destruct (Hb2 _ _ Hi) as (j & Hij & Hs & Hj).
      exists (length a + j)%nat. split; [lia|].
      replace (S (length a + j)) with (length a + S j)%nat by lia.
      split; by rewrite lookup_app_r, Nat.add_comm, Nat.add_sub by lia.
  - rewrite slept_app, polled_app, Ha3, Hb3. lia.
Qed.

(** An event that is neither a sleep nor a poll. *)
Lemma disciplined_other e :
  (∀ s, e ≠ ESleep s) → (∀ doc, e ≠ EPoll doc) → disciplined [e].
Proof.
  intros Hs Hp. split; [|split].
  - intros [|i] s; simpl; [intros [= ->]; by destruct (Hs s)|by rewrite lookup_nil].
  - intros [|i] doc; simpl; [intros [= ->]; by destruct (Hp doc)|by rewrite lookup_nil].
  - destruct e; try done; exfalso; [eapply Hs|eapply Hp]; reflexivity.
Qed.

Lemma disciplined_wait doc op : disciplined (wait_events doc op).
Proof.
  assert (Hstep : disciplined [EStatus doc false; ESleep 2; EPoll doc]).
  { split; [|split]; [| |done].
    - intros [|[|[|i]]] s; simpl; try done; try (by rewrite lookup_nil).
      intros [= <-]. split; [done|]. by exists 0%nat, doc.
    - intros [|[|[|i]]] d; simpl; try done; try (by rewrite lookup_nil).
      intros [= <-]. by exists 0%nat. }
  induction op as [|next IH| |]; simpl.
  - by apply disciplined_other.
  - by apply (disciplined_app [_; _; _]).
  - done.
  - apply disciplined_nil.
Qed.

Lemma polled_wait doc op : polled (wait_events doc op) = polls op.
Proof.
  induction op as [|next IH| |]; simpl; try done.
  change (polled ([EStatus doc false; ESleep 2; EPoll doc] ++ wait_events doc next)
          = S (polls next)).
  by rewrite polled_app, IH.
Qed.

Lemma disciplined_local_round env store k d state st :
  ∃ es, (Local.index_one env store k d state st).1 = Local.log st es ∧ disciplined es.
Proof.
  destruct d as [[fname path] h]. rewrite local_index_one_eq.
  assert (Hup : disciplined [EUpload fname path store fname])
    by by apply disciplined_other.
  assert (Hw : ∀ op, disciplined (EUpload fname path store fname ::
                                  wait_events fname op)).
  { intros op. apply (disciplined_app [_]); [done|apply disciplined_wait]. }
  destruct (Local.upload env k) as [|op]; [by eexists|].
  destruct (settles op) as [[]|e0| |]; eexists; (split; [reflexivity|]);
    try apply Hw.
  rewrite app_comm_cons. apply disciplined_app; [apply Hw|].
  by apply disciplined_other.
Qed.

Lemma disciplined_gcs_round env store k d state st :
  ∃ es, Gcs.trace (Gcs.index_one env store k d state st).1 = Gcs.trace st ++ es ∧
        disciplined es.
Proof.
  destruct d as [name md5]. rewrite gcs_index_one_eq. cbv zeta.
  set (p := Gcs.tmp_path_of name).
  assert (Hw : ∀ op, disciplined (EDownload name p ::
                                  EUpload name p store (basename name) ::
                                  wait_events name op)).
  { intros op. apply (disciplined_app [_]); [by apply disciplined_other|].
    apply (disciplined_app [_]); [by apply disciplined_other|].
    apply disciplined_wait. }
  destruct (Gcs.download env k) as [|partial_file].
  2:{ eexists. split; [reflexivity|]. by apply disciplined_other. }
  destruct (Gcs.upload env k) as [|op].
  { eexists. split; [reflexivity|]. apply (Hw OpStuck). }
  destruct (settles op) as [[]|e0| |]; eexists; (split; [reflexivity|]);
    try apply Hw.
  rewrite !app_comm_cons. apply disciplined_app; [apply Hw|].
  apply disciplined_app; [|by apply disciplined_other].
  destruct md5; simpl; [by apply disciplined_other|apply disciplined_nil].
Qed.

(** X8: in every run of either indexer the polling is disciplined: every
    sleep lasts two seconds and directly follows a test that saw an operation
    not done; every poll directly follows such a sleep and is a poll of the
    document tested; so the time slept is two seconds for each poll, and
    there is no sleep and no poll after a test that saw the operation done.
    The polling loop polls once for each answer that the operation is not
    done. *)
Theorem X8_polling_discipline lower :
  (∀ env display_name st st' r,
     Local.incremental_index lower env display_name st = (st', r) →
     ∃ es, Local.trace st' = Local.trace st ++ es ∧ disciplined es) ∧
  (∀ env st st' r,
     Gcs.incremental_index lower env st = (st', r) →
     ∃ es, Gcs.trace st' = Gcs.trace st ++ es ∧ disciplined es) ∧
  (∀ doc op st st' r,
     Local.wait doc op st = (st', r) →
     ∃ es, Local.trace st' = Local.trace st ++ es ∧ r = settles op ∧
           polled es = polls op ∧ slept es = 2 * N.of_nat (polls op)) ∧
  (∀ doc op st st' r,
     Gcs.wait doc op st = (st', r) →
     ∃ es, Gcs.trace st' = Gcs.trace st ++ es ∧ r = settles op ∧
           polled es = polls op ∧ slept es = 2 * N.of_nat (polls op)).
Proof.
  split; [|split; [|split]].
  - intros env dn st st' r Hrun.
    apply (local_run_events disciplined lower env dn st st' r Hrun);
      try (intros; by apply disciplined_other).
    + apply disciplined_nil.
    + apply disciplined_app.
    + intros st1 store state entries _ _ _ k d state0 st0 _.
      apply disciplined_local_round.
  - intros env st st' r Hrun.
    apply (gcs_run_events disciplined lower env st st' r Hrun);
      try (intros; by apply disciplined_other).
    + apply disciplined_nil.
    + apply disciplined_app.
    + intros st1 store state _ _ k d state0 st0 _.
      apply disciplined_gcs_round.
  - intros doc op st st' r. rewrite local_wait_eq. intros [= <- <-].
    exists (wait_events doc op). split; [done|]. split; [done|].
    split; [apply polled_wait|].
    destruct (disciplined_wait doc op) as (_ & _ & ->). by rewrite polled_wait.
  - intros doc op st st' r. rewrite gcs_wait_eq. intros [= <- <-].
    exists (wait_events doc op). split; [done|]. split; [done|].
    split; [apply polled_wait|].
    destruct (disciplined_wait doc op) as (_ & _ & ->). by rewrite polled_wait.
Qed.

(** The run over [a.txt] and [b.txt], the operation of [b.txt] being done
    at its second test: one poll, two seconds slept. *)
Lemma X8_polling_discipline_witness :
  ∃ st' es,
    Examples.local_run Examples.polled_once (Some (Json.dumps Examples.ledger_a))
      = (st', Ret tt) ∧
    Local.trace st' = [] ++ es ∧ disciplined es ∧ polled es = 1%nat ∧ slept es = 2.
Proof.
  set (run := Examples.local_run Examples.polled_once
                (Some (Json.dumps Examples.ledger_a))).
  assert (Hrun : run = (run.1, Ret tt)) by (vm_compute; reflexivity).
  destruct (proj1 (X8_polling_discipline ascii_lower) _ _ _ _ _ Hrun)
    as (es & Htr & Hd).
  exists run.1, es. split; [exact Hrun|]. split; [exact Htr|].
  split; [exact Hd|]. simpl in Htr. rewrite <- Htr.
  split; vm_compute; reflexivity.
Defined.

(** *** The first round that fails *)

Lemma not_succeeds_returns op :
  ¬ upload_succeeds (UploadReturns op) →
  settles op = Raise (ServiceError OperationsGet) ∨ settles op = Hang.
Proof.
  intros Hno. destruct (settles op) as [[]|e| |] eqn:Hs.
  - destruct Hno. by exists op.
  - left. by rewrite (settles_raise _ _ Hs).
  - by right.
  - by apply settles_in_model in Hs.
Qed.

Lemma local_upload_all_first_failure env store docs : ∀ k state st i,
  (i < length docs)%nat →
  (∀ j, (j < i)%nat → upload_succeeds (Local.upload env (k + j)%nat)) →
  ¬ upload_succeeds (Local.upload env (k + i)%nat) →
  ∃ es r, Local.upload_all env store k docs state st = (Local.log st es, r) ∧
    uploaded es = take (S i) (Local.doc_names docs) ∧
    committed es = take i (Local.doc_entries docs) ∧
    saved es = [] ∧
    match Local.upload env (k + i)%nat with
    | UploadRaises => r = Raise (ServiceError Upload)
    | UploadReturns op =>
        (settles op = Raise (ServiceError OperationsGet) ∧
         r = Raise (ServiceError OperationsGet)) ∨
        (settles op = Hang ∧ r = Hang)
    end.
Proof.
  induction docs as [|[[fname path] h] docs IH]; intros k state st i Hi Hprev Hno;
    [simpl in Hi; lia|].
  rewrite local_upload_all_cons, local_index_one_eq.
  destruct i as [|i].
  - rewrite Nat.add_0_r in Hno |- *.
    destruct (Local.upload env k) as [|op] eqn:Hup.
    { eexists _, _. split; [reflexivity|]. done. }
    destruct (wait_events_quiet fname op) as (Hq1 & Hq2 & Hq3 & _).
    destruct (not_succeeds_returns _ Hno) as [Hs|Hs]; rewrite Hs;
      eexists _, _; (split; [reflexivity|]); simpl; rewrite Hq1, Hq2, Hq3;
      repeat split; auto.
  - pose proof (Hprev 0%nat ltac:(lia)) as (op & Hup & Hs).
    rewrite Nat.add_0_r in Hup. rewrite Hup, Hs.
    destruct (IH (S k) (<[fname := h]> state)
                (Local.log st (EUpload fname path store fname ::
                               wait_events fname op ++ [ECommit fname h])) i)
      as (es & r & Heq & Hu & Hc & Hsv & Hr).
    + simpl in Hi. lia.
    + intros j Hj. replace (S k + j)%nat with (k + S j)%nat by lia.
      apply Hprev. lia.
    + by replace (S k + i)%nat with (k + S i)%nat by lia.
    + destruct (wait_events_quiet fname op) as (Hq1 & Hq2 & Hq3 & _).
      exists ((EUpload fname path store fname ::
               wait_events fname op ++ [ECommit fname h]) ++ es), r.
      rewrite Heq, local_log_log. split; [done|].
      replace (S k + i)%nat with (k + S i)%nat in Hr by lia.
      rewrite uploaded_app, committed_app, saved_app, Hu, Hc, Hsv. simpl.
      rewrite uploaded_app, committed_app, saved_app, Hq1, Hq2, Hq3. simpl.
      done.
Qed.

(** X9: the first upload of a run of the local indexer that does not
    succeed ends the run.  When the run has an API key, its store, a ledger
    and [./data], and the uploads of the first [i] new or changed documents
    succeed while the next one raises, or its operation raises at a poll or is
    never done, then the run ends with that exception (or never ends); it has
    called the upload for the first [i + 1] documents and committed the first
    [i] of them in memory only: the ledger file is as it was, so the next run
    finds all of them new or changed again. *)
Theorem X9_local_first_failure lower :
  ∀ env display_name st st' r state entries i,
    Local.incremental_index lower env display_name st = (st', r) →
    truthy (or_else (Local.GOOGLE_API_KEY env) (Local.GEMINI_API_KEY env)) = true →
    truthy (strip <$> Local.store_name_file st) = true ∨
      is_Some (Local.create_store env) →
    ledger_of (Local.index_state_file st) = Some state →
    Local.data env = Some entries →
    let docs := Local.new_or_changed lower state
                  (path_join (Local.cwd env) Local.DATA_DIR) entries in
    (i < length docs)%nat →
    (∀ j, (j < i)%nat → upload_succeeds (Local.upload env j)) →
    ¬ upload_succeeds (Local.upload env i) →
    ∃ es, Local.trace st' = Local.trace st ++ es ∧
      uploaded es = take (S i) (Local.doc_names docs) ∧
      committed es = take i (Local.doc_entries docs) ∧
      saved es = [] ∧
      Local.index_state_file st' = Local.index_state_file st ∧
      match Local.upload env i with
      | UploadRaises => r = Raise (ServiceError Upload)
      | UploadReturns op =>
          (settles op = Raise (ServiceError OperationsGet) ∧
           r = Raise (ServiceError OperationsGet)) ∨
          (settles op = Hang ∧ r = Hang)
      end.
Proof.
  intros env dn st st' r state entries i Hrun Hkey Hres Hstate Hdata docs Hi Hprev Hno.
  assert (Hst : ∃ st1 store es0,
            Local.load_or_create_store env dn st = (st1, Ret store) ∧
            Local.trace st1 = Local.trace st ++ es0 ∧
            Local.index_state_file st1 = Local.index_state_file st ∧
            uploaded es0 = [] ∧ committed es0 = [] ∧ saved es0 = []).
  { rewrite local_store_eq.
    destruct (strip <$> Local.store_name_file st) as [[|c name]|]; simpl in Hres.
    2:{ eexists _, _, []. rewrite app_nil_r. done. }
    all: destruct Hres as [?|[name' Hname]]; [done|]; rewrite Hname;
      eexists _, _, _; (split; [reflexivity|]); done. }
  destruct Hst as (st1 & store & es0 & Hst & Htr0 & Hfile0 & Hu0 & Hc0 & Hs0).
  rewrite (local_run_loaded _ _ _ _ _ _ _ _ Hkey Hst Hstate Hdata) in Hrun.
  cbv zeta in Hrun. unfold docs in *. clear docs.
  rewrite local_new_or_changed_eq in *.
  set (cands := Local.enumerated lower (path_join (Local.cwd env) Local.DATA_DIR)
                  entries) in *.
  set (lg := (λ d : str * str * str, EClassify d.1.1 (Local.classify state d.1.1 d.2))
               <$> cands) in *.
  destruct (classify_log_quiet (λ d : str * str * str, d.1.1)
              (λ d, Local.classify state d.1.1 d.2) cands) as (Hl1 & Hl2 & Hl3 & _).
  fold lg in Hl1, Hl2, Hl3.
  remember (filter (λ d, Local.classify state d.1.1 d.2 ≠ UNCHANGED) cands)
    as docs eqn:Edocs.
  destruct (local_upload_all_first_failure env store docs 0 state (Local.log st1 lg) i
              Hi Hprev Hno) as (es & r2 & Heq & Hu & Hc & Hsv & Hr).
  simpl in Hr.
  assert (Hrun' : (state' <- Local.upload_all env store 0 docs state;;
                   Local.save_index_state state') (Local.log st1 lg) = (st', r)).
  { destruct docs; [simpl in Hi; lia|exact Hrun]. }
  unfold bind in Hrun'. rewrite Heq in Hrun'.
  assert (Hst' : st' = Local.log (Local.log st1 lg) es ∧
                 match Local.upload env i with
                 | UploadRaises => r = Raise (ServiceError Upload)
                 | UploadReturns op =>
                     (settles op = Raise (ServiceError OperationsGet) ∧
                      r = Raise (ServiceError OperationsGet)) ∨
                     (settles op = Hang ∧ r = Hang)
                 end).
  { destruct (Local.upload env i) as [|op].
    - subst r2. by injection Hrun' as <- <-.
    - destruct Hr as [[Hs ->]|[Hs ->]]; injection Hrun' as <- <-; auto. }
  destruct Hst' as [-> Hout].
  exists (es0 ++ lg ++ es). simpl. rewrite Htr0, <- !app_assoc.
  split; [done|].
  rewrite !uploaded_app, !committed_app, !saved_app, Hu0, Hc0, Hs0, Hl1, Hl2, Hl3.
  simpl. done.
Qed.

(** The run over [a.txt] and [b.txt], both new, whose second upload raises. *)
Lemma X9_local_first_failure_witness :
  ∃ st' es,
    Examples.local_run Samples.second_upload_raises None =
      (st', Raise (ServiceError Upload)) ∧
    Local.trace st' = [] ++ es ∧
    uploaded es = [py:"a.txt"; py:"b.txt"] ∧
    committed es = [(py:"a.txt", py:"h1")] ∧
    saved es = [] ∧
    Local.index_state_file st' = None.
Proof.
  set (run := Examples.local_run Samples.second_upload_raises None).
  destruct (X9_local_first_failure ascii_lower
              (Examples.local_env Examples.files_ab Samples.second_upload_raises)
              py:"my_docs_store" (Examples.local_st None) run.1 run.2 ∅
              Examples.files_ab 1%nat (surjective_pairing run))
    as (es & Htr & Hu & Hc & Hs & Hfile & Hr).
  - reflexivity.
  - left. reflexivity.
  - reflexivity.
  - reflexivity.
  - vm_compute. lia.
  - intros j Hj. replace j with 0%nat by lia. by exists (OpPending OpDone).
  - intros (op & Hop & _). discriminate Hop.
  - exists run.1, es. simpl in Hr.
    split; [by rewrite <- Hr, <- surjective_pairing|].
    split; [exact Htr|]. split; [exact Hu|]. split; [exact Hc|].
    split; [exact Hs|exact Hfile].
Defined.

Lemma gcs_upload_all_first_failure env store docs : ∀ k state st i name md5,
  docs !! i = Some (name, md5) →
  (∀ j, (j < i)%nat →
     Gcs.download env (k + j)%nat = Gcs.DownloadOk ∧
     upload_succeeds (Gcs.upload env (k + j)%nat)) →
  (Gcs.download env (k + i)%nat = Gcs.DownloadOk →
   ¬ upload_succeeds (Gcs.upload env (k + i)%nat)) →
  ∃ st' r es kept, Gcs.upload_all env store k docs state st = (st', r) ∧
    Gcs.trace st' = Gcs.trace st ++ es ∧
    Gcs.store_name_blob st' = Gcs.store_name_blob st ∧
    Gcs.index_state_blob st' = Gcs.index_state_blob st ∧
    committed es = Gcs.doc_entries (take i docs) ∧
    saved es = [] ∧
    let staged_before : gset str :=
      list_to_set (Gcs.tmp_path_of <$> Gcs.doc_names (take i docs)) in
    Gcs.tmp st ∖ staged_before ⊆ kept ∧
    kept ⊆ Gcs.tmp st ∪ staged_before ∧
    ((∀ j, (j < i)%nat → Gcs.remove env (k + j)%nat = true) →
     kept = Gcs.tmp st ∖ staged_before) ∧
    match Gcs.download env (k + i)%nat with
    | Gcs.DownloadRaises partial_file =>
        r = Raise (ServiceError Download) ∧
        uploaded es = take i (Gcs.doc_names docs) ∧
        Gcs.tmp st' = if partial_file then {[Gcs.tmp_path_of name]} ∪ kept else kept
    | Gcs.DownloadOk =>
        uploaded es = take (S i) (Gcs.doc_names docs) ∧
        Gcs.tmp st' = {[Gcs.tmp_path_of name]} ∪ kept ∧
        match Gcs.upload env (k + i)%nat with
        | UploadRaises => r = Raise (ServiceError Upload)
        | UploadReturns op =>
            (settles op = Raise (ServiceError OperationsGet) ∧
             r = Raise (ServiceError OperationsGet)) ∨
            (settles op = Hang ∧ r = Hang)
        end
    end.
Proof.
  induction docs as [|[name0 md0] docs IH]; intros k state st i name md5 Hi Hprev Hno;
    [by rewrite lookup_nil in Hi|].
  rewrite gcs_upload_all_cons, gcs_index_one_eq. cbv zeta.
  destruct i as [|i].
  - injection Hi as -> ->. rewrite Nat.add_0_r in Hno |- *. simpl.
    assert (Hkept : Gcs.tmp st ∖ ∅ ⊆ Gcs.tmp st ∧ Gcs.tmp st ⊆ Gcs.tmp st ∪ ∅ ∧
                    ((∀ j, (j < 0)%nat → Gcs.remove env (k + j)%nat = true) →
                     Gcs.tmp st = Gcs.tmp st ∖ ∅)).
    { rewrite difference_empty_L. split; [done|].
      split; [apply union_subseteq_l|done]. }
    destruct Hkept as (Hk1 & Hk2 & Hk3).
    destruct (Gcs.download env k) as [|partial_file] eqn:Hdl.
    2:{ eexists _, _, _, (Gcs.tmp st). split; [reflexivity|].
        split; [reflexivity|]. simpl. done. }
    specialize (Hno eq_refl).
    destruct (Gcs.upload env k) as [|op] eqn:Hup.
    { eexists _, _, _, (Gcs.tmp st). split; [reflexivity|].
      split; [reflexivity|]. simpl. done. }
    destruct (wait_events_quiet name op) as (Hq1 & Hq2 & Hq3 & _).
    destruct (not_succeeds_returns _ Hno) as [Hs|Hs]; rewrite Hs;
      eexists _, _, _, (Gcs.tmp st); (split; [reflexivity|]);
      (split; [reflexivity|]);
      simpl; rewrite Hq1, Hq2, Hq3; repeat split; auto.
  - simpl in Hi.
    pose proof (Hprev 0%nat ltac:(lia)) as (Hdl & op & Hup & Hs).
    rewrite Nat.add_0_r in Hdl, Hup. rewrite Hdl, Hup, Hs.
    set (st1 := staged st _ _).
    destruct (IH (S k) (apply_commits state (Gcs.doc_entries [(name0, md0)])) st1
                i name md5 Hi)
      as (st' & r & es & kept & Heq & Htr & Hn & Hf & Hc & Hsv & Hk1 & Hk2 & Hk3 & Hr).
    + intros j Hj. replace (S k + j)%nat with (k + S j)%nat by lia.
      apply Hprev. lia.
    + by replace (S k + i)%nat with (k + S i)%nat by lia.
    + destruct (wait_events_quiet name0 op) as (Hq1 & Hq2 & Hq3 & _).
      exists st', r. eexists (_ ++ es), kept.
      rewrite Heq. split; [done|].
      split; [rewrite Htr; unfold st1; simpl; by rewrite <- app_assoc|].
      split; [by rewrite Hn|]. split; [by rewrite Hf|].
      replace (S k + i)%nat with (k + S i)%nat in Hr by lia.
      rewrite committed_app, saved_app, Hc, Hsv.
      split.
      { simpl. rewrite !committed_app, Hq2. simpl. by destruct md0. }
      split.
      { simpl. rewrite !saved_app, Hq3. by destruct md0. }
      cbv zeta.
      assert (Hst1 : Gcs.tmp st ∖ {[Gcs.tmp_path_of name0]} ⊆ Gcs.tmp st1 ∧
                     Gcs.tmp st1 ⊆ {[Gcs.tmp_path_of name0]} ∪ Gcs.tmp st ∧
                     (Gcs.remove env k = true →
                      Gcs.tmp st1 = Gcs.tmp st ∖ {[Gcs.tmp_path_of name0]})).
      { unfold st1. simpl. destruct (Gcs.remove env k).
        - rewrite stage_remove. split; [done|]. split; [|done].
          intros x [? _]%elem_of_difference. apply elem_of_union. by right.
        - split; [|split; [done|discriminate]].
          intros x [? _]%elem_of_difference. apply elem_of_union. by right. }
      destruct Hst1 as (Hs1 & Hs2 & Hs3).
      cbv zeta in Hk1, Hk2, Hk3. simpl.
      split.
      { intros x Hx. apply Hk1.
        rewrite elem_of_difference in Hx |- *. rewrite elem_of_union in Hx.
        split; [apply Hs1; rewrite elem_of_difference; tauto|tauto]. }
      split.
      { intros x Hx. apply Hk2 in Hx. rewrite elem_of_union in Hx.
        rewrite !elem_of_union.
        destruct Hx as [Hx|Hx]; [|tauto].
        apply Hs2 in Hx. rewrite elem_of_union in Hx. tauto. }
      split.
      { intros Hrm. rewrite Hk3.
        - rewrite Hs3 by (rewrite <- (Nat.add_0_r k); apply Hrm; lia).
          by rewrite difference_difference_l_L.
        - intros j Hj. replace (S k + j)%nat with (k + S j)%nat by lia.
          apply Hrm. lia. }
      destruct (Gcs.download env (k + S i)%nat) as [|partial_file].
      * destruct Hr as (Hu & Ht & Hout). split; [|done].
        rewrite uploaded_app, Hu. simpl. rewrite !uploaded_app, Hq1.
        by destruct md0.
      * destruct Hr as (-> & Hu & Ht). split; [done|]. split; [|done].
        rewrite uploaded_app, Hu. simpl. rewrite !uploaded_app, Hq1.
        by destruct md0.
Qed.

(** X10: the first round of a run of the bucket indexer that fails ends
    the run.  When the run has an API key, the bucket, its store and a ledger,
    and the first [i] new or changed blobs are downloaded and uploaded with
    success while the download of the next one raises, or its upload raises, or
    its operation raises at a poll or is never done, then the run ends with
    that exception (or never ends).  It has committed the first [i] blobs in
    memory only: the ledger blob is as it was.  The copy of the failing blob
    is left behind (when its download raises: if the download left a partial
    file), and no upload is called for a blob whose download raises.  Of the
    other files under [/tmp], the run has changed none but the copies of the
    first [i] blobs, and these are gone when their removals succeeded: a
    removal that fails is passed over and leaves the copy. *)
Theorem X10_gcs_first_failure lower :
  ∀ env st st' r state i name md5,
    Gcs.incremental_index lower env st = (st', r) →
    truthy (or_else (Gcs.GOOGLE_API_KEY env) (Gcs.GEMINI_API_KEY env)) = true →
    Gcs.bucket_exists env = true →
    truthy (strip <$> Gcs.store_name_blob st) = true ∨
      is_Some (Gcs.create_store env) →
    ledger_of (Gcs.index_state_blob st) = Some state →
    let docs := Gcs.new_or_changed state
                  (Gcs.list_candidate_blobs lower (Gcs.blobs env)) in
    docs !! i = Some (name, md5) →
    (∀ j, (j < i)%nat →
       Gcs.download env j = Gcs.DownloadOk ∧ upload_succeeds (Gcs.upload env j)) →
    (Gcs.download env i = Gcs.DownloadOk → ¬ upload_succeeds (Gcs.upload env i)) →
    ∃ es kept, Gcs.trace st' = Gcs.trace st ++ es ∧
      committed es = Gcs.doc_entries (take i docs) ∧
      saved es = [] ∧
      Gcs.index_state_blob st' = Gcs.index_state_blob st ∧
      let staged_before : gset str :=
        list_to_set (Gcs.tmp_path_of <$> Gcs.doc_names (take i docs)) in
      Gcs.tmp st ∖ staged_before ⊆ kept ∧
      kept ⊆ Gcs.tmp st ∪ staged_before ∧
      ((∀ j, (j < i)%nat → Gcs.remove env j = true) →
       kept = Gcs.tmp st ∖ staged_before) ∧
      match Gcs.download env i with
      | Gcs.DownloadRaises partial_file =>
          r = Raise (ServiceError Download) ∧
          uploaded es = take i (Gcs.doc_names docs) ∧
          Gcs.tmp st' = if partial_file then {[Gcs.tmp_path_of name]} ∪ kept else kept
      | Gcs.DownloadOk =>
          uploaded es = take (S i) (Gcs.doc_names docs) ∧
          Gcs.tmp st' = {[Gcs.tmp_path_of name]} ∪ kept ∧
          match Gcs.upload env i with
          | UploadRaises => r = Raise (ServiceError Upload)
          | UploadReturns op =>
              (settles op = Raise (ServiceError OperationsGet) ∧
               r = Raise (ServiceError OperationsGet)) ∨
              (settles op = Hang ∧ r = Hang)
          end
      end.
Proof.
  intros env st st' r state i name md5 Hrun Hkey Hbucket Hres Hstate docs Hi Hprev Hno.
  assert (Hst : ∃ st1 store es0,
            Gcs.load_or_create_store env st = (st1, Ret store) ∧
            Gcs.trace st1 = Gcs.trace st ++ es0 ∧
            Gcs.index_state_blob st1 = Gcs.index_state_blob st ∧
            Gcs.tmp st1 = Gcs.tmp st ∧
            uploaded es0 = [] ∧ committed es0 = [] ∧ saved es0 = []).
  { rewrite gcs_store_eq.
    destruct (strip <$> Gcs.store_name_blob st) as [[|c name']|]; simpl in Hres.
    2:{ eexists _, _, []. rewrite app_nil_r. done. }
    all: destruct Hres as [?|[name' Hname]]; [done|]; rewrite Hname;
      eexists _, _, _; (split; [reflexivity|]); done. }
  destruct Hst as (st1 & store & es0 & Hst & Htr0 & Hfile0 & Htmp0 & Hu0 & Hc0 & Hs0).
  rewrite (gcs_run_loaded _ _ _ _ _ _ Hkey Hbucket Hst Hstate) in Hrun.
  cbv zeta in Hrun. unfold docs in *. clear docs.
  rewrite gcs_new_or_changed_eq in *.
  set (cands := Gcs.list_candidate_blobs lower (Gcs.blobs env)) in *.
  set (lg := (λ d : str * option str, EClassify d.1 (Gcs.classify state d.1 d.2))
               <$> cands) in *.
  destruct (classify_log_quiet (λ d : str * option str, d.1)
              (λ d, Gcs.classify state d.1 d.2) cands) as (Hl1 & Hl2 & Hl3 & _).
  fold lg in Hl1, Hl2, Hl3.
  remember (filter (λ d, Gcs.classify state d.1 d.2 ≠ UNCHANGED) cands)
    as docs eqn:Edocs.
  destruct (gcs_upload_all_first_failure env store docs 0 state (Gcs.log st1 lg) i
              name md5 Hi Hprev Hno)
    as (st2 & r2 & es & kept & Heq & Htr & _ & Hfile & Hc & Hsv & Hk1 & Hk2 & Hk3 & Hr).
  simpl in Hr, Htr, Hfile, Hk1, Hk2, Hk3.
  assert (Hrun' : (state' <- Gcs.upload_all env store 0 docs state;;
                   Gcs.save_index_state_to_gcs state') (Gcs.log st1 lg) = (st', r)).
  { destruct docs; [by rewrite lookup_nil in Hi|exact Hrun]. }
  unfold bind in Hrun'. rewrite Heq in Hrun'.
  assert (Hst' : st' = st2 ∧ r2 ≠ OutOfModel ∧
                 match r2 with
                 | Ret _ => False
                 | Raise e => r = Raise e
                 | Hang => r = Hang
                 | OutOfModel => True
                 end).
  { destruct (Gcs.download env i) as [|partial_file].
    - destruct Hr as (_ & _ & Hr). destruct (Gcs.upload env i) as [|op].
      + subst r2. by injection Hrun' as <- <-.
      + destruct Hr as [[_ ->]|[_ ->]]; by injection Hrun' as <- <-.
    - destruct Hr as (-> & _). by injection Hrun' as <- <-. }
  destruct Hst' as (-> & Hmodel & Hout).
  exists (es0 ++ lg ++ es), kept. rewrite Htr, Htr0, <- !app_assoc.
  split; [done|].
  rewrite !committed_app, !saved_app, Hc0, Hs0, Hl2, Hl3, Hfile, Hfile0.
  do 3 (split; [done|]).
  rewrite Htmp0 in Hk1, Hk2, Hk3. cbv zeta.
  do 3 (split; [done|]).
  destruct (Gcs.download env i) as [|partial_file].
  - destruct Hr as (Hu & Ht & Hr).
    split; [by rewrite !uploaded_app, Hu0, Hl1|]. split; [done|].
    destruct (Gcs.upload env i) as [|op]; [by subst r2|].
    destruct Hr as [[Hs ->]|[Hs ->]]; auto.
  - destruct Hr as (-> & Hu & Ht).
    split; [done|]. split; [by rewrite !uploaded_app, Hu0, Hl1|done].
Qed.

(** The run over the bucket of [a.txt] and [b.txt], both new, whose second
    download raises and leaves a partial file. *)
Lemma X10_gcs_first_failure_witness :
  ∃ st' es,
    Gcs.incremental_index ascii_lower Samples.torn_download (Examples.gcs_st None) =
      (st', Raise (ServiceError Download)) ∧
    Gcs.trace st' = [] ++ es ∧
    uploaded es = [py:"a.txt"] ∧
    committed es = [(py:"a.txt", py:"h1")] ∧
    saved es = [] ∧
    Gcs.index_state_blob st' = None ∧
    Gcs.tmp st' = {[ py:"/tmp/b.txt" ]}.
Proof.
  set (run := Gcs.incremental_index ascii_lower Samples.torn_download
                (Examples.gcs_st None)).
  destruct (X10_gcs_first_failure ascii_lower Samples.torn_download
              (Examples.gcs_st None) run.1 run.2 ∅ 1%nat py:"b.txt" (Some py:"h2")
              (surjective_pairing run))
    as (es & kept & Htr & Hc & Hs & Hfile & _ & _ & Hk & Hr).
  - reflexivity.
  - reflexivity.
  - left. reflexivity.
  - reflexivity.
  - vm_compute. reflexivity.
  - intros j Hj. replace j with 0%nat by lia.
    split; [reflexivity|]. by exists (OpPending OpDone).
  - intros Hdl. discriminate Hdl.
  - simpl in Hr. destruct Hr as (Hr & Hu & Ht).
    exists run.1, es.
    split; [by rewrite <- Hr, <- surjective_pairing|].
    split; [exact Htr|]. split; [exact Hu|]. split; [exact Hc|].
    split; [exact Hs|]. split; [exact Hfile|].
    rewrite Ht, Hk by reflexivity. vm_compute. reflexivity.
Defined.

End UploadLoop.

(** ** The store name across calls and runs *)

Section StoreName.
Import Py Run Trace Environ.

Lemma lstrip_head s c t : lstrip s = c :: t → isspace c = false.
Proof.
  induction s as [|a s IH]; simpl; [done|].
  destruct (isspace a) eqn:Ha; [done|]. by intros [= <- _].
Qed.

Lemma lstrip_nonspace c t : isspace c = false → lstrip (c :: t) = c :: t.
Proof. intros Hc. simpl. by rewrite Hc. Qed.

Lemma lstrip_idemp s : lstrip (lstrip s) = lstrip s.
Proof.
  destruct (lstrip s) as [|c t] eqn:Hs; [done|].
  apply lstrip_nonspace. by eapply lstrip_head.
Qed.

(** Stripping on the left keeps a last character that is no white space. *)
Lemma lstrip_snoc u c : isspace c = false → ∃ u', lstrip (u ++ [c]) = u' ++ [c].
Proof.
  intros Hc. induction u as [|a u IH]; simpl.
  - rewrite Hc. by exists [].
  - destruct (isspace a); [done|]. by exists (a :: u).
Qed.

Lemma rstrip_idemp s : rstrip (rstrip s) = rstrip s.
Proof. unfold rstrip. by rewrite reverse_involutive, lstrip_idemp. Qed.

(** Stripping on the right keeps a first character that is no white space. *)
Lemma rstrip_cons c t : isspace c = false → ∃ t', rstrip (c :: t) = c :: t'.
Proof.
  intros Hc. unfold rstrip. rewrite reverse_cons.
  destruct (lstrip_snoc (reverse t) c Hc) as [u' ->].
  exists (reverse u'). by rewrite reverse_app.
Qed.

Lemma strip_idemp s : strip (strip s) = strip s.
Proof.
  unfold strip. destruct (lstrip s) as [|c t] eqn:Hs; [done|].
  destruct (rstrip_cons c t (lstrip_head _ _ _ Hs)) as [t' Ht]. rewrite Ht.
  rewrite lstrip_nonspace by by eapply lstrip_head.
  by rewrite <- Ht, rstrip_idemp.
Qed.

(** A text without carriage return is read back as it was written. *)
Lemma universal_newlines_plain s : 13 ∉ s → universal_newlines s = s.
Proof.
  induction s as [|c s IH]; [done|]. intros Hs. simpl.
  destruct (N.eqb_spec c 13) as [->|_]; [destruct Hs; left|].
  rewrite IH; [done|]. intros Hin. apply Hs. by right.
Qed.

(** The name that a later read of [.store_name] yields, after a call of
    [load_or_create_store] that returned [store]. *)
Lemma local_store_on_file env dn st st1 store :
  Local.load_or_create_store env dn st = (st1, Ret store) →
  strip <$> Local.store_name_file st1 =
  Some (if truthy (strip <$> Local.store_name_file st) then store
        else strip (universal_newlines store)).
Proof.
  rewrite local_store_eq.
  destruct (Local.store_name_file st) as [content|] eqn:Hcontent; simpl.
  - destruct (strip content) as [|c s] eqn:Hs.
    + destruct (Local.create_store env); by intros [= <- <-].
    + intros [= <- <-]. rewrite Hcontent. simpl. by rewrite Hs.
  - destruct (Local.create_store env); by intros [= <- <-].
Qed.

(** X11: the store that [load_or_create_store] resolved is the store that
    every later call resolves, whatever its environment and display name: the
    later call finds the name on record, calls no service and writes nothing,
    so a store is created once, by the first call.  In the bucket the later
    call returns the name stripped of surrounding white space, provided that is
    not empty.  With the file, it returns the name itself when the first call
    read it there; when the first call created the store, it returns the
    created name as the text file gives it back, each carriage return (alone or
    before a line feed) read as a line feed, and stripped, provided that is not
    empty; a name without carriage return is given back as it was written. *)
Theorem X11_store_resolved_once :
  (∀ env display_name st st1 name,
     Local.load_or_create_store env display_name st = (st1, Ret name) →
     (truthy (strip <$> Local.store_name_file st) = false →
      strip (universal_newlines name) ≠ []) →
     ∀ env' display_name',
       Local.load_or_create_store env' display_name' st1 =
       (st1, Ret (if truthy (strip <$> Local.store_name_file st) then name
                  else strip (universal_newlines name)))) ∧
  (∀ s, 13 ∉ s → universal_newlines s = s) ∧
  (∀ env st st1 name,
     Gcs.load_or_create_store env st = (st1, Ret name) →
     strip name ≠ [] →
     (∀ env', Gcs.load_or_create_store env' st1 = (st1, Ret (strip name))) ∧
     (truthy (strip <$> Gcs.store_name_blob st) = true → strip name = name)).
Proof.
  split; [|split; [exact universal_newlines_plain|]].
  - intros env dn st st1 name Hst Hne env' dn'.
    pose proof (local_store_on_file _ _ _ _ _ Hst) as Hfile.
    assert (Hfull : (if truthy (strip <$> Local.store_name_file st) then name
                     else strip (universal_newlines name)) ≠ []).
    { destruct (truthy (strip <$> Local.store_name_file st)) eqn:Hon; [|by apply Hne].
      rewrite local_store_eq in Hst.
      destruct (strip <$> Local.store_name_file st) as [[|c s]|]; [done| |done].
      injection Hst as _ <-. done. }
    rewrite local_store_eq, Hfile.
    by destruct (if truthy (strip <$> Local.store_name_file st) then name
                 else strip (universal_newlines name)).
  - intros env st st1 name Hst Hne.
    assert (Hblob : strip <$> Gcs.store_name_blob st1 = Some (strip name) ∧
                    (truthy (strip <$> Gcs.store_name_blob st) = true →
                     strip name = name)).
    { rewrite gcs_store_eq in Hst.
      destruct (Gcs.store_name_blob st) as [content|] eqn:Hcontent; simpl in Hst |- *.
      - destruct (strip content) as [|c s] eqn:Hs.
        + destruct (Gcs.create_store env); simplify_eq; simpl; by split.
        + simplify_eq. rewrite Hcontent. simpl. rewrite Hs.
          by rewrite <- Hs, strip_idemp.
      - destruct (Gcs.create_store env); simplify_eq; simpl; by split. }
    destruct Hblob as [Hblob Hsame]. split; [|done].
    intros env'. rewrite gcs_store_eq, Hblob.
    by destruct (strip name).
Qed.

(** The first call creates the store; a second call, against a service that
    would refuse to create one, returns its name.  When the service names the
    store with a carriage return, the second call of the local indexer returns
    the name with a line feed in its place. *)
Lemma X11_store_resolved_once_witness :
  (∃ st1,
     Local.load_or_create_store Samples.no_data py:"my_docs_store" Samples.fresh_local
       = (st1, Ret py:"fileSearchStores/s1") ∧
     Local.load_or_create_store Samples.no_store_local py:"other" st1
       = (st1, Ret py:"fileSearchStores/s1")) ∧
  (∃ st1,
     Local.load_or_create_store Samples.cr_store py:"my_docs_store" Samples.fresh_local
       = (st1, Ret [115; 13; 49]) ∧
     Local.load_or_create_store Samples.no_store_local py:"other" st1
       = (st1, Ret [115; 10; 49])) ∧
  (∃ st1,
     Gcs.load_or_create_store Samples.torn_download Samples.fresh_gcs
       = (st1, Ret py:"fileSearchStores/s1") ∧
     Gcs.load_or_create_store Samples.no_store_gcs st1
       = (st1, Ret py:"fileSearchStores/s1")).
Proof.
  split; [|split].
  - set (call := Local.load_or_create_store Samples.no_data py:"my_docs_store"
                   Samples.fresh_local).
    assert (Hcall : call = (call.1, Ret py:"fileSearchStores/s1")) by reflexivity.
    exists call.1. split; [exact Hcall|].
    apply (proj1 X11_store_resolved_once _ _ _ _ _ Hcall
             ltac:(intros _; vm_compute; discriminate)).
  - set (call := Local.load_or_create_store Samples.cr_store py:"my_docs_store"
                   Samples.fresh_local).
    assert (Hcall : call = (call.1, Ret [115; 13; 49])) by reflexivity.
    exists call.1. split; [exact Hcall|].
    apply (proj1 X11_store_resolved_once _ _ _ _ _ Hcall
             ltac:(intros _; vm_compute; discriminate)).
  - set (call := Gcs.load_or_create_store Samples.torn_download Samples.fresh_gcs).
    assert (Hcall : call = (call.1, Ret py:"fileSearchStores/s1")) by reflexivity.
    exists call.1. split; [exact Hcall|].
    apply (proj1 (proj2 (proj2 X11_store_resolved_once) _ _ _ _ Hcall
                    ltac:(vm_compute; discriminate))).
Defined.

(** The stores that the store stage of a run creates. *)
Lemma local_store_created env dn st st1 ro :
  Local.load_or_create_store env dn st = (st1, ro) →
  ∃ es, Local.trace st1 = Local.trace st ++ es ∧
        created es = if truthy (strip <$> Local.store_name_file st) then [] else [dn].
Proof.
  rewrite local_store_eq.
  destruct (strip <$> Local.store_name_file st) as [[|c name]|]; simpl.
  2:{ intros [= <- <-]. exists []. by rewrite app_nil_r. }
  all: destruct (Local.create_store env); intros [= <- <-]; by eexists.
Qed.

Lemma gcs_store_created env st st1 ro :
  Gcs.load_or_create_store env st = (st1, ro) →
  ∃ es, Gcs.trace st1 = Gcs.trace st ++ es ∧
        created es = if truthy (strip <$> Gcs.store_name_blob st) then []
                     else [py:"my_docs_store"].
Proof.
  rewrite gcs_store_eq.
  destruct (strip <$> Gcs.store_name_blob st) as [[|c name]|]; simpl.
  2:{ intros [= <- <-]. exists []. by rewrite app_nil_r. }
  all: destruct (Gcs.create_store env); intros [= <- <-]; by eexists.
Qed.

(** X12: a run calls the store creation at most once, and exactly when it
    has an API key (and the bucket) and no store name on record.  The local
    script passes the display name [FILE_SEARCH_DISPLAY_NAME] of the
    environment, [my_docs_store] when the variable is not set (an empty value
    is passed on as it is); the bucket indexer always passes [my_docs_store].
    When a store name is on record the display name plays no part in the
    run. *)
Theorem X12_store_creation_per_run lower :
  (∀ env environ st st' r,
     LocalMain.main lower env environ st = (st', r) →
     ∃ es, Local.trace st' = Local.trace st ++ es ∧
       created es =
       if truthy (or_else (Local.GOOGLE_API_KEY env) (Local.GEMINI_API_KEY env)) &&
          negb (truthy (strip <$> Local.store_name_file st))
       then [match environ !! py:"FILE_SEARCH_DISPLAY_NAME" with
             | Some v => v
             | None => py:"my_docs_store"
             end]
       else []) ∧
  (∀ env st st' r,
     Gcs.incremental_index lower env st = (st', r) →
     ∃ es, Gcs.trace st' = Gcs.trace st ++ es ∧
       created es =
       if truthy (or_else (Gcs.GOOGLE_API_KEY env) (Gcs.GEMINI_API_KEY env)) &&
          Gcs.bucket_exists env &&
          negb (truthy (strip <$> Gcs.store_name_blob st))
       then [py:"my_docs_store"]
       else []) ∧
  (∀ env display_name display_name' st,
     truthy (strip <$> Local.store_name_file st) = true →
     Local.incremental_index lower env display_name st =
     Local.incremental_index lower env display_name' st).
Proof.
  split; [|split].
  - intros env environ st st' r Hrun. unfold LocalMain.main, getenv in Hrun.
    set (dn := match environ !! py:"FILE_SEARCH_DISPLAY_NAME" with
               | Some v => v
               | None => py:"my_docs_store"
               end) in *.
    destruct (local_run_cases _ _ _ _ _ _ Hrun)
      as [(Hkey & _ & ->)|(Hkey & [[Hst _]|(st1 & store & Hst & _ & Htail & _)])];
      rewrite Hkey; simpl.
    + exists []. by rewrite app_nil_r.
    + destruct (local_store_created _ _ _ _ _ Hst) as (es & Htr & Hcr).
      exists es. split; [done|]. rewrite Hcr. by destruct (truthy (strip <$> _)).
    + destruct (local_store_created _ _ _ _ _ Hst) as (es0 & Htr0 & Hcr0).
      destruct Htail as (es & Htr & Hcr).
      exists (es0 ++ es). rewrite Htr, Htr0, app_assoc. split; [done|].
      rewrite created_app, Hcr0, Hcr, app_nil_r. by destruct (truthy (strip <$> _)).
  - intros env st st' r Hrun.
    destruct (gcs_run_cases _ _ _ _ _ Hrun)
      as [(Hkey & _ & ->)|(Hkey & [(Hb & _ & ->)|(Hb & [[Hst _]|
           (st1 & store & Hst & _ & Htail & _)])])]; rewrite Hkey, ?Hb; simpl.
    + exists []. by rewrite app_nil_r.
    + exists []. by rewrite app_nil_r.
    + destruct (gcs_store_created _ _ _ _ Hst) as (es & Htr & Hcr).
      exists es. split; [done|]. rewrite Hcr. by destruct (truthy (strip <$> _)).
    + destruct (gcs_store_created _ _ _ _ Hst) as (es0 & Htr0 & Hcr0).
      destruct Htail as (es & Htr & Hcr).
      exists (es0 ++ es). rewrite Htr, Htr0, app_assoc. split; [done|].
      rewrite created_app, Hcr0, Hcr, app_nil_r. by destruct (truthy (strip <$> _)).
  - intros env dn dn' st Hname. unfold Local.incremental_index, Local.make_client.
    destruct (truthy (or_else _ _)); [|reflexivity].
    unfold bind at 1. unfold bind at 6. simpl.
    assert (Heq : Local.load_or_create_store env dn st =
                  Local.load_or_create_store env dn' st).
    { rewrite !local_store_eq.
      by destruct (strip <$> Local.store_name_file st) as [[|c name]|]. }
    unfold bind at 1. unfold bind at 5. by rewrite Heq.
Qed.

(** The first run of the script with [FILE_SEARCH_DISPLAY_NAME=kb], in a
    directory without [./data]; and a run with a store name on record, under
    two display names. *)
Lemma X12_store_creation_per_run_witness :
  (∃ st' es,
     LocalMain.main ascii_lower Samples.no_data
       {[ py:"FILE_SEARCH_DISPLAY_NAME" := py:"kb" ]} Samples.fresh_local
       = (st', Raise DataDirNotFound) ∧
     Local.trace st' = [] ++ es ∧ created es = [py:"kb"]) ∧
  Local.incremental_index ascii_lower
    (Examples.local_env Examples.files_ab Examples.polled_once) py:"kb"
    (Examples.local_st None) =
  Local.incremental_index ascii_lower
    (Examples.local_env Examples.files_ab Examples.polled_once) py:"my_docs_store"
    (Examples.local_st None).
Proof.
  split.
  - set (run := LocalMain.main ascii_lower Samples.no_data
                  {[ py:"FILE_SEARCH_DISPLAY_NAME" := py:"kb" ]} Samples.fresh_local).
    assert (Hrun : run = (run.1, Raise DataDirNotFound)) by (vm_compute; reflexivity).
    destruct (proj1 (X12_store_creation_per_run ascii_lower) _ _ _ _ _ Hrun)
      as (es & Htr & Hcr).
    exists run.1, es. split; [exact Hrun|]. split; [exact Htr|].
    rewrite Hcr. vm_compute. reflexivity.
  - apply (proj2 (proj2 (X12_store_creation_per_run ascii_lower))). reflexivity.
Defined.

End StoreName.

(** ** The query service *)

Section Serving.
Import Py Run Trace App Environ.

(** X13: how [app.py] starts.  The module loads exactly when an API key
    is set and [.store_name] holds a name that is not blank; [STORE_NAME] is
    then that content stripped of surrounding white space, so it is not empty:
    [GET /status] always says [ready], and [POST /ask] never answers with the
    error 500 of a store that is not loaded, but with the answer of the model
    whenever the call to the model returns.  Otherwise the server does not
    start: the missing key is reported before the missing file, and the
    missing file apart from the blank one. *)
Theorem X13_app_startup :
  ∀ environ store_name_file,
    match Server.load_module environ store_name_file with
    | Server.Started g =>
        truthy (or_else (environ !! py:"GOOGLE_API_KEY")
                        (environ !! py:"GEMINI_API_KEY")) = true ∧
        (∃ content, store_name_file = Some content ∧
                    Server.STORE_NAME g = strip content) ∧
        Server.STORE_NAME g ≠ [] ∧
        strip (Server.STORE_NAME g) = Server.STORE_NAME g ∧
        Server.status g =
          {| Server.store_name := Server.STORE_NAME g; Server.ready := true |} ∧
        (∀ response, ∃ q, Server.ask g (Ret response) = Ret q) ∧
        (∀ e, Server.ask g (Raise e) = Raise e)
    | Server.RuntimeError message =>
        (truthy (or_else (environ !! py:"GOOGLE_API_KEY")
                         (environ !! py:"GEMINI_API_KEY")) = false ∧
         message =
         py:"Set GOOGLE_API_KEY or GEMINI_API_KEY in your environment or .env file.") ∨
        (truthy (or_else (environ !! py:"GOOGLE_API_KEY")
                         (environ !! py:"GEMINI_API_KEY")) = true ∧
         ((store_name_file = None ∧
           message =
           py:".store_name not found. Run the indexing script first to create a File Search store.") ∨
          (∃ content, store_name_file = Some content ∧ strip content = [] ∧
           message =
           py:".store_name is empty. Ensure the indexing script wrote the store resource name correctly.")))
    end.
Proof.
  intros environ file. unfold Server.load_module.
  destruct (truthy (or_else _ _)) eqn:Hkey; simpl; [|by left].
  unfold Server.load_store_name.
  destruct file as [content|]; [|right; split; [done|]; by left].
  destruct (strip content) as [|c name] eqn:Hname; simpl.
  { right. split; [done|]. right. by exists content. }
  split; [done|]. split; [by exists content|]. split; [done|].
  split; [by rewrite <- Hname, strip_idemp|]. split; [done|].
  split; [intros response; by eexists|done].
Qed.

(** X14: how [app_remote.py] starts.  The module loads exactly when an
    API key is set, the bucket [DOCS_BUCKET] (by default [adk-test-kd]) exists
    and its object [STORE_NAME_BLOB] (by default [store_name.txt] under
    [CONFIG_PREFIX], itself [config/] by default) holds a name that is not
    blank; [STORE_NAME] is then that content stripped, [GET /status] says
    [ready] and names the bucket and the object, and [POST /ask] never answers
    with the error 500 of a store that is not loaded.  Otherwise the server
    does not start: the missing key is reported first, then the missing bucket,
    then the missing object, then the blank one. *)
Theorem X14_app_remote_startup :
  ∀ environ storage,
    let api_key := or_else (environ !! py:"GOOGLE_API_KEY")
                           (environ !! py:"GEMINI_API_KEY") in
    let bucket_name := default py:"adk-test-kd" (environ !! py:"DOCS_BUCKET") in
    let blob_name :=
      default (default py:"config/" (environ !! py:"CONFIG_PREFIX") ++
               py:"store_name.txt") (environ !! py:"STORE_NAME_BLOB") in
    match Remote.load_module environ storage with
    | Server.Started g =>
        truthy api_key = true ∧
        (∃ bucket content,
           storage !! bucket_name = Some bucket ∧ bucket !! blob_name = Some content ∧
           Remote.STORE_NAME g = strip content) ∧
        Remote.STORE_NAME g ≠ [] ∧
        Remote.status environ g =
          {| Remote.store_name := Remote.STORE_NAME g; Remote.ready := true;
             Remote.bucket := bucket_name; Remote.store_name_blob := blob_name |} ∧
        (∀ response, ∃ q, Remote.ask g (Ret response) = Ret q) ∧
        (∀ e, Remote.ask g (Raise e) = Raise e)
    | Server.RuntimeError message =>
        (truthy api_key = false ∧
         message =
         py:"Set GOOGLE_API_KEY or GEMINI_API_KEY in your environment or .env file.") ∨
        (truthy api_key = true ∧
         ((storage !! bucket_name = None ∧
           message = py:"GCS bucket '" ++ bucket_name ++
                     py:"' does not exist or is not accessible.") ∨
          (∃ bucket, storage !! bucket_name = Some bucket ∧
             ((bucket !! blob_name = None ∧
               message = py:"GCS object '" ++ blob_name ++
                         py:"' not found in bucket '" ++ bucket_name ++
                         py:"'. Run your GCS indexer first so it writes the File Search store name.") ∨
              (∃ content, bucket !! blob_name = Some content ∧ strip content = [] ∧
                 message = py:"GCS object '" ++ blob_name ++
                           py:"' is empty. Ensure the indexer wrote the store resource name correctly.")))))
    end.
Proof.
  intros environ storage api_key bucket_name blob_name.
  assert (Hb : Remote.GCS_BUCKET environ = bucket_name).
  { unfold Remote.GCS_BUCKET, getenv, bucket_name. by destruct (environ !! _). }
  assert (Hn : Remote.STORE_NAME_BLOB environ = blob_name).
  { unfold Remote.STORE_NAME_BLOB, Remote.CONFIG_PREFIX, getenv, blob_name.
    destruct (environ !! py:"STORE_NAME_BLOB"); [done|]. simpl.
    by destruct (environ !! py:"CONFIG_PREFIX"). }
  unfold Remote.load_module. fold api_key.
  destruct (truthy api_key) eqn:Hkey; simpl; [|by left].
  unfold Remote.load_store_name_from_gcs, Remote.status. rewrite Hb, Hn.
  destruct (storage !! bucket_name) as [bucket|]; [|right; split; [done|]; by left].
  destruct (bucket !! blob_name) as [content|] eqn:Hblob.
  2:{ right. split; [done|]. right. exists bucket. split; [done|]. left. split; [done|].
      reflexivity. }
  destruct (strip content) as [|c name] eqn:Hname; simpl.
  { right. split; [done|]. right. exists bucket. split; [done|]. right.
    exists content. do 2 (split; [done|]). reflexivity. }
  split; [done|]. split; [by exists bucket, content|]. split; [done|].
  split; [done|]. split; [intros response; by eexists|done].
Qed.

Lemma local_run_store_file lower env dn st st' r st1 store :
  Local.incremental_index lower env dn st = (st', r) →
  truthy (or_else (Local.GOOGLE_API_KEY env) (Local.GEMINI_API_KEY env)) = true →
  Local.load_or_create_store env dn st = (st1, Ret store) →
  Local.store_name_file st' = Local.store_name_file st1.
Proof.
  intros Hrun Hkey Hst.
  destruct (local_run_cases _ _ _ _ _ _ Hrun)
    as [(? & _)|(_ & [[Hst' _]|(st2 & store' & Hst' & Hfile & _)])]; congruence.
Qed.

Lemma gcs_run_store_blob lower env st st' r st1 store :
  Gcs.incremental_index lower env st = (st', r) →
  truthy (or_else (Gcs.GOOGLE_API_KEY env) (Gcs.GEMINI_API_KEY env)) = true →
  Gcs.bucket_exists env = true →
  Gcs.load_or_create_store env st = (st1, Ret store) →
  Gcs.store_name_blob st' = Gcs.store_name_blob st1.
Proof.
  intros Hrun Hkey Hbucket Hst.
  destruct (gcs_run_cases _ _ _ _ _ Hrun)
    as [(? & _)|(_ & [(? & _)|(_ & [[Hst' _]|(st2 & store' & Hst' & Hfile & _)])])];
    congruence.
Qed.

Lemma gcs_store_on_record env st st1 store :
  Gcs.load_or_create_store env st = (st1, Ret store) →
  strip <$> Gcs.store_name_blob st1 = Some (strip store).
Proof.
  rewrite gcs_store_eq.
  destruct (Gcs.store_name_blob st) as [content|] eqn:Hcontent; simpl.
  - destruct (strip content) as [|c s] eqn:Hs.
    + destruct (Gcs.create_store env); by intros [= <- <-].
    + intros [= <- <-]. rewrite Hcontent. simpl. by rewrite Hs, <- Hs, strip_idemp.
  - destruct (Gcs.create_store env); by intros [= <- <-].
Qed.

(** X15: the query service serves the store that the indexer filled.  After
    a run of the local indexer that resolved its store, whatever the outcome
    of the run, [app.py] started on the same directory loads as [STORE_NAME]
    the name that the indexer found on file or, when the indexer created the
    store, the created name as the text file gives it back (each carriage
    return, alone or before a line feed, read as a line feed), stripped,
    provided that is not empty.  After a run of the bucket indexer that
    resolved its store to a name that is not blank, [app_remote.py] started on
    the same environment, with no [STORE_NAME_BLOB] of its own, loads that name
    (stripped) from the bucket. *)
Theorem X15_indexer_to_service lower :
  (∀ env display_name st st' r st1 store environ,
     Local.incremental_index lower env display_name st = (st', r) →
     truthy (or_else (Local.GOOGLE_API_KEY env) (Local.GEMINI_API_KEY env)) = true →
     Local.load_or_create_store env display_name st = (st1, Ret store) →
     (truthy (strip <$> Local.store_name_file st) = false →
      strip (universal_newlines store) ≠ []) →
     truthy (or_else (environ !! py:"GOOGLE_API_KEY")
                     (environ !! py:"GEMINI_API_KEY")) = true →
     ∃ g, Server.load_module environ (Local.store_name_file st') = Server.Started g ∧
          Server.STORE_NAME g =
          if truthy (strip <$> Local.store_name_file st) then store
          else strip (universal_newlines store)) ∧
  (∀ env st st' r st1 store environ (storage : gmap str (gmap str str)) bucket,
     Gcs.incremental_index lower env st = (st', r) →
     truthy (or_else (Gcs.GOOGLE_API_KEY env) (Gcs.GEMINI_API_KEY env)) = true →
     Gcs.bucket_exists env = true →
     Gcs.load_or_create_store env st = (st1, Ret store) →
     strip store ≠ [] →
     truthy (or_else (environ !! py:"GOOGLE_API_KEY")
                     (environ !! py:"GEMINI_API_KEY")) = true →
     storage !! GcsConfig.GCS_BUCKET environ = Some bucket →
     bucket !! GcsConfig.STORE_NAME_BLOB environ = Gcs.store_name_blob st' →
     environ !! py:"STORE_NAME_BLOB" = None →
     ∃ g, Remote.load_module environ storage = Server.Started g ∧
          Remote.STORE_NAME g = strip store).
Proof.
  split.
  - intros env dn st st' r st1 store environ Hrun Hkey Hst Hne Hkey'.
    pose proof (local_store_on_file _ _ _ _ _ Hst) as Hfile.
    rewrite <- (local_run_store_file _ _ _ _ _ _ _ _ Hrun Hkey Hst) in Hfile.
    assert (Hfull : (if truthy (strip <$> Local.store_name_file st) then store
                     else strip (universal_newlines store)) ≠ []).
    { destruct (truthy (strip <$> Local.store_name_file st)) eqn:Hon; [|by apply Hne].
      rewrite local_store_eq in Hst.
      destruct (strip <$> Local.store_name_file st) as [[|c s]|]; [done| |done].
      injection Hst as _ <-. done. }
    unfold Server.load_module, Server.load_store_name. rewrite Hkey'. simpl.
    destruct (Local.store_name_file st') as [content|]; [|done].
    injection Hfile as ->.
    destruct (if truthy (strip <$> Local.store_name_file st) then store
              else strip (universal_newlines store)); [done|]. by eexists.
  - intros env st st' r st1 store environ storage bucket
      Hrun Hkey Hbucket Hst Hne Hkey' Hstorage Hblob Hown.
    pose proof (gcs_store_on_record _ _ _ _ Hst) as Hrec.
    rewrite <- (gcs_run_store_blob _ _ _ _ _ _ _ Hrun Hkey Hbucket Hst) in Hrec.
    unfold Remote.load_module, Remote.load_store_name_from_gcs. rewrite Hkey'. simpl.
    change (Remote.GCS_BUCKET environ) with (GcsConfig.GCS_BUCKET environ).
    rewrite Hstorage.
    assert (Hname : Remote.STORE_NAME_BLOB environ = GcsConfig.STORE_NAME_BLOB environ).
    { unfold Remote.STORE_NAME_BLOB, getenv. by rewrite Hown. }
    rewrite Hname, Hblob.
    destruct (Gcs.store_name_blob st') as [content|]; [|done].
    injection Hrec as ->. destruct (strip store); [done|]. by eexists.
Qed.

(** [app.py] after the first run of the local indexer in a directory without
    [./data], which ends with an error; [app_remote.py] after a run of the
    bucket indexer. *)
Lemma X15_indexer_to_service_witness :
  (∃ st' g,
     Local.incremental_index ascii_lower Samples.no_data py:"my_docs_store"
       Samples.fresh_local = (st', Raise DataDirNotFound) ∧
     Server.load_module Samples.environ (Local.store_name_file st') = Server.Started g ∧
     Server.STORE_NAME g = py:"fileSearchStores/s1") ∧
  (∃ st' g,
     Examples.gcs_run Examples.blobs_ab Examples.polled_once None = (st', Ret tt) ∧
     Remote.load_module Samples.environ Samples.storage = Server.Started g ∧
     Remote.STORE_NAME g = py:"fileSearchStores/s1").
Proof.
  split.
  - set (run := Local.incremental_index ascii_lower Samples.no_data
                  py:"my_docs_store" Samples.fresh_local).
    assert (Hrun : run = (run.1, Raise DataDirNotFound)) by (vm_compute; reflexivity).
    destruct (proj1 (X15_indexer_to_service ascii_lower) Samples.no_data
                py:"my_docs_store" Samples.fresh_local run.1 (Raise DataDirNotFound)
                (Local.load_or_create_store Samples.no_data py:"my_docs_store"
                   Samples.fresh_local).1
                py:"fileSearchStores/s1" Samples.environ Hrun)
      as (g & Hg & Hname).
    + reflexivity.
    + reflexivity.
    + intros _. vm_compute. discriminate.
    + reflexivity.
    + exists run.1, g. split; [exact Hrun|]. split; [exact Hg|]. rewrite Hname.
      vm_compute. reflexivity.
  - set (run := Examples.gcs_run Examples.blobs_ab Examples.polled_once None).
    assert (Hrun : run = (run.1, Ret tt)) by (vm_compute; reflexivity).
    destruct (proj2 (X15_indexer_to_service ascii_lower)
                (Examples.gcs_env Examples.blobs_ab Examples.polled_once)
                (Examples.gcs_st None) run.1 (Ret tt) (Examples.gcs_st None)
                py:"fileSearchStores/s1" Samples.environ Samples.storage
                {[ py:"config/store_name.txt" := py:"fileSearchStores/s1" ]} Hrun)
      as (g & Hg & Hname).
    + reflexivity.
    + reflexivity.
    + vm_compute. reflexivity.
    + vm_compute. discriminate.
    + reflexivity.
    + vm_compute. reflexivity.
    + vm_compute. reflexivity.
    + vm_compute. reflexivity.
    + exists run.1, g. split; [exact Hrun|]. split; [exact Hg|]. rewrite Hname.
      vm_compute. reflexivity.
Defined.

(** X16: the names that the bucket indexer and [app_remote.py] derive from
    the environment.  Both use the bucket [DOCS_BUCKET].  The object that
    [app_remote.py] reads the store name from is the object that the indexer
    writes it to exactly when [STORE_NAME_BLOB] is not set, or is set to that
    very name: a [STORE_NAME_BLOB] of the service's own is not seen by the
    indexer.  The store name and the ledger of the indexer are two objects,
    whatever [CONFIG_PREFIX]. *)
Theorem X16_configured_names :
  ∀ environ : gmap str str,
    Remote.GCS_BUCKET environ = GcsConfig.GCS_BUCKET environ ∧
    (Remote.STORE_NAME_BLOB environ = GcsConfig.STORE_NAME_BLOB environ ↔
     environ !! py:"STORE_NAME_BLOB" = None ∨
     environ !! py:"STORE_NAME_BLOB" = Some (GcsConfig.STORE_NAME_BLOB environ)) ∧
    GcsConfig.STORE_NAME_BLOB environ ≠ GcsConfig.INDEX_STATE_BLOB environ ∧
    (environ !! py:"CONFIG_PREFIX" = None →
     GcsConfig.STORE_NAME_BLOB environ = py:"config/store_name.txt" ∧
     GcsConfig.INDEX_STATE_BLOB environ = py:"config/indexed_files.json").
Proof.
  intros environ. split; [done|]. split; [|split].
  - unfold Remote.STORE_NAME_BLOB, getenv.
    change (Remote.CONFIG_PREFIX environ ++ py:"store_name.txt")
      with (GcsConfig.STORE_NAME_BLOB environ).
    destruct (environ !! py:"STORE_NAME_BLOB") as [v|].
    + split; [intros ->; by right|]. by intros [?|[= ->]].
    + split; [by left|done].
  - unfold GcsConfig.STORE_NAME_BLOB, GcsConfig.INDEX_STATE_BLOB.
    intros Heq%app_inv_head. discriminate Heq.
  - intros Hnone.
    unfold GcsConfig.STORE_NAME_BLOB, GcsConfig.INDEX_STATE_BLOB,
      GcsConfig.CONFIG_PREFIX, getenv. by rewrite Hnone.
Qed.

(** The names under an environment that sets none of the variables. *)
Lemma X16_configured_names_witness :
  GcsConfig.STORE_NAME_BLOB ∅ = py:"config/store_name.txt" ∧
  GcsConfig.INDEX_STATE_BLOB ∅ = py:"config/indexed_files.json" ∧
  Remote.STORE_NAME_BLOB ∅ = GcsConfig.STORE_NAME_BLOB ∅.
Proof.
  destruct (X16_configured_names ∅) as (_ & Hiff & _ & Hdefault).
  split; [exact (proj1 (Hdefault eq_refl))|].
  split; [exact (proj2 (Hdefault eq_refl))|].
  apply Hiff. left. reflexivity.
Defined.

(** X17: every retrieved context of the response is cited.  The answer of
    [POST /ask] holds the citation of every chunk with a retrieved context of
    every candidate with grounding metadata; the citations come in the order
    of the candidates and, within a candidate, of its chunks. *)
Theorem X17_every_context_cited :
  (∀ detail store response q candidate gm chunks chunk rc,
     ask_question detail store (Ret response) = Ret q →
     candidate ∈ default [] (candidates response) →
     grounding_metadata candidate = Some gm →
     grounding_chunks gm = Some chunks →
     chunk ∈ chunks →
     retrieved_context chunk = Some rc →
     citation rc ∈ citations q) ∧
  (∀ detail store text before after q,
     ask_question detail store
       (Ret {| response_text := text; candidates := Some (before ++ after) |}) = Ret q →
     ∃ q1 q2,
       ask_question detail store
         (Ret {| response_text := text; candidates := Some before |}) = Ret q1 ∧
       ask_question detail store
         (Ret {| response_text := text; candidates := Some after |}) = Ret q2 ∧
       citations q = citations q1 ++ citations q2) ∧
  (∀ before after,
     chunk_citations (before ++ after) =
     chunk_citations before ++ chunk_citations after).
Proof.
  assert (Hchunks : ∀ before after,
            chunk_citations (before ++ after) =
            chunk_citations before ++ chunk_citations after).
  { intros before after. induction before as [|chunk before IH]; [done|]. simpl.
    destruct (retrieved_context chunk); by rewrite IH. }
  split; [|split; [|done]].
  - intros detail store response q candidate gm chunks chunk rc Hask Hc Hgm Hch Hin Hrc.
    unfold ask_question in Hask. destruct store; [done|]. injection Hask as <-. simpl.
    apply list_elem_of_split in Hc as (c1 & c2 & ->).
    apply list_elem_of_split in Hin as (k1 & k2 & ->).
    rewrite collect_citations_app. simpl. rewrite Hgm, Hch. simpl.
    rewrite Hchunks. simpl. rewrite Hrc.
    rewrite !elem_of_app. right. left. right. left.
  - intros detail store text before after q Hask.
    unfold ask_question in *. destruct store; [done|]. injection Hask as <-.
    eexists _, _. split; [done|]. split; [done|]. simpl.
    apply collect_citations_app.
Qed.

(** The answer to [grounded_response]: the citation of the context without
    title and text is there. *)
Lemma X17_every_context_cited_witness :
  ∃ q, ask_question app_detail py:"fileSearchStores/s1"
         (Ret Examples.grounded_response) = Ret q ∧
       citation Examples.bare_context ∈ citations q.
Proof.
  eexists. split; [reflexivity|].
  eapply (proj1 X17_every_context_cited app_detail py:"fileSearchStores/s1"
            Examples.grounded_response _
            {| grounding_metadata := Some {| grounding_chunks := Some
                 [ {| retrieved_context := Some Examples.guide_context |};
                   {| retrieved_context := None |};
                   {| retrieved_context := Some Examples.bare_context |} ] |} |}
            _ _ {| retrieved_context := Some Examples.bare_context |}
            Examples.bare_context eq_refl).
  - right. left.
  - reflexivity.
  - reflexivity.
  - right. right. left.
  - reflexivity.
Defined.

End Serving.

(** ** The text of the ledger *)

Section LedgerText.
Import Py Json.

(** A printable ASCII character. *)
Lemma hex_digit_printable n : n < 16 → 32 ≤ hex_digit n ∧ hex_digit n ≤ 126.
Proof. unfold hex_digit. intros Hn. destruct (n <? 10) eqn:H10; lia. Qed.

Lemma u_escape_printable n : Forall (λ x, 32 ≤ x ∧ x ≤ 126) (u_escape n).
Proof.
  unfold u_escape.
  repeat (constructor; [try lia|]); try (by constructor);
    apply hex_digit_printable; by apply N.mod_upper_bound.
Qed.

Lemma escape_char_printable c : Forall (λ x, 32 ≤ x ∧ x ≤ 126) (escape_char c).
Proof.
  unfold escape_char.
  repeat (match goal with
          | |- context [if ?b then _ else _] => destruct b eqn:?
          end; [repeat (constructor; [lia|]); by constructor|]).
  destruct ((32 <=? c) && (c <=? 126)) eqn:Hp.
  { apply andb_prop in Hp as [?%N.leb_le ?%N.leb_le]. constructor; [lia|constructor]. }
  destruct (c <? 65536); [apply u_escape_printable|].
  apply Forall_app. split; apply u_escape_printable.
Qed.

Lemma encoded_printable s :
  Forall (λ x, 32 ≤ x ∧ x ≤ 126) (encode_basestring_ascii s).
Proof.
  unfold encode_basestring_ascii. constructor; [lia|].
  apply Forall_app. split; [|constructor; [lia|constructor]].
  apply Forall_flat_map, Forall_forall. intros c _. apply escape_char_printable.
Qed.

Lemma printable_no_newline l :
  Forall (λ x, 32 ≤ x ∧ x ≤ 126) l → filter (λ c, c = 10) l = [].
Proof.
  induction 1 as [|x l [Hx _] _ IH]; [done|].
  rewrite filter_cons, decide_False by lia. done.
Qed.

Lemma printable_weaken l :
  Forall (λ x, 32 ≤ x ∧ x ≤ 126) l → Forall (λ c, c = 10 ∨ (32 ≤ c ∧ c ≤ 126)) l.
Proof. intros Hl. eapply Forall_impl; [exact Hl|]. simpl. auto. Qed.

Lemma encode_item_printable kv : Forall (λ x, 32 ≤ x ∧ x ≤ 126) (encode_item kv).
Proof.
  unfold encode_item. apply Forall_app. split; [apply encoded_printable|].
  constructor; [lia|]. constructor; [lia|].
  apply encoded_printable.
Qed.

Lemma encode_items_text first items :
  Forall (λ c, c = 10 ∨ (32 ≤ c ∧ c ≤ 126)) (encode_items first items) ∧
  length (filter (λ c, c = 10) (encode_items first items)) = length items.
Proof.
  revert first. induction items as [|kv items IH]; intros first; [done|].
  cbn [encode_items]. destruct (IH false) as [IH1 IH2].
  pose proof (encode_item_printable kv) as Hkv. split.
  - apply Forall_app. split.
    { destruct first; repeat (constructor; [lia|]); constructor. }
    apply Forall_app. split; [by apply printable_weaken|done].
  - rewrite !filter_app, !length_app, (printable_no_newline _ Hkv), IH2.
    by destruct first.
Qed.

Lemma dumps_chars (state : gmap str str) :
  Forall (λ c, c = 10 ∨ (32 ≤ c ∧ c ≤ 126)) (Json.dumps state).
Proof.
  unfold dumps, dumps_items. destruct (map_to_list state) as [|kv items].
  { repeat (constructor; [lia|]). constructor. }
  constructor; [lia|]. apply Forall_app. split.
  - apply encode_items_text.
  - repeat (constructor; [lia|]). constructor.
Qed.

(** The ledger text holds no carriage return: a read of the ledger file
    returns the text as [save_index_state] wrote it. *)
Lemma dumps_read_back (state : gmap str str) :
  universal_newlines (Json.dumps state) = Json.dumps state.
Proof.
  apply universal_newlines_plain. intros Hin.
  pose proof (dumps_chars state) as Hall. rewrite Forall_forall in Hall.
  destruct (Hall _ Hin) as [?|[? ?]]; lia.
Qed.

(** X18: the ledger is written as ASCII text with one entry on each line.
    Whatever the identifiers and fingerprints (a name with a line break, a
    quote or a character outside ASCII is escaped), every character of the
    text is a line feed or a printable ASCII character, and the text has as
    many line feeds as the ledger has entries, and one more; the empty ledger
    is written on one line. *)
Theorem X18_ledger_text_is_ascii_lines :
  ∀ state : gmap str str,
    Forall (λ c, c = 10 ∨ (32 ≤ c ∧ c ≤ 126)) (Json.dumps state) ∧
    length (filter (λ c, c = 10) (Json.dumps state)) =
      (if decide (state = ∅) then 0 else S (size state))%nat ∧
    (∀ st, (Local.save_index_state state st).1.(Local.index_state_file) =
           Some (Json.dumps state)) ∧
    (∀ st, (Gcs.save_index_state_to_gcs state st).1.(Gcs.index_state_blob) =
           Some (Json.dumps state)).
Proof.
  intros state. split; [|split; [|done]].
  - apply dumps_chars.
  - unfold dumps, dumps_items. rewrite <- length_map_to_list.
    destruct (decide (state = ∅)) as [->|Hne].
    { by rewrite map_to_list_empty. }
    destruct (map_to_list state) as [|kv items] eqn:Hitems.
    { by apply map_to_list_empty_iff in Hitems. }
    rewrite filter_cons, decide_False by done.
    rewrite filter_app, length_app.
    rewrite (proj2 (encode_items_text true (sorted (kv :: items)))).
    rewrite (Permutation_length (sorted_Permutation (kv :: items))).
    simpl. lia.
Qed.

End LedgerText.

(** ** Names of blobs and of temporary files *)

Section BlobNames.
Import Py Run Trace.

Lemma existsb_slash (p : str) : existsb (N.eqb 47) p = true ↔ 47 ∈ p.
Proof.
  rewrite existsb_exists. split.
  - intros (x & Hx%list_elem_of_In & ->%N.eqb_eq). done.
  - intros Hin. exists 47. split; [by apply list_elem_of_In|apply N.eqb_refl].
Qed.

Lemma basename_no_slash p : 47 ∉ basename p.
Proof.
  induction p as [|c p IH]; simpl; [by intros ?%not_elem_of_nil|].
  destruct (existsb (N.eqb 47) p) eqn:Hp; [done|].
  assert (Hno : 47 ∉ p).
  { intros Hin%existsb_slash. congruence. }
  destruct (c =? 47) eqn:Hc; [done|].
  apply N.eqb_neq in Hc. intros [?|?]%elem_of_cons; [congruence|done].
Qed.

Lemma basename_of_path dir base : 47 ∉ base → basename (dir ++ 47 :: base) = base.
Proof.
  intros Hbase. induction dir as [|d dir IH]; simpl.
  - destruct (existsb (N.eqb 47) base) eqn:Hb; [|done].
    by apply existsb_slash in Hb.
  - replace (existsb (N.eqb 47) (dir ++ 47 :: base)) with true; [done|].
    symmetry. apply existsb_slash, elem_of_app. right. left.
Qed.

Lemma basename_plain name : 47 ∉ name → basename name = name.
Proof.
  intros Hname. destruct name as [|c name]; [done|]. simpl.
  replace (existsb (N.eqb 47) name) with false.
  - replace (c =? 47) with false; [done|].
    symmetry. apply N.eqb_neq. intros ->. apply Hname. left.
  - symmetry. apply not_true_is_false. intros Hin%existsb_slash.
    apply Hname. by right.
Qed.

Lemma tmp_join b : 47 ∉ b → path_join py:"/tmp" b = py:"/tmp/" ++ b.
Proof.
  intros Hb. unfold path_join.
  assert (Hs : startswith b [47] = false).
  { destruct b as [|c b]; [done|]. cbn [startswith].
    destruct (N.eqb_spec 47 c) as [<-|_]; [|done]. exfalso. apply Hb. left. }
  by rewrite Hs.
Qed.

(** X19: the temporary copy of a blob is the file named by the base name
    of the blob, directly under [/tmp]; the display name of its upload is that
    base name.  The base name holds no slash, and is what follows the last
    slash of the blob name; so two blobs with the same base name in different
    folders are staged at the same path. *)
Theorem X19_temporary_path :
  (∀ name,
     Gcs.tmp_path_of name = py:"/tmp/" ++ basename name ∧ 47 ∉ basename name) ∧
  (∀ dir base,
     47 ∉ base →
     basename (dir ++ 47 :: base) = base ∧
     Gcs.tmp_path_of (dir ++ 47 :: base) = py:"/tmp/" ++ base) ∧
  (∀ name, 47 ∉ name → Gcs.tmp_path_of name = py:"/tmp/" ++ name) ∧
  (∀ env store k name md5 state st e,
     e ∈ Gcs.trace (Gcs.index_one env store k (name, md5) state st).1 →
     e ∈ Gcs.trace st ∨
     (∀ doc file s dn, e = EUpload doc file s dn →
        file = py:"/tmp/" ++ basename name ∧ dn = basename name) ∧
     (∀ doc file, e = EDownload doc file → file = py:"/tmp/" ++ basename name) ∧
     (∀ file, e = ERemove file → file = py:"/tmp/" ++ basename name)).
Proof.
  assert (Htmp : ∀ name, Gcs.tmp_path_of name = py:"/tmp/" ++ basename name).
  { intros name. unfold Gcs.tmp_path_of. apply tmp_join, basename_no_slash. }
  split; [|split; [|split]].
  - intros name. split; [apply Htmp|apply basename_no_slash].
  - intros dir base Hbase. split; [by apply basename_of_path|].
    by rewrite Htmp, basename_of_path.
  - intros name Hname. by rewrite Htmp, basename_plain.
  - intros env store k name md5 state st e.
    destruct (gcs_index_one_kinds env store k name md5 state st) as (es & -> & Hk).
    intros [Hin|Hin]%elem_of_app; [by left|]. right.
    rewrite <- Htmp.
    destruct (Hk _ Hin) as [->|[->|[->|[->|[->|[->|[(h & _ & ->)| ->]]]]]]];
      repeat split; intros; simplify_eq; done.
Qed.

(** Two blobs named [c.pdf], in two folders. *)
Lemma X19_temporary_path_witness :
  Gcs.tmp_path_of py:"PdfDocuments/2023/c.pdf" = py:"/tmp/c.pdf" ∧
  Gcs.tmp_path_of py:"PdfDocuments/2024/c.pdf" = py:"/tmp/c.pdf".
Proof.
  split.
  - apply (proj2 (proj1 (proj2 X19_temporary_path) py:"PdfDocuments/2023" py:"c.pdf"
                    ltac:(apply (bool_decide_unpack _); vm_compute; exact I))).
  - apply (proj2 (proj1 (proj2 X19_temporary_path) py:"PdfDocuments/2024" py:"c.pdf"
                    ltac:(apply (bool_decide_unpack _); vm_compute; exact I))).
Defined.

Lemma startswith_app (x y p : str) :
  (length p ≤ length x)%nat → startswith (x ++ y) p = startswith x p.
Proof.
  assert (Hnil : ∀ s, startswith s [] = true) by (by intros []).
  revert x. induction p as [|a p IH]; intros x Hlen; [by rewrite !Hnil|].
  destruct x as [|b x]; simpl in *; [lia|].
  rewrite IH by lia. done.
Qed.

Lemma endswith_app (x y p : str) :
  (length p ≤ length y)%nat → endswith (x ++ y) p = endswith y p.
Proof.
  intros Hlen. unfold endswith. rewrite reverse_app.
  apply startswith_app. by rewrite !length_reverse.
Qed.

(** The candidates have an allowed extension, and every listed blob with an
    allowed extension is a candidate. *)
Lemma gcs_candidates_allowed lower listing name :
  name ∈ (Gcs.list_candidate_blobs lower listing).*1 ↔
  ∃ b, b ∈ listing ∧ Gcs.b_name b = name ∧
       existsb (endswith (lower name)) Gcs.ALLOWED_EXT = true.
Proof.
  induction listing as [|b listing IH]; cbn [Gcs.list_candidate_blobs].
  { split; [by intros ?%not_elem_of_nil|]. by intros (? & ?%not_elem_of_nil & _). }
  assert (Hrest : (∃ b0, b0 ∈ listing ∧ Gcs.b_name b0 = name ∧
                     existsb (endswith (lower name)) Gcs.ALLOWED_EXT = true) →
                  ∃ b0, b0 ∈ b :: listing ∧ Gcs.b_name b0 = name ∧
                     existsb (endswith (lower name)) Gcs.ALLOWED_EXT = true).
  { intros (b0 & ? & ?). exists b0. split; [by right|done]. }
  destruct (existsb (endswith (lower (Gcs.b_name b))) Gcs.ALLOWED_EXT) eqn:Hb;
    cbn [negb].
  - assert (Hhead : ∀ md5 : option str,
              name ∈ ((Gcs.b_name b, md5) :: Gcs.list_candidate_blobs lower listing).*1 ↔
              ∃ b0, b0 ∈ b :: listing ∧ Gcs.b_name b0 = name ∧
                    existsb (endswith (lower name)) Gcs.ALLOWED_EXT = true).
    { intros md5. rewrite fmap_cons, elem_of_cons, IH. simpl. split.
      - intros [->|Hin]; [|by apply Hrest]. exists b. split; [left|done].
      - intros (b0 & [->|Hin]%elem_of_cons & Hname & Hal); [by left|].
        right. by exists b0. }
    destruct (negb (truthy (Gcs.b_md5_hash b))); apply Hhead.
  - rewrite IH. split; [apply Hrest|].
    intros (b0 & [->|Hin]%elem_of_cons & Hname & Hal); [congruence|by exists b0].
Qed.

(** X20: the blobs of the indexer's own that it takes for documents.  For
    a lower-casing that leaves a suffix of lower-case ASCII in place, as
    [str.lower] does: the ledger blob [indexed_files.json] is never a candidate,
    whatever the prefixes and the listing; but the store name blob
    [store_name.txt] is a candidate whenever the listing of the documents
    prefix holds it. *)
Theorem X20_config_blobs_as_documents lower :
  (∀ a b : str, Forall (λ c, 97 ≤ c ∧ c ≤ 122 ∨ c = 46 ∨ c = 95) b →
     ∃ a', lower (a ++ b) = a' ++ b) →
  ∀ environ listing,
    (GcsConfig.INDEX_STATE_BLOB environ ∉ (Gcs.list_candidate_blobs lower listing).*1) ∧
    (∀ b, b ∈ listing → Gcs.b_name b = GcsConfig.STORE_NAME_BLOB environ →
       GcsConfig.STORE_NAME_BLOB environ ∈ (Gcs.list_candidate_blobs lower listing).*1).
Proof.
  intros Hlower environ listing. split.
  - rewrite gcs_candidates_allowed. intros (b & _ & _ & Hal).
    unfold GcsConfig.INDEX_STATE_BLOB in Hal.
    destruct (Hlower (GcsConfig.CONFIG_PREFIX environ) py:"indexed_files.json")
      as [a' Ha'].
    { apply (bool_decide_unpack _). vm_compute. exact I. }
    rewrite Ha' in Hal. simpl in Hal.
    rewrite !endswith_app in Hal by (simpl; lia). vm_compute in Hal. done.
  - intros b Hb Hname. apply gcs_candidates_allowed. exists b.
    split; [done|]. split; [done|].
    unfold GcsConfig.STORE_NAME_BLOB.
    destruct (Hlower (GcsConfig.CONFIG_PREFIX environ) py:"store_name.txt")
      as [a' Ha'].
    { apply (bool_decide_unpack _). vm_compute. exact I. }
    rewrite Ha'. simpl. rewrite !endswith_app by (simpl; lia). reflexivity.
Qed.

Lemma ascii_lower_suffix (a b : str) :
  Forall (λ c, 97 ≤ c ∧ c ≤ 122 ∨ c = 46 ∨ c = 95) b →
  ∃ a', ascii_lower (a ++ b) = a' ++ b.
Proof.
  intros Hb. exists (ascii_lower a). unfold ascii_lower. rewrite fmap_app. f_equal.
  induction Hb as [|c b Hc _ IH]; [done|]. rewrite fmap_cons, IH. f_equal.
  destruct ((65 <=? c) && (c <=? 90)) eqn:Hup; [|done].
  apply andb_prop in Hup as [?%N.leb_le ?%N.leb_le]. lia.
Qed.

(** A listing of the bucket under the empty prefix, which holds the two
    blobs of the indexer besides a document. *)
Lemma X20_config_blobs_as_documents_witness :
  Gcs.list_candidate_blobs ascii_lower Samples.whole_bucket =
    [(py:"PdfDocuments/a.pdf", Some py:"h1"); (py:"config/store_name.txt", Some py:"h3")] ∧
  (GcsConfig.INDEX_STATE_BLOB ∅ ∉ (Gcs.list_candidate_blobs ascii_lower Samples.whole_bucket).*1) ∧
  GcsConfig.STORE_NAME_BLOB ∅ ∈ (Gcs.list_candidate_blobs ascii_lower Samples.whole_bucket).*1.
Proof.
  destruct (X20_config_blobs_as_documents ascii_lower ascii_lower_suffix ∅
              Samples.whole_bucket) as [Hledger Hname].
  split; [vm_compute; reflexivity|]. split; [exact Hledger|].
  apply (Hname (Examples.blob "config/store_name.txt" (Some "h3"))).
  - right. right. left.
  - reflexivity.
Defined.

End BlobNames.

(** ** The fingerprint of a file *)

Section FileDigest.
Import Py.

Lemma read_loop_all {H} (update : H → list Byte.byte → H) :
  (∀ h, update h [] = h) →
  (∀ h a b, update h (a ++ b) = update (update h a) b) →
  ∀ fuel h rest, (length rest < fuel)%nat →
    FileHash.read_loop H update fuel h rest = Some (update h rest).
Proof.
  intros Hnil Happ. induction fuel as [|fuel IH]; intros h rest Hlen; [lia|].
  cbn [FileHash.read_loop]. unfold FileHash.read.
  assert (Hpos : ∃ n, FileHash.CHUNK = S n).
  { exists (pred FileHash.CHUNK). unfold FileHash.CHUNK. lia. }
  destruct Hpos as [n Hn].
  destruct rest as [|x rest].
  { rewrite take_nil. by rewrite Hnil. }
  rewrite Hn. cbn [take drop]. rewrite IH.
  - rewrite <- Happ. do 2 f_equal. change (take (S n) (x :: rest) ++ drop (S n) (x :: rest) = x :: rest).
    apply take_drop.
  - rewrite length_drop. simpl in Hlen. lia.
Qed.

(** X21: [file_hash] returns the digest of the whole content of the file.
    For a hash object whose [update] leaves the state as it is on no bytes,
    and takes the bytes of two calls as it takes them in one, as those of
    [hashlib] do: reading the file by chunks of 8192 bytes until a read
    returns no byte, and updating the hash with each chunk, ends (the loop
    needs no more reads than the file has bytes, and one) and gives the
    digest of the state updated with the content at once; for the empty file,
    the digest of the initial state. *)
Theorem X21_file_hash_digest :
  ∀ (H : Type) (sha256 : H) (update : H → list Byte.byte → H) (hexdigest : H → str),
    (∀ h, update h [] = h) →
    (∀ h a b, update h (a ++ b) = update (update h a) b) →
    (∀ content,
       FileHash.file_hash H sha256 update hexdigest content =
       Some (hexdigest (update sha256 content))) ∧
    FileHash.file_hash H sha256 update hexdigest [] = Some (hexdigest sha256).
Proof.
  intros H sha256 update hexdigest Hnil Happ.
  assert (Hall : ∀ content,
            FileHash.file_hash H sha256 update hexdigest content =
            Some (hexdigest (update sha256 content))).
  { intros content. unfold FileHash.file_hash.
    rewrite (read_loop_all update Hnil Happ) by lia. done. }
  split; [done|]. by rewrite Hall, Hnil.
Qed.

(** With the hash that keeps the bytes it is given. *)
Lemma X21_file_hash_digest_witness :
  FileHash.file_hash (list Byte.byte) [] app (fmap Byte.to_N)
    [Byte.x68; Byte.x69] = Some [104; 105].
Proof.
  rewrite (proj1 (X21_file_hash_digest (list Byte.byte) [] app (fmap Byte.to_N)
                    (λ h, app_nil_r h) (λ h a b, app_assoc h a b))).
  reflexivity.
Defined.

End FileDigest.

(** ** The temporary copy after a round that returns *)

Section Cleanup.
Import Py Run Trace Stage.

(** X22: the cleanup of a round that returns.  The last thing such a round
    does is the removal of the temporary copy it staged, and the copy is gone
    afterwards exactly when the removal succeeded: a removal that fails is
    passed over, the round returns all the same and the copy stays.  So a run
    that returns, and whose removals all succeeded, leaves no copy of a
    document it uploaded. *)
Theorem X22_copy_removed_after_round lower :
  (∀ env store k name md5 state st st' state',
     Gcs.index_one env store k (name, md5) state st = (st', Ret state') →
     (Gcs.tmp_path_of name ∈ Gcs.tmp st' ↔ Gcs.remove env k = false) ∧
     last (Gcs.trace st') = Some (ERemove (Gcs.tmp_path_of name))) ∧
  (∀ env st st' state name,
     Gcs.incremental_index lower env st = (st', Ret tt) →
     ledger_of (Gcs.index_state_blob st) = Some state →
     (∀ i, (i < length (Gcs.new_or_changed state
                          (Gcs.list_candidate_blobs lower (Gcs.blobs env))))%nat →
        Gcs.remove env i = true) →
     name ∈ Gcs.doc_names (Gcs.new_or_changed state
                             (Gcs.list_candidate_blobs lower (Gcs.blobs env))) →
     Gcs.tmp_path_of name ∉ Gcs.tmp st').
Proof.
  split.
  - intros env store k name md5 state st st' state' Hone. split.
    + destruct (gcs_index_one_spec _ _ _ _ _ _ _ _ _ Hone)
        as (_ & _ & es & _ & _ & _ & _ & _ & _ & _ & Hr & _).
      destruct Hr as (_ & _ & _ & _ & _ & ->).
      destruct (Gcs.remove env k).
      * rewrite elem_of_difference, elem_of_singleton. split; [tauto|done].
      * rewrite elem_of_union, elem_of_singleton. split; [done|]. by left.
    + rewrite gcs_index_one_eq in Hone. cbv zeta in Hone.
      destruct (Gcs.download env k); [|by injection Hone].
      destruct (Gcs.upload env k) as [|op]; [by injection Hone|].
      destruct (settles op) as [[]| | |]; try by injection Hone.
      injection Hone as <- _. unfold staged. simpl.
      rewrite !app_comm_cons, !app_assoc. apply last_snoc.
  - intros env st st' state name Hrun Hstate Hrm Hin.
    destruct (gcs_run_spec _ _ _ _ _ Hrun)
      as (es & Htr & Hcfd & Hnr & Hr & Hnone & Hjson & Hloop).
    destruct (Hloop _ Hstate) as (_ & _ & _ & _ & Hret).
    destruct (Hret eq_refl) as (_ & _ & _ & Htmp & _).
    rewrite (Htmp Hrm), elem_of_difference, elem_of_list_to_set.
    intros [_ Hno]. apply Hno. apply list_elem_of_fmap. by exists name.
Qed.

(** The run over the bucket of [c.pdf] returns with no temporary copy left;
    on a machine where the removal fails, the round of [c.pdf] returns and
    leaves its copy. *)
Lemma X22_copy_removed_after_round_witness :
  (∃ st',
     Examples.gcs_run Examples.blobs_c Examples.polled_once None = (st', Ret tt) ∧
     (Gcs.tmp_path_of py:"c.pdf" ∉ Gcs.tmp st')) ∧
  (∃ st' state',
     Gcs.index_one Samples.removal_fails py:"fileSearchStores/s1" 0
       (py:"c.pdf", None) ∅ (Examples.gcs_st None) = (st', Ret state') ∧
     Gcs.tmp_path_of py:"c.pdf" ∈ Gcs.tmp st').
Proof.
  split.
  - set (run := Examples.gcs_run Examples.blobs_c Examples.polled_once None).
    assert (Hrun : run = (run.1, Ret tt)) by (vm_compute; reflexivity).
    exists run.1. split; [exact Hrun|].
    apply (proj2 (X22_copy_removed_after_round ascii_lower) _ _ _ ∅ _ Hrun).
    + reflexivity.
    + intros i _. reflexivity.
    + apply (bool_decide_unpack _). vm_compute. exact I.
  - set (one := Gcs.index_one Samples.removal_fails py:"fileSearchStores/s1" 0
                  (py:"c.pdf", None) ∅ (Examples.gcs_st None)).
    assert (Hone : one = (one.1, Ret ∅)) by (vm_compute; reflexivity).
    exists one.1, ∅. split; [exact Hone|].
    apply (proj1 (X22_copy_removed_after_round ascii_lower) Samples.removal_fails
             py:"fileSearchStores/s1" 0%nat py:"c.pdf" None ∅ (Examples.gcs_st None)
             one.1 ∅ Hone).
    reflexivity.
Defined.

End Cleanup.
